(** * TinyPedal fuel module: a shallow embedding and its verified properties

    Sources embedded here:
      - [src/tinypedal/calculation.py]: [linear_interp], [search_column_key],
        [binary_search_hi], [delta_telemetry] and the fuel projection formulas;
      - [src/tinypedal/module/module_fuel.py]: the active branch of
        [Realtime.__update_data] (one polling tick), [load_deltafuel] and
        [save_deltafuel].

    Number model.  Python floats are embedded as exact rationals [Q]; results
    are compared with [==].  Comparisons of floats are exact, so every control
    flow decision of the code is reproduced; arithmetic is idealised (no
    rounding).  Where rounding decides a property, the same function is
    transcribed a second time over the kernel's binary64 numbers in
    [Module Binary64] and evaluated there.

    Exceptions.  Python exceptions are values of [exn]; a function that can
    raise returns [result A]. *)

From Stdlib Require Import String ZArith QArith Qround Qabs List Bool Lia Lqa.
From Stdlib Require Import Sorting.Sorted.
From Stdlib Require PrimFloat.
From Equations Require Import Equations.
Import ListNotations.

Local Open Scope Z_scope.
Local Open Scope Q_scope.

(** ** Exceptions and the result monad *)

Inductive exn : Type :=
| IndexError
| TypeError
| ValueError
| ZeroDivisionError
| FileNotFoundError
| OtherError (name : string).

Inductive result (A : Type) : Type :=
| Ok (a : A)
| Raise (e : exn).

Arguments Ok {A} a.
Arguments Raise {A} e.

Definition bind {A B : Type} (r : result A) (k : A -> result B) : result B :=
  match r with
  | Ok a => k a
  | Raise e => Raise e
  end.

Notation "x <- r ;; k" := (bind r (fun x => k))
  (at level 61, r at next level, right associativity).

(** Results over [Q] are compared up to [==]. *)
Definition result_eq (r1 r2 : result Q) : Prop :=
  match r1, r2 with
  | Ok a, Ok b => a == b
  | Raise e1, Raise e2 => e1 = e2
  | _, _ => False
  end.

Infix "=r=" := result_eq (at level 70, no associativity).

(** ** Python values met by the search routines

    A list passed to the search routines holds either plain numbers or tuples
    of numbers (the rows of a delta curve). *)

Definition row : Type := list Q.

Inductive pyval : Type :=
| Num (q : Q)
| Tup (r : row).

(** [seq[i]] for a Python list or tuple: negative indices count from the end,
    anything outside [-len, len) raises [IndexError]. *)
Definition len {A : Type} (l : list A) : Z := Z.of_nat (length l).

Definition py_getitem {A : Type} (l : list A) (i : Z) : result A :=
  let j := if (i <? 0)%Z then (len l + i)%Z else i in
  if (j <? 0)%Z then Raise IndexError
  else match nth_error l (Z.to_nat j) with
       | Some a => Ok a
       | None => Raise IndexError
       end.

(** [v[i]] for a value: a float is not subscriptable. *)
Definition py_subscript (v : pyval) (i : Z) : result Q :=
  match v with
  | Num _ => Raise TypeError
  | Tup r => py_getitem r i
  end.

(** [target == key] and [target > key] with a float on the left. *)
Definition py_eq (target : Q) (key : pyval) : bool :=
  match key with
  | Num k => Qeq_bool target k
  | Tup _ => false
  end.

Definition Qltb (a b : Q) : bool := negb (Qle_bool b a).

Definition py_gt (target : Q) (key : pyval) : result bool :=
  match key with
  | Num k => Ok (Qltb k target)
  | Tup _ => Raise TypeError
  end.

(** [a / b] on floats. *)
Definition py_div (a b : Q) : result Q :=
  if Qeq_bool b 0 then Raise ZeroDivisionError else Ok (a / b).

(** Truth value of a float: [if x:] holds unless [x] is zero. *)
Definition truthy (x : Q) : bool := negb (Qeq_bool x 0).

(** [min(a, b)] and [max(a, b)]: the first argument wins a tie. *)
Definition py_min (a b : Q) : Q := if Qltb b a then b else a.
Definition py_max (a b : Q) : Q := if Qltb a b then b else a.

(** [x % 1] on floats: the fractional part, in [0, 1). *)
Definition py_mod1 (x : Q) : Q := x - inject_Z (Qfloor x).

(** [math.ceil(x)] *)
Definition math_ceil (x : Q) : Q := inject_Z (Qceiling x).

(** [round(x, 6)]: to the nearest multiple of 10^-6, ties to the even one. *)
Definition round_half_even (x : Q) : Z :=
  let f := Qfloor x in
  let r := x - inject_Z f in
  if Qltb r (1 # 2) then f
  else if Qltb (1 # 2) r then (f + 1)%Z
  else if Z.even f then f else (f + 1)%Z.

Definition round6 (x : Q) : Q := inject_Z (round_half_even (x * 1000000)) / 1000000.

(** ** calculation.py *)

(** [linear_interp(x, x1, y1, x2, y2)] *)
Definition linear_interp (x x1 y1 x2 y2 : Q) : result Q :=
  let x_diff := x2 - x1 in
  if truthy x_diff then
    q <- py_div ((x - x1) * (y2 - y1)) x_diff ;;
    Ok (y1 + q)
  else Ok y1.

(** [search_column_key(key, column=None)] *)
Definition search_column_key (key : pyval) (column : option Z) : result pyval :=
  match column with
  | None => Ok key
  | Some c => x <- py_subscript key c ;; Ok (Num x)
  end.

(** One pass through the body of the [while] loop of [binary_search_hi]: the
    outcome of the two tests on [data[center]]. *)
Inductive probe_outcome : Type :=
| Found      (* target == key: return center *)
| GoHigher   (* target > key: start = center + 1 *)
| GoLower.   (* otherwise: end = center *)

Definition probe (data : list pyval) (target : Q) (center : Z)
    (column : option Z) : result probe_outcome :=
  e <- py_getitem data center ;;
  k <- search_column_key e column ;;
  if py_eq target k then Ok Found
  else
    gt <- py_gt target k ;;
    if gt then Ok GoHigher else Ok GoLower.

(** [binary_search_hi(data, target, start, end, column=None)]; the loop runs
    while [start < end], and [end - start] decreases on every pass. *)
Equations? binary_search_hi (data : list pyval) (target : Q) (start end_ : Z)
    (column : option Z) : result Z by wf (Z.to_nat (end_ - start)) lt :=
  binary_search_hi data target start end_ column with Z_lt_dec start end_ => {
    | right _ => Ok end_
    | left _ with probe data target ((start + end_) / 2) column => {
        | Raise e => Raise e
        | Ok Found => Ok ((start + end_) / 2)%Z
        | Ok GoHigher =>
            binary_search_hi data target ((start + end_) / 2 + 1) end_ column
        | Ok GoLower =>
            binary_search_hi data target start ((start + end_) / 2) column } }.
Proof.
  all: assert (start <= (start + end_) / 2 < end_)%Z
    by (split; [apply Z.div_le_lower_bound | apply Z.div_lt_upper_bound]; lia);
    lia.
Qed.

(** [delta_telemetry(position, live_data, delta_list, condition=True, offset=0)] *)
Definition delta_telemetry (position live_data : Q) (delta_list : list pyval)
    (condition : bool) (offset : Q) : result Q :=
  index_higher <- binary_search_hi delta_list position 0 (len delta_list - 1) (Some 0%Z) ;;
  if (0 <? index_higher)%Z && condition then
    let index_lower := (index_higher - 1)%Z in
    rl0 <- py_getitem delta_list index_lower ;;
    x1 <- py_subscript rl0 0 ;;
    rl1 <- py_getitem delta_list index_lower ;;
    y1 <- py_subscript rl1 1 ;;
    rh0 <- py_getitem delta_list index_higher ;;
    x2 <- py_subscript rh0 0 ;;
    rh1 <- py_getitem delta_list index_higher ;;
    y2 <- py_subscript rh1 1 ;;
    li <- linear_interp position x1 y1 x2 y2 ;;
    Ok (live_data + offset - li)
  else Ok 0.

(** *** Fuel projection formulas *)

(** [lap_type_full_laps_remain(laps_total, laps_finished)] *)
Definition lap_type_full_laps_remain (laps_total laps_finished : Q) : Q :=
  laps_total - laps_finished.

(** [lap_type_laps_remain(laps_full_remain, lap_into)] *)
Definition lap_type_laps_remain (laps_full_remain lap_into : Q) : Q :=
  laps_full_remain - lap_into.

(** [time_type_full_laps_remain(laptime_current, laptime_last, seconds_remain)] *)
Definition time_type_full_laps_remain (laptime_current laptime_last seconds_remain : Q)
    : result Q :=
  if truthy laptime_last then
    q <- py_div laptime_current laptime_last ;;
    let seconds_into_lap := py_mod1 q * laptime_last in
    t <- py_div (seconds_remain + seconds_into_lap) laptime_last ;;
    Ok (math_ceil t)
  else Ok 0.

(** [time_type_laps_remain(laps_full_remain, lap_into, laps_remain, delay=False)] *)
Definition time_type_laps_remain (laps_full_remain lap_into laps_remain : Q)
    (delay : bool) : Q :=
  if delay then laps_remain
  else py_max (laps_full_remain - lap_into) 0.

(** [total_fuel_needed(laps_remain, consumption, fuel_in_tank)] *)
Definition total_fuel_needed (laps_remain consumption fuel_in_tank : Q) : Q :=
  laps_remain * consumption - fuel_in_tank.

(** [end_lap_consumption(consumption, consumption_delta, condition)] *)
Definition end_lap_consumption (consumption consumption_delta : Q)
    (condition : bool) : Q :=
  if condition then consumption + consumption_delta else consumption.

(** [end_stint_fuel(fuel_in_tank, consumption_into_lap, consumption)] *)
Definition end_stint_fuel (fuel_in_tank consumption_into_lap consumption : Q)
    : result Q :=
  if truthy consumption then
    let fuel_at_lap_start := fuel_in_tank + consumption_into_lap in
    q <- py_div fuel_at_lap_start consumption ;;
    Ok (py_mod1 q * consumption)
  else Ok 0.

(** [end_stint_laps(fuel_in_tank, consumption)] *)
Definition end_stint_laps (fuel_in_tank consumption : Q) : result Q :=
  if truthy consumption then py_div fuel_in_tank consumption else Ok 0.

(** [end_stint_minutes(laps_total, laptime_last)] *)
Definition end_stint_minutes (laps_total laptime_last : Q) : result Q :=
  py_div (laps_total * laptime_last) 60.

(** [end_lap_empty_capacity(capacity_total, fuel_in_tank, consumption)] *)
Definition end_lap_empty_capacity (capacity_total fuel_in_tank consumption : Q) : Q :=
  capacity_total - fuel_in_tank + consumption.

(** [end_stint_pit_counts(fuel_needed, capacity_total)] *)
Definition end_stint_pit_counts (fuel_needed capacity_total : Q) : result Q :=
  if truthy capacity_total then py_div fuel_needed capacity_total else Ok 0.

(** [end_lap_pit_counts(fuel_needed, capacity_empty, capacity_total)] *)
Definition end_lap_pit_counts (fuel_needed capacity_empty capacity_total : Q)
    : result Q :=
  let fuel_addable := py_min fuel_needed capacity_empty in
  pit_counts_before <-
    (if truthy capacity_empty then py_div fuel_addable capacity_empty else Ok 1) ;;
  pit_counts_after <- py_div (fuel_needed - fuel_addable) capacity_total ;;
  Ok (pit_counts_before + pit_counts_after).

(** [one_less_pit_stop_consumption(pit_counts_late, capacity_total, fuel_in_tank,
    laps_remain)] *)
Definition one_less_pit_stop_consumption
    (pit_counts_late capacity_total fuel_in_tank laps_remain : Q) : result Q :=
  if truthy laps_remain then
    let pit_counts := math_ceil pit_counts_late - 1 in
    py_div (pit_counts * capacity_total + fuel_in_tank) laps_remain
  else Ok 0.

(** ** module_fuel.py: the state of [Realtime.__update_data]

    The local variables that survive from one pass of the polling loop to the
    next are gathered in two records: [lap_state] holds what the lap tracking
    part of a tick reads and writes, [estimates] holds the projections.  The
    readings taken from the simulator at the start of a tick form a
    [telemetry] record. *)

(** [DELTA_ZERO = 0.0,0.0]: a tuple of two floats. *)
Definition DELTA_ZERO : row := [0; 0].

Definition gps : Type := (Q * Q * Q)%type.

(** [gps_last] starts as the list [[0,0,0]] and is a tuple afterwards; a list
    never equals a tuple. *)
Inductive seq_kind : Type := KList | KTuple.

Record telemetry : Type := {
  t_start : Q;              (* api.read.timing.start() *)
  t_current_laptime : Q;    (* api.read.timing.current_laptime() *)
  t_last_laptime : Q;       (* api.read.timing.last_laptime() *)
  t_remaining : Q;          (* api.read.session.remaining() *)
  t_fuel : Q;               (* api.read.vehicle.fuel() *)
  t_tank_capacity : Q;      (* api.read.vehicle.tank_capacity() *)
  t_in_garage : bool;       (* api.read.vehicle.in_garage() *)
  t_distance : Q;           (* api.read.lap.distance() *)
  t_position : gps;         (* position_x(), position_y(), position_z() *)
  t_total_laps : Q;         (* api.read.lap.total_laps() *)
  t_percent : Q;            (* api.read.lap.percent() *)
  t_maximum : Q;            (* api.read.lap.maximum() *)
  t_in_pits : bool;         (* api.read.vehicle.in_pits() *)
  t_lap_type : bool         (* api.read.session.lap_type() *)
}.

Record lap_state : Type := {
  recording : bool;
  validating : bool;
  delayed_save : bool;
  pit_lap : bool;
  delta_list_last : list row;
  delta_list_curr : list row;
  delta_list_temp : list row;
  used_last : Q;
  laptime_last : Q;
  amount_start : Q;
  amount_last : Q;
  used_curr : Q;
  used_last_raw : Q;
  last_lap_stime : Q;
  pos_last : Q;
  pos_estimate : Q
}.

Record estimates : Type := {
  delta_fuel : Q;
  amount_need : Q;
  amount_left : Q;
  used_est : Q;
  est_runlaps : Q;
  est_runmins : Q;
  est_empty : Q;
  est_pits_late : Q;
  est_pits_early : Q;
  used_est_less : Q;
  laps_left : Q;
  gps_last : seq_kind * gps
}.

(** The assignments made when [reset] is false (lines 78-107), given what
    [load_deltafuel] returned. *)
Definition reset_lap_state (loaded : list row * Q * Q) : lap_state :=
  let '(lastlist, used, laptime) := loaded in
  {| recording := false;
     validating := false;
     delayed_save := false;
     pit_lap := false;
     delta_list_last := lastlist;
     delta_list_curr := [DELTA_ZERO];
     delta_list_temp := [DELTA_ZERO];
     used_last := used;
     laptime_last := laptime;
     amount_start := 0;
     amount_last := 0;
     used_curr := 0;
     used_last_raw := used;
     last_lap_stime := -1;
     pos_last := 0;
     pos_estimate := 0 |}.

Definition reset_estimates : estimates :=
  {| delta_fuel := 0;
     amount_need := 0;
     amount_left := 0;
     used_est := 0;
     est_runlaps := 0;
     est_runmins := 0;
     est_empty := 0;
     est_pits_late := 0;
     est_pits_early := 0;
     used_est_less := 0;
     laps_left := 0;
     gps_last := (KList, (0, 0, 0)) |}.

(** *** Lap tracking, lines 124-176 *)

(** [pit_lap = bool(pit_lap + api.read.vehicle.in_pits())] *)
Definition read_pit_lap (s : lap_state) (in_pits : bool) : lap_state :=
  {| recording := recording s;
     validating := validating s;
     delayed_save := delayed_save s;
     pit_lap := pit_lap s || in_pits;
     delta_list_last := delta_list_last s;
     delta_list_curr := delta_list_curr s;
     delta_list_temp := delta_list_temp s;
     used_last := used_last s;
     laptime_last := laptime_last s;
     amount_start := amount_start s;
     amount_last := amount_last s;
     used_curr := used_curr s;
     used_last_raw := used_last_raw s;
     last_lap_stime := last_lap_stime s;
     pos_last := pos_last s;
     pos_estimate := pos_estimate s |}.

(** Realtime fuel consumption, lines 127-132. *)
Definition fuel_consumption (s : lap_state) (amount_curr : Q) : lap_state :=
  if Qltb (amount_last s) amount_curr then
    {| recording := recording s;
       validating := validating s;
       delayed_save := delayed_save s;
       pit_lap := pit_lap s;
       delta_list_last := delta_list_last s;
       delta_list_curr := delta_list_curr s;
       delta_list_temp := delta_list_temp s;
       used_last := used_last s;
       laptime_last := laptime_last s;
       amount_start := amount_curr;
       amount_last := amount_curr;
       used_curr := used_curr s;
       used_last_raw := used_last_raw s;
       last_lap_stime := last_lap_stime s;
       pos_last := pos_last s;
       pos_estimate := pos_estimate s |}
  else if Qltb amount_curr (amount_last s) then
    {| recording := recording s;
       validating := validating s;
       delayed_save := delayed_save s;
       pit_lap := pit_lap s;
       delta_list_last := delta_list_last s;
       delta_list_curr := delta_list_curr s;
       delta_list_temp := delta_list_temp s;
       used_last := used_last s;
       laptime_last := laptime_last s;
       amount_start := amount_start s;
       amount_last := amount_curr;
       used_curr := used_curr s + (amount_last s - amount_curr);
       used_last_raw := used_last_raw s;
       last_lap_stime := last_lap_stime s;
       pos_last := pos_last s;
       pos_estimate := pos_estimate s |}
  else s.

(** The test [lap_stime > last_lap_stime != -1] of line 135. *)
Definition new_lap (s : lap_state) (lap_stime : Q) : bool :=
  Qltb (last_lap_stime s) lap_stime && negb (Qeq_bool (last_lap_stime s) (-1)).

(** The test [len(delta_list_curr) > 1 and not pit_lap] of line 136. *)
Definition lap_recorded (s : lap_state) : bool :=
  (1 <? len (delta_list_curr s))%Z && negb (pit_lap s).

(** The end value appended at line 137. *)
Definition end_sample (s : lap_state) (lap_stime : Q) : row :=
  [round6 (pos_last s + 10); round6 (used_curr s); round6 (lap_stime - last_lap_stime s)].

(** Lap start & finish detection, lines 135-150. *)
Definition lap_detection (s : lap_state) (lap_stime laptime_curr pos_curr : Q)
    : lap_state :=
  if new_lap s lap_stime then
    {| recording := Qltb laptime_curr 1;
       validating := if lap_recorded s then true else validating s;
       delayed_save := delayed_save s;
       pit_lap := false;
       delta_list_last := delta_list_last s;
       delta_list_curr := [DELTA_ZERO];
       delta_list_temp :=
         if lap_recorded s then delta_list_curr s ++ [end_sample s lap_stime]
         else delta_list_temp s;
       used_last := used_last s;
       laptime_last := laptime_last s;
       amount_start := amount_start s;
       amount_last := amount_last s;
       used_curr := 0;
       used_last_raw := used_curr s;
       last_lap_stime := lap_stime;
       pos_last := pos_curr;
       pos_estimate := pos_estimate s |}
  else
    {| recording := recording s;
       validating := validating s;
       delayed_save := delayed_save s;
       pit_lap := pit_lap s;
       delta_list_last := delta_list_last s;
       delta_list_curr := delta_list_curr s;
       delta_list_temp := delta_list_temp s;
       used_last := used_last s;
       laptime_last := laptime_last s;
       amount_start := amount_start s;
       amount_last := amount_last s;
       used_curr := used_curr s;
       used_last_raw := used_last_raw s;
       last_lap_stime := lap_stime;
       pos_last := pos_last s;
       pos_estimate := pos_estimate s |}.

(** The test [0 < laptime_curr < 1 and pos_curr > 300] of line 154. *)
Definition stale_distance (laptime_curr pos_curr : Q) : bool :=
  Qltb 0 laptime_curr && Qltb laptime_curr 1 && Qltb 300 pos_curr.

(** Position distance check after a new lap begins, lines 154-155:
    [pos_last = pos_curr = 0].  The new value of [pos_curr] is returned too. *)
Definition distance_check (s : lap_state) (laptime_curr pos_curr : Q)
    : lap_state * Q :=
  if stale_distance laptime_curr pos_curr then
    ({| recording := recording s;
        validating := validating s;
        delayed_save := delayed_save s;
        pit_lap := pit_lap s;
        delta_list_last := delta_list_last s;
        delta_list_curr := delta_list_curr s;
        delta_list_temp := delta_list_temp s;
        used_last := used_last s;
        laptime_last := laptime_last s;
        amount_start := amount_start s;
        amount_last := amount_last s;
        used_curr := used_curr s;
        used_last_raw := used_last_raw s;
        last_lap_stime := last_lap_stime s;
        pos_last := 0;
        pos_estimate := pos_estimate s |}, 0)
  else (s, pos_curr).

(** The test [0 <= pos_curr != pos_last] of line 158 and the test
    [recording and pos_curr > pos_last] of line 159. *)
Definition position_changed (s : lap_state) (pos_curr : Q) : bool :=
  Qle_bool 0 pos_curr && negb (Qeq_bool pos_curr (pos_last s)).

Definition position_further (s : lap_state) (pos_curr : Q) : bool :=
  recording s && Qltb (pos_last s) pos_curr.

(** Update if position value is different & positive, lines 158-163. *)
Definition record_position (s : lap_state) (pos_curr : Q) : lap_state :=
  if position_changed s pos_curr then
    {| recording := recording s;
       validating := validating s;
       delayed_save := delayed_save s;
       pit_lap := pit_lap s;
       delta_list_last := delta_list_last s;
       delta_list_curr :=
         if position_further s pos_curr
         then delta_list_curr s ++ [[round6 pos_curr; round6 (used_curr s)]]
         else delta_list_curr s;
       delta_list_temp := delta_list_temp s;
       used_last := used_last s;
       laptime_last := laptime_last s;
       amount_start := amount_start s;
       amount_last := amount_last s;
       used_curr := used_curr s;
       used_last_raw := used_last_raw s;
       last_lap_stime := last_lap_stime s;
       pos_last := pos_curr;
       pos_estimate := pos_curr |}
  else s.

(** The assignments of lines 169-174: the staged lap becomes the reference. *)
Definition commit_lap (s : lap_state) (laptime_valid : Q) : lap_state :=
  {| recording := recording s;
     validating := false;
     delayed_save := true;
     pit_lap := pit_lap s;
     delta_list_last := delta_list_temp s;
     delta_list_curr := delta_list_curr s;
     delta_list_temp := [DELTA_ZERO];
     used_last := used_last_raw s;
     laptime_last := laptime_valid;
     amount_start := amount_start s;
     amount_last := amount_last s;
     used_curr := used_curr s;
     used_last_raw := used_last_raw s;
     last_lap_stime := last_lap_stime s;
     pos_last := pos_last s;
     pos_estimate := pos_estimate s |}.

(** The assignment of line 176: [validating = False]. *)
Definition switch_off (s : lap_state) : lap_state :=
  {| recording := recording s;
     validating := false;
     delayed_save := delayed_save s;
     pit_lap := pit_lap s;
     delta_list_last := delta_list_last s;
     delta_list_curr := delta_list_curr s;
     delta_list_temp := delta_list_temp s;
     used_last := used_last s;
     laptime_last := laptime_last s;
     amount_start := amount_start s;
     amount_last := amount_last s;
     used_curr := used_curr s;
     used_last_raw := used_last_raw s;
     last_lap_stime := last_lap_stime s;
     pos_last := pos_last s;
     pos_estimate := pos_estimate s |}.

(** Validating after passing the finish line, lines 166-176. *)
Definition validation (s : lap_state) (laptime_curr laptime_valid : Q) : lap_state :=
  if validating s then
    if Qltb (2 # 10) laptime_curr && Qle_bool laptime_curr 3 then
      if Qltb 0 laptime_valid then commit_lap s laptime_valid else s
    else if Qltb 3 laptime_curr && Qltb laptime_curr 5 then switch_off s
    else s
  else s.

(** [laptime_curr = max(api.read.timing.current_laptime(), 0)] *)
Definition laptime_curr_of (tel : telemetry) : Q := py_max (t_current_laptime tel) 0.

(** Lines 124-176 in order. *)
Definition track_lap (s : lap_state) (tel : telemetry) : lap_state :=
  let laptime_curr := laptime_curr_of tel in
  let s1 := read_pit_lap s (t_in_pits tel) in
  let s2 := fuel_consumption s1 (t_fuel tel) in
  let s3 := lap_detection s2 (t_start tel) laptime_curr (t_distance tel) in
  let '(s4, pos_curr) := distance_check s3 laptime_curr (t_distance tel) in
  let s5 := record_position s4 pos_curr in
  validation s5 laptime_curr (t_last_laptime tel).

(** *** Delta and projections, lines 179-229 *)

Section Estimation.

(** [calc.distance] is [math.dist], the Euclidean distance; its value is not
    rational in general, so it is a parameter of the tick. *)
Variable math_dist : gps -> gps -> Q.

(** The test [gps_last != gps_curr] of line 179. *)
Definition gps_differs (last : seq_kind * gps) (curr : gps) : bool :=
  match last with
  | (KList, _) => true
  | (KTuple, (x, y, z)) =>
      let '(a, b, c) := curr in
      negb (Qeq_bool x a && Qeq_bool y b && Qeq_bool z c)
  end.

(** Calc delta, lines 179-187. *)
Definition calc_delta (s : lap_state) (e : estimates) (tel : telemetry)
    : result (lap_state * estimates) :=
  if gps_differs (gps_last e) (t_position tel) then
    let pos_est := pos_estimate s + math_dist (snd (gps_last e)) (t_position tel) in
    d <- delta_telemetry pos_est (used_curr s) (map Tup (delta_list_last s))
           (Qltb (3 # 10) (laptime_curr_of tel) && negb (t_in_garage tel)) 0 ;;
    Ok ({| recording := recording s;
           validating := validating s;
           delayed_save := delayed_save s;
           pit_lap := pit_lap s;
           delta_list_last := delta_list_last s;
           delta_list_curr := delta_list_curr s;
           delta_list_temp := delta_list_temp s;
           used_last := used_last s;
           laptime_last := laptime_last s;
           amount_start := amount_start s;
           amount_last := amount_last s;
           used_curr := used_curr s;
           used_last_raw := used_last_raw s;
           last_lap_stime := last_lap_stime s;
           pos_last := pos_last s;
           pos_estimate := pos_est |},
        {| delta_fuel := d;
           amount_need := amount_need e;
           amount_left := amount_left e;
           used_est := used_est e;
           est_runlaps := est_runlaps e;
           est_runmins := est_runmins e;
           est_empty := est_empty e;
           est_pits_late := est_pits_late e;
           est_pits_early := est_pits_early e;
           used_est_less := used_est_less e;
           laps_left := laps_left e;
           gps_last := (KTuple, t_position tel) |})
  else Ok (s, e).

(** [capacity = max(api.read.vehicle.tank_capacity(), 1)] *)
Definition capacity_of (tel : telemetry) : Q := py_max (t_tank_capacity tel) 1.

(** Lines 194-207: remaining laps and needed fuel by race format. *)
Definition remaining (s : lap_state) (e : estimates) (tel : telemetry)
    (used_est' : Q) : result (Q * Q) :=
  if t_lap_type tel then
    let full_laps_left := lap_type_full_laps_remain (t_maximum tel) (t_total_laps tel) in
    let laps_left' := lap_type_laps_remain full_laps_left (t_percent tel) in
    Ok (laps_left', total_fuel_needed laps_left' used_est' (t_fuel tel))
  else if Qltb 0 (laptime_last s) then
    full_laps_left <-
      time_type_full_laps_remain (laptime_curr_of tel) (laptime_last s) (t_remaining tel) ;;
    let laps_left' :=
      time_type_laps_remain full_laps_left (t_percent tel) (laps_left e)
        (Qltb (laptime_curr_of tel) (2 # 10)) in
    Ok (laps_left', total_fuel_needed laps_left' used_est' (t_fuel tel))
  else Ok (laps_left e, amount_need e).

(** Lines 190-229. *)
Definition project (s : lap_state) (e : estimates) (tel : telemetry)
    : result estimates :=
  let amount_curr := t_fuel tel in
  let capacity := capacity_of tel in
  let used_est' :=
    end_lap_consumption (used_last s) (delta_fuel e)
      (negb (pit_lap s) && Qltb 0 (t_total_laps tel)) in
  rem <- remaining s e tel used_est' ;;
  let laps_left' := fst rem in
  let amount_need' := snd rem in
  amount_left' <- end_stint_fuel amount_curr (used_curr s) used_est' ;;
  est_runlaps' <- end_stint_laps amount_curr used_est' ;;
  est_runmins' <- end_stint_minutes est_runlaps' (laptime_last s) ;;
  let est_empty' :=
    end_lap_empty_capacity capacity (amount_curr + used_curr s)
      (used_last s + delta_fuel e) in
  est_pits_late' <- end_stint_pit_counts amount_need' (capacity - amount_left') ;;
  est_pits_early' <-
    end_lap_pit_counts amount_need' est_empty' (capacity - amount_left') ;;
  used_est_less' <-
    one_less_pit_stop_consumption est_pits_late' capacity amount_curr laps_left' ;;
  Ok {| delta_fuel := delta_fuel e;
        amount_need := amount_need';
        amount_left := amount_left';
        used_est := used_est';
        est_runlaps := est_runlaps';
        est_runmins := est_runmins';
        est_empty := est_empty';
        est_pits_late := est_pits_late';
        est_pits_early := est_pits_early';
        used_est_less := used_est_less';
        laps_left := laps_left';
        gps_last := gps_last e |}.

(** One pass of the loop body while [api.state] holds, after the reset block:
    lines 109-229.  The copy of the results into [minfo.fuel] (lines 231-256)
    changes none of these variables and is left out.  An exception ends the
    thread. *)
Definition tick (st : lap_state * estimates) (tel : telemetry)
    : result (lap_state * estimates) :=
  let s := track_lap (fst st) tel in
  se <- calc_delta s (snd st) tel ;;
  e' <- project (fst se) (snd se) tel ;;
  Ok (fst se, e').

(** A run of ticks over successive readings. *)
Fixpoint run (st : lap_state * estimates) (tels : list telemetry)
    : result (lap_state * estimates) :=
  match tels with
  | [] => Ok st
  | tel :: rest => st' <- tick st tel ;; run st' rest
  end.

End Estimation.

(** The lap tracking part alone over successive readings. *)
Definition track_laps (s : lap_state) (tels : list telemetry) : lap_state :=
  fold_left track_lap tels s.

(** ** module_fuel.py: the curve store

    A curve file is read by [csv.reader(csvfile, quoting=csv.QUOTE_NONNUMERIC)],
    which turns every unquoted field into a float.  The store keeps, for each
    combo identifier, the rows of the file as the reader meets them: each
    field is text that [float] turns into a finite number, text that it turns
    into an infinity or a NaN, text that it rejects, or text longer than the
    field size limit of the reader, at which the reader raises [csv.Error]
    before any conversion.  A path holds no file, a file that can be read,
    or a file that the process may write but not read, for which [open]
    raises [PermissionError].  Files are named under [PATH_FUEL].  Quoted
    fields and other failures of the file system are outside the model;
    writing always succeeds and keeps the permissions of a file that
    exists. *)

Inductive cell : Type :=
| Numeral (q : Q)   (* text of a finite float *)
| NonFinite         (* inf, nan and the like *)
| Garbage           (* other text: float() raises ValueError *)
| Oversized.        (* a field beyond the field size limit: csv.Error *)

Inductive fval : Type :=
| Fin (q : Q)
| NonFin.

Definition csv_file : Type := list (list cell).

Inductive node : Type :=
| Readable (f : csv_file)
| WriteOnly.

Definition store : Type := string -> option node.

(** The exceptions of the two failures that the [except] clause of
    [load_deltafuel] does not name. *)
Definition PermissionError : exn := OtherError "PermissionError".
Definition csv_Error : exn := OtherError "csv.Error".

(** [open(path, "w", newline="", encoding="utf-8")] followed by the writing
    of the rows [f]. *)
Definition write_file (fs : store) (name : string) (f : csv_file) : store :=
  fun n =>
    if String.eqb n name then
      match fs name with
      | Some WriteOnly => Some WriteOnly
      | _ => Some (Readable f)
      end
    else fs n.

(** [open(path, newline="", encoding="utf-8")] for reading. *)
Definition open_read (fs : store) (name : string) : result csv_file :=
  match fs name with
  | Some (Readable f) => Ok f
  | Some WriteOnly => Raise PermissionError
  | None => Raise FileNotFoundError
  end.

(** [list(csv.reader(csvfile, quoting=csv.QUOTE_NONNUMERIC))] *)
Definition read_cell (c : cell) : result fval :=
  match c with
  | Numeral q => Ok (Fin q)
  | NonFinite => Ok NonFin
  | Garbage => Raise ValueError
  | Oversized => Raise csv_Error
  end.

Fixpoint traverse {A B : Type} (f : A -> result B) (l : list A) : result (list B) :=
  match l with
  | [] => Ok []
  | a :: rest => b <- f a ;; bs <- traverse f rest ;; Ok (b :: bs)
  end.

Definition csv_reader (f : csv_file) : result (list (list fval)) :=
  traverse (traverse read_cell) f.

(** [csv.writer(csvfile).writerows(listname)] for rows of floats. *)
Definition csv_writerows (listname : list row) : csv_file :=
  map (map Numeral) listname.

(** The rows of a row list that hold finite numbers only. *)
Fixpoint finite_row (r : list fval) : option row :=
  match r with
  | [] => Some []
  | Fin q :: rest => option_map (cons q) (finite_row rest)
  | NonFin :: _ => None
  end.

(** Modelled from the spec: [val.delta_list] of [validator.py], which is not
    among the sources.  The spec (section 4.2) says: validation drops rows that
    break the non-decreasing-distance invariant or contain non-finite numbers.
    Rows are taken in order; a row with a non-finite field is dropped; the
    distance of a row is its first field, and reading it from a row without
    fields raises [IndexError] as [row[0]] does; a row whose distance is below
    the distance of the last row kept is dropped. *)
Fixpoint delta_list_from (prev : option Q) (rows : list (list fval))
    : result (list row) :=
  match rows with
  | [] => Ok []
  | r :: rest =>
      match finite_row r with
      | None => delta_list_from prev rest
      | Some fr =>
          d <- py_getitem fr 0 ;;
          let keep := match prev with
                      | None => true
                      | Some p => Qle_bool p d
                      end in
          if keep then
            kept <- delta_list_from (Some d) rest ;; Ok (fr :: kept)
          else delta_list_from prev rest
      end
  end.

Definition delta_list (rows : list (list fval)) : result (list row) :=
  delta_list_from None rows.

(** The exceptions named by the [except] clause of [load_deltafuel]. *)
Definition caught (e : exn) : bool :=
  match e with
  | FileNotFoundError | IndexError | ValueError | TypeError => true
  | _ => false
  end.

Definition try_except {A : Type} (body : result A) (handler : A) : result A :=
  match body with
  | Ok a => Ok a
  | Raise e => if caught e then Ok handler else Raise e
  end.

(** [save_deltafuel(combo, listname)] *)
Definition fuel_path (combo : string) : string := String.append combo ".fuel"%string.

Definition save_deltafuel (fs : store) (combo : string) (listname : list row) : store :=
  if (10 <=? len listname)%Z
  then write_file fs (fuel_path combo) (csv_writerows listname)
  else fs.

Section CurveStore.

(** [val.delta_list], a parameter of [load_deltafuel]. *)
Variable val_delta_list : list (list fval) -> result (list row).

(** The [try] block of [load_deltafuel], lines 272-282. *)
Definition load_body (fs : store) (combo : string)
    : result (store * (list row * Q * Q)) :=
  csvfile <- open_read fs (fuel_path combo) ;;
  temp_list <- csv_reader csvfile ;;
  let temp_list_size := len temp_list in
  lastlist <- val_delta_list temp_list ;;
  r1 <- py_getitem lastlist (-1) ;;
  used <- py_getitem r1 1 ;;
  r2 <- py_getitem lastlist (-1) ;;
  laptime <- py_getitem r2 2 ;;
  let fs' :=
    if negb (temp_list_size =? len lastlist)%Z
    then save_deltafuel fs combo lastlist
    else fs in
  Ok (fs', (lastlist, used, laptime)).

(** What the [except] block assigns, lines 285-287. *)
Definition default_curve : list row * Q * Q := ([[99999; 0; 0]], 0, 0).

(** [load_deltafuel(combo)]: the store after the call and the triple returned. *)
Definition load_deltafuel (fs : store) (combo : string)
    : result (store * (list row * Q * Q)) :=
  try_except (load_body fs combo) (fs, default_curve).

End CurveStore.

(** The branch taken when [api.state] turns false after a session, lines
    259-263: the reference curve is saved when [delayed_save] is set. *)
Definition leave_session (fs : store) (combo_id : string) (s : lap_state) : store :=
  if delayed_save s then save_deltafuel fs combo_id (delta_list_last s) else fs.

(** What the caller of [load_deltafuel] is handed: the triple, without the
    store. *)
Definition returned {A B : Type} (r : result (A * B)) : result B :=
  x <- r ;; Ok (snd x).

(** ** formatter.py *)

(** The characters of the class that [strip_invalid_char] removes, by code:
    backslash (92), slash (47), colon (58), star (42), question mark (63),
    double quote (34), angle brackets (60, 62) and bar (124). *)
Definition invalid_char (c : Ascii.ascii) : bool :=
  match Ascii.nat_of_ascii c with
  | 92%nat | 47%nat | 58%nat | 42%nat | 63%nat | 34%nat | 60%nat | 62%nat
  | 124%nat => true
  | _ => false
  end.

(** [strip_invalid_char(name)]: every character of the class is removed.
    A name is the sequence of the bytes of its UTF-8 form; the class holds
    ASCII characters only, so no byte of a longer character is in it. *)
Fixpoint strip_invalid_char (name : string) : string :=
  match name with
  | EmptyString => EmptyString
  | String c rest =>
      if invalid_char c then strip_invalid_char rest
      else String c (strip_invalid_char rest)
  end.


(** ** The interpolation routines over binary64

    The same functions of [calculation.py], transcribed over the kernel's
    IEEE 754 binary64 numbers, with round-to-nearest-even arithmetic as in
    Python.  They serve to evaluate the code on concrete floats.  The list
    searched holds rows (tuples), and [column] is always given, as in the one
    call that [delta_telemetry] makes. *)

Module Binary64.

Import PrimFloat.

Definition frow : Type := list float.

Definition truthy (x : float) : bool := negb (PrimFloat.eqb x zero).

Definition py_div (a b : float) : result float :=
  if PrimFloat.eqb b zero then Raise ZeroDivisionError else Ok (PrimFloat.div a b).

(** [linear_interp(x, x1, y1, x2, y2)] *)
Definition linear_interp (x x1 y1 x2 y2 : float) : result float :=
  let x_diff := PrimFloat.sub x2 x1 in
  if truthy x_diff then
    q <- py_div (PrimFloat.mul (PrimFloat.sub x x1) (PrimFloat.sub y2 y1)) x_diff ;;
    Ok (PrimFloat.add y1 q)
  else Ok y1.

(** [search_column_key(key, column)] *)
Definition search_column_key (key : frow) (column : Z) : result float :=
  py_getitem key column.

Definition probe (data : list frow) (target : float) (center column : Z)
    : result probe_outcome :=
  e <- py_getitem data center ;;
  k <- search_column_key e column ;;
  if PrimFloat.eqb target k then Ok Found
  else if PrimFloat.ltb k target then Ok GoHigher else Ok GoLower.

(** [binary_search_hi(data, target, start, end, column)] *)
Equations? binary_search_hi (data : list frow) (target : float) (start end_ : Z)
    (column : Z) : result Z by wf (Z.to_nat (end_ - start)) lt :=
  binary_search_hi data target start end_ column with Z_lt_dec start end_ => {
    | right _ => Ok end_
    | left _ with probe data target ((start + end_) / 2) column => {
        | Raise e => Raise e
        | Ok Found => Ok ((start + end_) / 2)%Z
        | Ok GoHigher =>
            binary_search_hi data target ((start + end_) / 2 + 1) end_ column
        | Ok GoLower =>
            binary_search_hi data target start ((start + end_) / 2) column } }.
Proof.
  all: assert (start <= (start + end_) / 2 < end_)%Z
    by (split; [apply Z.div_le_lower_bound | apply Z.div_lt_upper_bound]; lia);
    lia.
Qed.

(** [delta_telemetry(position, live_data, delta_list, condition=True, offset=0)] *)
Definition delta_telemetry (position live_data : float) (delta_list : list frow)
    (condition : bool) (offset : float) : result float :=
  index_higher <- binary_search_hi delta_list position 0 (len delta_list - 1) 0%Z ;;
  if (0 <? index_higher)%Z && condition then
    let index_lower := (index_higher - 1)%Z in
    rl0 <- py_getitem delta_list index_lower ;;
    x1 <- py_getitem rl0 0 ;;
    rl1 <- py_getitem delta_list index_lower ;;
    y1 <- py_getitem rl1 1 ;;
    rh0 <- py_getitem delta_list index_higher ;;
    x2 <- py_getitem rh0 0 ;;
    rh1 <- py_getitem delta_list index_higher ;;
    y2 <- py_getitem rh1 1 ;;
    li <- linear_interp position x1 y1 x2 y2 ;;
    Ok (PrimFloat.sub (PrimFloat.add live_data offset) li)
  else Ok zero.

(** [total_fuel_needed(laps_remain, consumption, fuel_in_tank)] *)
Definition total_fuel_needed (laps_remain consumption fuel_in_tank : float) : float :=
  PrimFloat.sub (PrimFloat.mul laps_remain consumption) fuel_in_tank.

(** Two results hold the same float (IEEE equality). *)
Definition same (r1 r2 : result float) : bool :=
  match r1, r2 with
  | Ok a, Ok b => PrimFloat.eqb a b
  | _, _ => false
  end.

End Binary64.

(** ** calculation.py: the other routines *)

(** [sym_range(value, rng)] *)
Definition sym_range (value rng : Q) : Q := py_min (py_max value (- rng)) rng.

(** [zero_one_range(value)] *)
Definition zero_one_range (value : Q) : Q := py_min (py_max value 0) 1.

(** [rot2radius(speed, angular_speed)] *)
Definition rot2radius (speed angular_speed : Q) : result Q :=
  if truthy angular_speed then
    q <- py_div speed angular_speed ;; Ok (Qabs q)
  else Ok 0.

(** [gforce(value, g_accel)] *)
Definition gforce (value g_accel : Q) : result Q :=
  if truthy g_accel then py_div value g_accel else Ok 0.

(** [percentage_distance(dist, length, max_range=1, min_range=0)] *)
Definition percentage_distance (dist length max_range min_range : Q) : result Q :=
  if truthy length then
    q <- py_div dist length ;;
    Ok (py_min (py_max q min_range) max_range)
  else Ok 0.

(** [circular_relative_distance(circle_length, plr_dist, opt_dist)] *)
Definition circular_relative_distance (circle_length plr_dist opt_dist : Q) : Q :=
  let rel_dist := opt_dist - plr_dist in
  if Qltb (circle_length * (1 # 2)) (Qabs rel_dist) then
    if Qltb plr_dist opt_dist then rel_dist - circle_length
    else if Qltb opt_dist plr_dist then rel_dist + circle_length
    else rel_dist
  else rel_dist.

(** [lap_difference(opt_laps, plr_laps, lap_ahead=1, lap_behind=1)] *)
Definition lap_difference (opt_laps plr_laps lap_ahead lap_behind : Q) : Q :=
  let lap_diff := opt_laps - plr_laps in
  if Qltb lap_ahead lap_diff || Qltb lap_diff (- lap_behind) then lap_diff
  else 0.

(** [relative_time_gap(rel_dist, plr_speed, opt_speed)] *)
Definition relative_time_gap (rel_dist plr_speed opt_speed : Q) : result Q :=
  let speed := py_max plr_speed opt_speed in
  if Qltb 1 speed then
    q <- py_div rel_dist speed ;; Ok (Qabs q)
  else Ok 0.

(** The test [key < nearest] of [linear_search_hi], where [nearest] starts
    as [float("inf")], written [None]. *)
Definition below_nearest (key : Q) (nearest : option Q) : bool :=
  match nearest with
  | None => true
  | Some n => Qltb key n
  end.

(** The [for] loop of [linear_search_hi] from position [index] on. *)
Fixpoint linear_search_hi_loop (rows : list pyval) (index : Z) (target : Q)
    (column : option Z) (nearest : option Q) (end_ : Z) : result Z :=
  match rows with
  | [] => Ok end_
  | data_row :: rest =>
      k <- search_column_key data_row column ;;
      match k with
      | Tup _ => Raise TypeError
      | Num key =>
          if Qle_bool target key && below_nearest key nearest
          then linear_search_hi_loop rest (index + 1) target column (Some key) index
          else linear_search_hi_loop rest (index + 1) target column nearest end_
      end
  end.

(** [linear_search_hi(data, target, column=None)] *)
Definition linear_search_hi (data : list pyval) (target : Q) (column : option Z)
    : result Z :=
  linear_search_hi_loop data 0 target column None (len data - 1).

(** [session_best_laptime(data_list, column, laptime=99999)] *)
Fixpoint session_best_laptime (data_list : list row) (column : Z) (laptime : Q)
    : result Q :=
  match data_list with
  | [] => Ok laptime
  | data :: rest =>
      v <- py_getitem data column ;;
      if Qltb 0 v && Qltb v laptime
      then session_best_laptime rest column v
      else session_best_laptime rest column laptime
  end.

(** [image_size_adaption(org_width, org_height, target_width, target_height)] *)
Definition image_size_adaption (org_width org_height target_width target_height : Q)
    : result bool :=
  q <- py_div (org_width * target_height) (py_max org_height 1) ;;
  Ok (Qltb target_width q).

Definition Qsum (l : list Q) : Q := fold_right Qplus 0 l.

(** [int(x)] of a float: the integer towards zero. *)
Definition py_int (x : Q) : Z := if Qle_bool 0 x then Qfloor x else Qceiling x.

(** [slip_ratio(w_rot, w_radius, v_speed)] *)
Definition slip_ratio (w_rot w_radius v_speed : Q) : result Q :=
  if negb (py_int v_speed =? 0)%Z then
    py_div (Qabs w_rot * w_radius - v_speed) v_speed
  else Ok 0.

(** [force_ratio(value1, value2)] *)
Definition force_ratio (value1 value2 : Q) : result Q :=
  if negb (py_int value2 =? 0)%Z then
    q <- py_div (100 * value1) value2 ;; Ok (Qabs q)
  else Ok 0.

(** [min(data)] and [max(data)] of a list: [ValueError] on an empty one; the
    first of equal elements is kept. *)
Definition py_min_list (data : list Q) : result Q :=
  match data with
  | [] => Raise ValueError
  | x :: rest => Ok (fold_left py_min rest x)
  end.

Definition py_max_list (data : list Q) : result Q :=
  match data with
  | [] => Raise ValueError
  | x :: rest => Ok (fold_left py_max rest x)
  end.

(** [mean(data)], that is [statistics.fmean(data)]: the sum over the count;
    [StatisticsError] on an empty list. *)
Definition mean (data : list Q) : result Q :=
  match data with
  | [] => Raise (OtherError "StatisticsError")
  | _ => Ok (Qsum data / inject_Z (len data))
  end.

(** [min_vs_avg(data)] *)
Definition min_vs_avg (data : list Q) : result Q :=
  lo <- py_min_list data ;; avg <- mean data ;; Ok (Qabs (lo - avg)).

(** [max_vs_avg(data)] *)
Definition max_vs_avg (data : list Q) : result Q :=
  hi <- py_max_list data ;; avg <- mean data ;; Ok (Qabs (hi - avg)).

(** [max_vs_min(data)] *)
Definition max_vs_min (data : list Q) : result Q :=
  hi <- py_max_list data ;; lo <- py_min_list data ;; Ok (hi - lo).

(** The assignment of [x_range, y_range] from [zip] over the unpacked
    [coords], a sequence of points: without points there is nothing to
    assign, a [ValueError]. *)
Definition unzip_coords (coords : list (Q * Q)) : result (list Q * list Q) :=
  match coords with
  | [] => Raise ValueError
  | _ => Ok (map fst coords, map snd coords)
  end.

(** [zoom_map(coords, map_scale, margin=0)]: the scaled points, the map size
    and the map offset. *)
Definition zoom_map (coords : list (Q * Q)) (map_scale margin : Q)
    : result (list (Q * Q) * (Q * Q) * (Q * Q)) :=
  ranges <- unzip_coords coords ;;
  let x_range := fst ranges in
  let y_range := snd ranges in
  x_min <- py_min_list x_range ;;
  y_min <- py_min_list y_range ;;
  let map_offset := (x_min * map_scale - margin, y_min * map_scale - margin) in
  let x_range_scaled := map (fun x_pos => x_pos * map_scale - fst map_offset) x_range in
  let y_range_scaled := map (fun y_pos => y_pos * map_scale - snd map_offset) y_range in
  x_max <- py_max_list x_range_scaled ;;
  y_max <- py_max_list y_range_scaled ;;
  let map_size := (x_max + margin, y_max + margin) in
  Ok (combine x_range_scaled y_range_scaled, map_size, map_offset).

(** [scale_map(coords, area_size, margin=0)]: the scaled points, the map
    range, the map scale and the map offset. *)
Definition scale_map (coords : list (Q * Q)) (area_size margin : Q)
    : result (list (Q * Q) * (Q * Q * Q * Q) * Q * (Q * Q)) :=
  ranges <- unzip_coords coords ;;
  let x_range := fst ranges in
  let y_range := snd ranges in
  x_min <- py_min_list x_range ;;
  x_max <- py_max_list x_range ;;
  y_min <- py_min_list y_range ;;
  y_max <- py_max_list y_range ;;
  let map_range := (x_min, x_max, y_min, y_max) in
  let map_size := (x_max - x_min, y_max - y_min) in
  map_scale <- py_div (area_size - margin * 2) (py_max (fst map_size) (snd map_size)) ;;
  let map_offset :=
    if Qltb (snd map_size) (fst map_size)
    then (margin, (area_size - snd map_size * map_scale) * (5 # 10))
    else ((area_size - fst map_size * map_scale) * (5 # 10), margin) in
  let x_range_scaled :=
    map (fun x_pos => (x_pos - x_min) * map_scale + fst map_offset) x_range in
  let y_range_scaled :=
    map (fun y_pos => (y_pos - y_min) * map_scale + snd map_offset) y_range in
  Ok (combine x_range_scaled y_range_scaled, map_range, map_scale, map_offset).

(** A map of one axis that keeps the order of the coordinates. *)
Definition monotone (f : Q -> Q) : Prop := forall x y, x <= y -> f x <= f y.

(** The points are the images of the coordinates under one map for each
    axis, and both maps keep the order. *)
Definition keeps_order (coords points : list (Q * Q)) : Prop :=
  exists fx fy,
    points = map (fun c => (fx (fst c), fy (snd c))) coords
    /\ monotone fx /\ monotone fy.

(** All the points are one point. *)
Definition coincide (coords : list (Q * Q)) : Prop :=
  forall p q, In p coords -> In q coords -> fst p == fst q /\ snd p == snd q.

(** ** Specification side: what the search and the interpolation should return *)

(** The keys of [data] under [column], when every element has one. *)
Definition has_keys (column : option Z) (data : list pyval) (ks : list Q) : Prop :=
  Forall2 (fun e k => search_column_key e column = Ok (Num k)) data ks.

Definition key_at (ks : list Q) (i : Z) : Q := nth (Z.to_nat i) ks 0.

(** Index of the first key that is [>= target], if there is one. *)
Fixpoint first_ge_from (i : Z) (ks : list Q) (target : Q) : option Z :=
  match ks with
  | [] => None
  | k :: rest =>
      if Qle_bool target k then Some i else first_ge_from (i + 1) rest target
  end.

Definition first_ge (ks : list Q) (target : Q) : option Z := first_ge_from 0 ks target.

(** The distance and the fuel used of a curve row, its first two fields. *)
Definition distance_of (r : row) : Q := nth 0 r 0.
Definition fuel_used_of (r : row) : Q := nth 1 r 0.

Definition distances (curve : list row) : list Q := map distance_of curve.

(** A row that has at least its distance and fuel fields. *)
Definition wide_row (r : row) : Prop := (2 <= length r)%nat.

(** Linear interpolation as the spec words it: the value at [x] of the line
    through [(x1, y1)] and [(x2, y2)], and [y1] when [x1 = x2]. *)
Definition interpolate (x x1 y1 x2 y2 : Q) : Q :=
  if Qeq_bool x1 x2 then y1
  else y1 + (y2 - y1) * ((x - x1) / (x2 - x1)).

(** [deltaTelemetry] as the spec words it, for the index [idx_high] found by
    the search. *)
Definition delta_telemetry_spec (position live_usage : Q) (curve : list row)
    (condition : bool) (offset : Q) (idx_high : Z) : Q :=
  if (0 <? idx_high)%Z && condition then
    let lo := nth (Z.to_nat (idx_high - 1)) curve [] in
    let hi := nth (Z.to_nat idx_high) curve [] in
    live_usage + offset
      - interpolate position (distance_of lo) (fuel_used_of lo)
                             (distance_of hi) (fuel_used_of hi)
  else 0.

(** ** Specification side: ordered keys *)

Definition ascending (ks : list Q) : Prop :=
  forall i j : Z, (0 <= i)%Z -> (i <= j)%Z -> (j < len ks)%Z ->
    key_at ks i <= key_at ks j.

Definition strictly_ascending (ks : list Q) : Prop :=
  forall i j : Z, (0 <= i)%Z -> (i < j)%Z -> (j < len ks)%Z ->
    key_at ks i < key_at ks j.

(** What the loop establishes between [start] and [end_]: the index returned
    either holds the target, or everything before it (from [start]) is below
    the target and, unless it is [end_] itself, its key is above the target. *)
Definition search_post (ks : list Q) (target : Q) (start end_ r : Z) : Prop :=
  (start <= r <= end_)%Z
  /\ (key_at ks r == target
      \/ ((forall j, (start <= j < r)%Z -> key_at ks j < target)
          /\ ((r < end_)%Z -> target < key_at ks r))).

Fixpoint ascendingb (l : list Q) : bool :=
  match l with
  | [] => true
  | a :: rest =>
      match rest with
      | [] => true
      | b :: _ => Qle_bool a b && ascendingb rest
      end
  end.

(** A key passes the test of [linear_search_hi] against [nearest]. *)
Definition qualifies (target : Q) (nearest : option Q) (k : Q) : Prop :=
  target <= k /\ match nearest with None => True | Some n => k < n end.

(** [r] is the index of the smallest key that is [>= target], and the first
    index holding that key. *)
Definition nearest_hi (ks : list Q) (target : Q) (r : Z) : Prop :=
  (0 <= r < len ks)%Z
  /\ target <= key_at ks r
  /\ (forall j, (0 <= j < len ks)%Z -> target <= key_at ks j ->
        key_at ks r <= key_at ks j)
  /\ (forall j, (0 <= j < r)%Z -> target <= key_at ks j ->
        key_at ks r < key_at ks j).

(** The column values of a list of rows, when every row has the column. *)
Definition column_values (column : Z) (data_list : list row) (vs : list Q) : Prop :=
  Forall2 (fun data v => py_getitem data column = Ok v) data_list vs.

(** ** Specification side: the curves kept by the tick *)

(** Curves hold the same numbers. *)
Definition curve_eq (c1 c2 : list row) : Prop := Forall2 (Forall2 Qeq) c1 c2.

Definition sorted_curve (c : list row) : Prop := Sorted Qle (distances c).

Definition sentinel_first (c : list row) : Prop := exists rest, c = DELTA_ZERO :: rest.

Definition below (c : list row) (p : Q) : Prop :=
  Forall (fun d => d <= p) (distances c).

(** The three curves are ordered, the curve in progress and the staged curve
    start with [DELTA_ZERO], and every distance recorded in the current lap is
    at most the last checked position (rounded). *)
Record curves_ok (s : lap_state) : Prop := {
  curr_sorted : sorted_curve (delta_list_curr s);
  temp_sorted : sorted_curve (delta_list_temp s);
  last_sorted : sorted_curve (delta_list_last s);
  curr_sentinel : sentinel_first (delta_list_curr s);
  temp_sentinel : sentinel_first (delta_list_temp s);
  curr_below :
    delta_list_curr s = [DELTA_ZERO]
    \/ (0 <= pos_last s /\ below (delta_list_curr s) (round6 (pos_last s)))
}.

(** What holds of the first rows whatever the readings are: the curve in
    progress and the staged curve start with [DELTA_ZERO]; the reference
    curve is the curve [loaded] or starts with [DELTA_ZERO] too. *)
Definition sentinels (loaded : list row) (s : lap_state) : Prop :=
  sentinel_first (delta_list_curr s)
  /\ sentinel_first (delta_list_temp s)
  /\ (delta_list_last s = loaded \/ sentinel_first (delta_list_last s)).

(** A reading that does not take the recorder backwards: it starts a new lap,
    or nothing was recorded in this lap yet, or the distance is negative (and
    ignored), or the distance is kept as read and is not behind the last
    checked position. *)
Definition forwardb (s : lap_state) (tel : telemetry) : bool :=
  new_lap s (t_start tel)
  || (len (delta_list_curr s) =? 1)%Z
  || Qltb (t_distance tel) 0
  || (negb (stale_distance (laptime_curr_of tel) (t_distance tel))
      && Qle_bool (pos_last s) (t_distance tel)).

Definition forward (s : lap_state) (tel : telemetry) : Prop := forwardb s tel = true.

Fixpoint forward_runb (s : lap_state) (tels : list telemetry) : bool :=
  match tels with
  | [] => true
  | tel :: rest => forwardb s tel && forward_runb (track_lap s tel) rest
  end.

Definition forward_run (s : lap_state) (tels : list telemetry) : Prop :=
  forward_runb s tels = true.

(** Every row of the three curves has its distance and fuel fields. *)
Definition rows_wide (s : lap_state) : Prop :=
  Forall wide_row (delta_list_curr s)
  /\ Forall wide_row (delta_list_temp s)
  /\ Forall wide_row (delta_list_last s).

(** What the recorder needs to know about the position it is handed. *)
Definition ready (s : lap_state) (p : Q) : Prop :=
  delta_list_curr s = [DELTA_ZERO] \/ p < 0 \/ pos_last s <= p.

(** A curve whose last row has its three fields. *)
Definition complete (c : list row) : Prop := (3 <= length (last c []))%nat.

(** No distance of the curve is negative. *)
Definition nonneg_distances (c : list row) : Prop :=
  Forall (fun d => 0 <= d) (distances c).

(** What every tick keeps, whatever the readings: the curve in progress and
    the staged curve start with [DELTA_ZERO] and hold no negative distance,
    the last checked position is not negative once a sample is recorded, a
    staged lap awaiting validation ends with a three-field row, and so does
    the reference curve. *)
Record recorded_ok (s : lap_state) : Prop := {
  rec_curr_sentinel : sentinel_first (delta_list_curr s);
  rec_temp_sentinel : sentinel_first (delta_list_temp s);
  rec_curr_nonneg : nonneg_distances (delta_list_curr s);
  rec_temp_nonneg : nonneg_distances (delta_list_temp s);
  rec_last_nonneg : nonneg_distances (delta_list_last s);
  rec_pos : (1 < len (delta_list_curr s))%Z -> 0 <= pos_last s;
  rec_temp_complete : validating s = true -> complete (delta_list_temp s);
  rec_last_complete : complete (delta_list_last s)
}.

(** The reference curve, usage and laptime are still those loaded. *)
Definition as_loaded (loaded : list row * Q * Q) (s : lap_state) : Prop :=
  delta_list_last s = fst (fst loaded)
  /\ used_last s = snd (fst loaded)
  /\ laptime_last s = snd loaded.

(** The fuel bookkeeping of [s'] is that of [s]. *)
Definition same_fuel (s s' : lap_state) : Prop :=
  amount_last s' = amount_last s
  /\ amount_start s' = amount_start s
  /\ used_curr s' = used_curr s
  /\ used_last_raw s' = used_last_raw s.

(** The reference lap of [s'] (curve, usage, laptime) and the save flag are
    those of [s]. *)
Definition same_reference (s s' : lap_state) : Prop :=
  delayed_save s' = delayed_save s
  /\ delta_list_last s' = delta_list_last s
  /\ used_last s' = used_last s
  /\ laptime_last s' = laptime_last s.

(** The test of lines 135-136 on the state at the start of the tick: a new
    lap begins, the lap that ends has samples, and the car was not seen in the
    pits during it nor is now. *)
Definition stages (s : lap_state) (tel : telemetry) : bool :=
  new_lap s (t_start tel)
  && (1 <? len (delta_list_curr s))%Z
  && negb (pit_lap s || t_in_pits tel).

(** ** Specification side: stored curves *)

Definition laptime_of (r : row) : Q := nth 2 r 0.

(** A curve that the store gives back as it is: every row has a distance, the
    distances are in non-decreasing order, and the last row has its three
    fields. *)
Definition storable (curve : list row) : Prop :=
  Forall (fun r => r <> []) curve
  /\ sorted_curve curve
  /\ (3 <= length (last curve []))%nat.

(** The ways in which a stored file is unusable. *)
Definition has_garbage (f : csv_file) : Prop :=
  Exists (Exists (fun c => c = Garbage)) f.

Definition has_empty_row (f : csv_file) : Prop := In [] f.

(** No field of the file is beyond the field size limit of the reader. *)
Definition parsable (f : csv_file) : Prop :=
  Forall (Forall (fun c => c <> Oversized)) f.

(** The rows that validation keeps, when the file can be read. *)
Definition validated (f : csv_file) (l : list row) : Prop :=
  exists rows, csv_reader f = Ok rows /\ delta_list rows = Ok l.

(** ** Sample runs and stores *)

(** A reading with the fields that the lap tracking part of a tick uses; the
    other fields are fixed. *)
Definition reading (start laptime last_laptime distance fuel : Q) : telemetry :=
  {| t_start := start;
     t_current_laptime := laptime;
     t_last_laptime := last_laptime;
     t_remaining := 0;
     t_fuel := fuel;
     t_tank_capacity := 100;
     t_in_garage := false;
     t_distance := distance;
     t_position := (0, 0, 0);
     t_total_laps := 1;
     t_percent := 0;
     t_maximum := 10;
     t_in_pits := false;
     t_lap_type := true |}.

(** A run from the reset state with no stored curve: the first reading fixes
    the lap start time, the second starts a lap, the third records a sample,
    the fourth crosses the line and stages the lap; the simulator never
    reports a last laptime; the next readings come 2.9 s and 5 s into the new
    lap. *)
Definition unconfirmed_lap : list telemetry :=
  [ reading 10 50 0 100 40;
    reading 100 (5 # 100) 0 2 40;
    reading 100 10 0 500 39;
    reading 190 (1 # 10) 0 3 38;
    reading 190 (29 # 10) 0 150 38;
    reading 190 5 0 250 38 ].

(** A run in which the car moves back by 50 m in the middle of a lap (a spin,
    or a reset of the lap distance): 100 m, then 50 m, then 60 m. *)
Definition backward_move : list telemetry :=
  [ reading 10 50 0 100 40;
    reading 100 (5 # 100) 0 2 40;
    reading 100 10 0 100 39;
    reading 100 12 0 50 39;
    reading 100 14 0 60 39;
    reading 190 (1 # 10) 0 3 38;
    reading 190 (5 # 10) 90 4 38 ].

(** The first reading of a session in which the stored lap used 2 l, the tank
    holds 1 l and the simulator reports no tank capacity (it is then taken
    as 1). *)
Definition small_tank : telemetry :=
  {| t_start := 10;
     t_current_laptime := 0;
     t_last_laptime := 90;
     t_remaining := 0;
     t_fuel := 1;
     t_tank_capacity := 0;
     t_in_garage := false;
     t_distance := 0;
     t_position := (0, 0, 0);
     t_total_laps := 1;
     t_percent := 0;
     t_maximum := 10;
     t_in_pits := false;
     t_lap_type := true |}.

(** A lap of ten samples with the same move back, its end, and the reading
    that confirms it with a laptime of 90 s. *)
Definition long_backward : list telemetry :=
  [ reading 10 50 0 100 40;
    reading 100 (5 # 100) 0 2 40;
    reading 100 10 0 100 39;
    reading 100 12 0 50 39;
    reading 100 14 0 60 39;
    reading 100 20 0 200 38;
    reading 100 30 0 300 37;
    reading 100 40 0 400 36;
    reading 100 50 0 500 35;
    reading 100 60 0 600 34;
    reading 100 70 0 700 33;
    reading 100 80 0 800 32;
    reading 190 (1 # 10) 0 3 31;
    reading 190 (5 # 10) 90 4 31 ].

Definition thirsty_lap : list row * Q * Q := ([[0; 0]; [100; 2; 90]], 2, 90).

(** A lap of ten samples, as the tick records it: two fields per row and three
    in the last one. *)
Definition stored_lap : list row :=
  [ [0; 0]; [100; 1]; [200; 2]; [300; 3]; [400; 4];
    [500; 5]; [600; 6]; [700; 7]; [800; 8]; [810; 9; 90] ].

Definition empty_store : store := fun _ => None.

(** Stored files that cannot be used: a field that is not a number, a blank
    row, rows of two fields only, and rows of non-finite numbers only. *)
Definition unusable_store : store :=
  fun name =>
    if String.eqb name "text.fuel"
    then Some (Readable [[Numeral 0; Numeral 0]; [Numeral 1; Garbage]])
    else if String.eqb name "blank.fuel"
    then Some (Readable [[Numeral 0; Numeral 0]; []])
    else if String.eqb name "short.fuel"
    then Some (Readable [[Numeral 0; Numeral 0]; [Numeral 5; Numeral 1]])
    else if String.eqb name "nan.fuel"
    then Some (Readable [[NonFinite; Numeral 0; Numeral 0]])
    else None.

(** Stored files that are not well formed and are not replaced by the
    default: a row without its fuel field in the middle of the file, a field
    beyond the field size limit, and a file without read permission. *)
Definition malformed_store : store :=
  fun name =>
    if String.eqb name "gap.fuel"
    then Some (Readable [[Numeral 0; Numeral 0]; [Numeral 5];
                         [Numeral 10; Numeral 1; Numeral 90]])
    else if String.eqb name "long.fuel"
    then Some (Readable [[Numeral 0; Numeral 0]; [Numeral 5; Oversized]])
    else if String.eqb name "locked.fuel" then Some WriteOnly
    else None.

(** * Properties *)

(** ** Comparisons *)

Lemma Qltb_lt (a b : Q) : Qltb a b = true <-> a < b.
Proof.
  unfold Qltb. rewrite negb_true_iff, <- not_true_iff_false, Qle_bool_iff.
  split; intro H; [apply Qnot_le_lt | apply Qlt_not_le]; exact H.
Qed.

Lemma Qltb_ge (a b : Q) : Qltb a b = false <-> b <= a.
Proof.
  unfold Qltb. rewrite negb_false_iff. apply Qle_bool_iff.
Qed.

Lemma Qeq_bool_false (a b : Q) : Qeq_bool a b = false <-> ~ a == b.
Proof.
  rewrite <- not_true_iff_false, Qeq_bool_iff. reflexivity.
Qed.

Lemma truthy_iff (x : Q) : truthy x = true <-> ~ x == 0.
Proof.
  unfold truthy. rewrite negb_true_iff. apply Qeq_bool_false.
Qed.

(** ** Indexing *)

Lemma len_nonneg {A : Type} (l : list A) : (0 <= len l)%Z.
Proof. unfold len. lia. Qed.

Lemma py_getitem_in_range {A : Type} (l : list A) (i : Z) (d : A) :
  (0 <= i < len l)%Z -> py_getitem l i = Ok (nth (Z.to_nat i) l d).
Proof.
  intros [H0 H1]. unfold py_getitem.
  destruct (i <? 0)%Z eqn:E; [apply Z.ltb_lt in E; lia |].
  rewrite E.
  destruct (nth_error l (Z.to_nat i)) eqn:N.
  - apply (nth_error_nth _ _ d) in N. now rewrite N.
  - apply nth_error_None in N. unfold len in H1. lia.
Qed.

Lemma has_keys_length column data ks : has_keys column data ks -> len data = len ks.
Proof.
  intro H. unfold len. now rewrite (Forall2_length H).
Qed.

Lemma has_keys_at column data ks (i : Z) :
  has_keys column data ks -> (0 <= i < len ks)%Z ->
  exists e, py_getitem data i = Ok e
            /\ search_column_key e column = Ok (Num (key_at ks i)).
Proof.
  intros H Hi. pose proof (has_keys_length _ _ _ H) as HL.
  exists (nth (Z.to_nat i) data (Num 0)). split.
  - apply py_getitem_in_range. lia.
  - unfold key_at. unfold len in *.
    assert (Hn : (Z.to_nat i < length ks)%nat) by lia.
    revert Hn. generalize (Z.to_nat i). clear Hi HL.
    induction H as [| e k data' ks' Hek _ IH]; intros n Hn; simpl in *.
    + lia.
    + destruct n; [exact Hek | apply IH; lia].
Qed.

(** The outcome of one probe on a list with keys. *)
Lemma probe_keys column data ks target (c : Z) :
  has_keys column data ks -> (0 <= c < len ks)%Z ->
  probe data target c column =
    Ok (if Qeq_bool target (key_at ks c) then Found
        else if Qltb (key_at ks c) target then GoHigher else GoLower).
Proof.
  intros H Hc. destruct (has_keys_at _ _ _ _ H Hc) as (e & He & Hk).
  unfold probe. rewrite He. simpl. rewrite Hk. simpl.
  destruct (Qeq_bool target (key_at ks c)); [reflexivity |].
  destruct (Qltb (key_at ks c) target); reflexivity.
Qed.

(** The loop of [binary_search_hi], one pass unrolled. *)
Lemma binary_search_hi_loop data target start end_ column :
  binary_search_hi data target start end_ column =
    if (start <? end_)%Z then
      match probe data target ((start + end_) / 2) column with
      | Raise e => Raise e
      | Ok Found => Ok ((start + end_) / 2)%Z
      | Ok GoHigher =>
          binary_search_hi data target ((start + end_) / 2 + 1) end_ column
      | Ok GoLower => binary_search_hi data target start ((start + end_) / 2) column
      end
    else Ok end_.
Proof.
  rewrite binary_search_hi_equation_1.
  destruct (Z_lt_dec start end_) as [Hlt | Hge]; simpl.
  - rewrite (proj2 (Z.ltb_lt _ _) Hlt).
    destruct (probe data target ((start + end_) / 2) column) as [[ | | ] | e];
      reflexivity.
  - destruct (start <? end_)%Z eqn:E; [apply Z.ltb_lt in E; lia | reflexivity].
Qed.

(** ** Ordered keys *)

Lemma key_at_cons k ks (i : Z) :
  (0 < i)%Z -> key_at (k :: ks) i = key_at ks (i - 1).
Proof.
  intro H. unfold key_at.
  replace (Z.to_nat i) with (S (Z.to_nat (i - 1))) by lia. reflexivity.
Qed.

Lemma len_cons {A : Type} (a : A) (l : list A) : len (a :: l) = (len l + 1)%Z.
Proof. unfold len. simpl length. lia. Qed.

Lemma key_at_In ks (i : Z) : (0 <= i < len ks)%Z -> In (key_at ks i) ks.
Proof.
  intros H. unfold key_at. apply nth_In. unfold len in H. lia.
Qed.

Lemma Sorted_Qle_ascending ks : Sorted Qle ks -> ascending ks.
Proof.
  intro HS. apply Sorted_StronglySorted in HS;
    [| intros x y z; apply Qle_trans].
  induction HS as [| k ks HS IH Hall]; intros i j Hi Hij Hj.
  - unfold len in Hj. simpl in Hj. lia.
  - rewrite len_cons in Hj.
    destruct (Z.eq_dec i 0) as [-> | Hi0].
    + destruct (Z.eq_dec j 0) as [-> | Hj0]; [apply Qle_refl |].
      rewrite (key_at_cons k ks j) by lia.
      unfold key_at at 1. simpl.
      rewrite Forall_forall in Hall. apply Hall, key_at_In. lia.
    + rewrite !key_at_cons by lia. apply IH; lia.
Qed.

Lemma Sorted_Qlt_strictly_ascending ks : Sorted Qlt ks -> strictly_ascending ks.
Proof.
  intro HS. apply Sorted_StronglySorted in HS;
    [| intros x y z; apply Qlt_trans].
  induction HS as [| k ks HS IH Hall]; intros i j Hi Hij Hj.
  - unfold len in Hj. simpl in Hj. lia.
  - rewrite len_cons in Hj.
    destruct (Z.eq_dec i 0) as [-> | Hi0].
    + rewrite (key_at_cons k ks j) by lia.
      unfold key_at at 1. simpl.
      rewrite Forall_forall in Hall. apply Hall, key_at_In. lia.
    + rewrite !key_at_cons by lia. apply IH; lia.
Qed.

Lemma strictly_ascending_ascending ks : strictly_ascending ks -> ascending ks.
Proof.
  intros H i j Hi Hij Hj.
  destruct (Z.eq_dec i j) as [-> | Hne]; [apply Qle_refl |].
  apply Qlt_le_weak, H; lia.
Qed.

(** ** The search loop on ordered keys *)

Lemma binary_search_hi_post column data ks target :
  has_keys column data ks -> ascending ks ->
  forall (n : nat) (start end_ : Z),
    (Z.to_nat (end_ - start) <= n)%nat ->
    (0 <= start <= end_)%Z -> (end_ < len ks)%Z ->
    exists r, binary_search_hi data target start end_ column = Ok r
              /\ search_post ks target start end_ r.
Proof.
  intros HK HA n. induction n as [| n IH]; intros start end_ Hn Hse He;
    rewrite binary_search_hi_loop.
  - assert (start = end_) as -> by lia. rewrite Z.ltb_irrefl.
    exists end_. split; [reflexivity |]. split; [lia |]. right. split; intros; lia.
  - destruct (start <? end_)%Z eqn:E.
    2:{ apply Z.ltb_ge in E. assert (start = end_) as -> by lia.
        exists end_. split; [reflexivity |]. split; [lia |].
        right. split; intros; lia. }
    apply Z.ltb_lt in E.
    set (c := ((start + end_) / 2)%Z).
    assert (Hc : (start <= c < end_)%Z)
      by (subst c; split;
          [apply Z.div_le_lower_bound | apply Z.div_lt_upper_bound]; lia).
    rewrite (probe_keys column data ks target c HK) by lia.
    destruct (Qeq_bool target (key_at ks c)) eqn:Eeq.
    + exists c. split; [reflexivity |]. split; [lia |]. left.
      apply Qeq_bool_iff in Eeq. now symmetry.
    + apply Qeq_bool_false in Eeq.
      destruct (Qltb (key_at ks c) target) eqn:Elt.
      * apply Qltb_lt in Elt.
        destruct (IH (c + 1)%Z end_) as (r & Hr & [Hrange Hpost]); try lia.
        exists r. split; [exact Hr |]. split; [lia |].
        destruct Hpost as [Hfound | [Hbelow Habove]]; [now left | right].
        split; [| exact Habove].
        intros j Hj. destruct (Z_le_gt_dec j c) as [Hjc | Hjc].
        -- apply Qle_lt_trans with (key_at ks c); [apply HA; lia | exact Elt].
        -- apply Hbelow. lia.
      * apply Qltb_ge in Elt.
        assert (Hgt : target < key_at ks c).
        { apply Qle_lt_or_eq in Elt. destruct Elt as [Hlt | Heq];
            [exact Hlt | contradiction]. }
        destruct (IH start c) as (r & Hr & [Hrange Hpost]); try lia.
        exists r. split; [exact Hr |]. split; [lia |].
        destruct Hpost as [Hfound | [Hbelow Habove]]; [now left | right].
        split; [exact Hbelow |].
        intros _. destruct (Z.eq_dec r c) as [-> | Hrc];
          [exact Hgt | apply Habove; lia].
Qed.

(** Without any order on the keys the loop still ends on an index between
    [start] and [end_]. *)
Lemma binary_search_hi_range column data ks target :
  has_keys column data ks ->
  forall (n : nat) (start end_ : Z),
    (Z.to_nat (end_ - start) <= n)%nat ->
    (0 <= start <= end_)%Z -> (end_ < len ks)%Z ->
    exists r, binary_search_hi data target start end_ column = Ok r
              /\ (start <= r <= end_)%Z.
Proof.
  intros HK n. induction n as [| n IH]; intros start end_ Hn Hse He;
    rewrite binary_search_hi_loop.
  - assert (start = end_) as -> by lia. rewrite Z.ltb_irrefl.
    exists end_. split; [reflexivity | lia].
  - destruct (start <? end_)%Z eqn:E; [| exists end_; split; [reflexivity | lia]].
    apply Z.ltb_lt in E.
    set (c := ((start + end_) / 2)%Z).
    assert (Hc : (start <= c < end_)%Z)
      by (subst c; split;
          [apply Z.div_le_lower_bound | apply Z.div_lt_upper_bound]; lia).
    rewrite (probe_keys column data ks target c HK) by lia.
    destruct (Qeq_bool target (key_at ks c)); [exists c; split; [reflexivity | lia] |].
    destruct (Qltb (key_at ks c) target).
    + destruct (IH (c + 1)%Z end_) as (r & Hr & Hrange); try lia.
      exists r. split; [exact Hr | lia].
    + destruct (IH start c) as (r & Hr & Hrange); try lia.
      exists r. split; [exact Hr | lia].
Qed.

(** On an empty list the call over the whole list returns [-1]. *)
Lemma binary_search_hi_empty target column :
  binary_search_hi [] target 0 (len (@nil pyval) - 1) column = Ok (-1)%Z.
Proof. rewrite binary_search_hi_loop. reflexivity. Qed.

(** ** The first key at or above the target *)

Lemma first_ge_from_Some ks : forall (i r : Z) target,
  first_ge_from i ks target = Some r ->
  (i <= r < i + len ks)%Z
  /\ target <= key_at ks (r - i)
  /\ forall j, (0 <= j < r - i)%Z -> key_at ks j < target.
Proof.
  induction ks as [| k ks IH]; intros i r target H; simpl in H; [discriminate |].
  rewrite len_cons.
  destruct (Qle_bool target k) eqn:E.
  - injection H as <-. rewrite Z.sub_diag. split; [pose proof (len_nonneg ks); lia |].
    split; [apply Qle_bool_iff; exact E | intros; lia].
  - apply IH in H. destruct H as (Hr & Hle & Hlt).
    split; [lia |]. split.
    + rewrite key_at_cons by lia. now replace (r - i - 1)%Z with (r - (i + 1))%Z by lia.
    + intros j Hj. destruct (Z.eq_dec j 0) as [-> | Hj0].
      * unfold key_at. simpl. apply Qnot_le_lt. intro Hc.
        apply Qle_bool_iff in Hc. congruence.
      * rewrite key_at_cons by lia. apply Hlt. lia.
Qed.

Lemma first_ge_from_None ks : forall (i : Z) target,
  first_ge_from i ks target = None ->
  forall j, (0 <= j < len ks)%Z -> key_at ks j < target.
Proof.
  induction ks as [| k ks IH]; intros i target H j Hj.
  - unfold len in Hj. simpl in Hj. lia.
  - simpl in H. rewrite len_cons in Hj.
    destruct (Qle_bool target k) eqn:E; [discriminate |].
    destruct (Z.eq_dec j 0) as [-> | Hj0].
    + unfold key_at. simpl. apply Qnot_le_lt. intro Hc.
      apply Qle_bool_iff in Hc. congruence.
    + rewrite key_at_cons by lia. apply (IH _ _ H). lia.
Qed.

(** ** Interpolation *)

Lemma linear_interp_interpolate x x1 y1 x2 y2 :
  linear_interp x x1 y1 x2 y2 =r= Ok (interpolate x x1 y1 x2 y2).
Proof.
  unfold linear_interp, interpolate, py_div, truthy.
  destruct (Qeq_bool (x2 - x1) 0) eqn:E; simpl.
  - apply Qeq_bool_iff in E.
    assert (Hx : x1 == x2) by lra.
    apply Qeq_bool_iff in Hx. rewrite Hx. simpl. reflexivity.
  - apply Qeq_bool_false in E.
    destruct (Qeq_bool x1 x2) eqn:E2.
    + apply Qeq_bool_iff in E2. exfalso. apply E. lra.
    + simpl. field. exact E.
Qed.

(** [linear_interp] never raises. *)
Lemma linear_interp_total x x1 y1 x2 y2 :
  exists v, linear_interp x x1 y1 x2 y2 = Ok v.
Proof.
  unfold linear_interp, py_div, truthy.
  destruct (Qeq_bool (x2 - x1) 0); simpl; eexists; reflexivity.
Qed.

(** ** Curves as search data *)

Lemma len_map {A B : Type} (f : A -> B) (l : list A) : len (map f l) = len l.
Proof. unfold len. now rewrite length_map. Qed.

Lemma wide_row_fields (r : row) :
  wide_row r ->
  py_subscript (Tup r) 0 = Ok (distance_of r)
  /\ py_subscript (Tup r) 1 = Ok (fuel_used_of r).
Proof.
  intro H. destruct r as [| d [| u r]]; unfold wide_row in H; simpl in H; try lia.
  split; reflexivity.
Qed.

Lemma curve_has_keys (curve : list row) :
  Forall wide_row curve -> has_keys (Some 0%Z) (map Tup curve) (distances curve).
Proof.
  induction 1 as [| r curve Hr _ IH]; constructor; [| exact IH].
  unfold search_column_key. now rewrite (proj1 (wide_row_fields r Hr)).
Qed.

Lemma py_getitem_curve (curve : list row) (i : Z) :
  (0 <= i < len curve)%Z ->
  py_getitem (map Tup curve) i = Ok (Tup (nth (Z.to_nat i) curve [])).
Proof.
  intro H. rewrite (py_getitem_in_range _ _ (Tup [])) by (rewrite len_map; lia).
  now rewrite map_nth.
Qed.

Lemma Forall_nth_wide (curve : list row) (i : Z) :
  Forall wide_row curve -> (0 <= i < len curve)%Z ->
  wide_row (nth (Z.to_nat i) curve []).
Proof.
  intros H Hi. rewrite Forall_forall in H. apply H, nth_In. unfold len in Hi. lia.
Qed.

(** The search over a whole curve returns an index of the curve, or [-1] when
    the curve is empty. *)
Lemma binary_search_hi_curve (curve : list row) (position : Q) :
  Forall wide_row curve ->
  exists idx,
    binary_search_hi (map Tup curve) position 0 (len (map Tup curve) - 1) (Some 0%Z)
      = Ok idx
    /\ (idx < len curve)%Z
    /\ (curve <> [] -> (0 <= idx)%Z).
Proof.
  intro HW. destruct curve as [| r curve].
  - exists (-1)%Z. split; [apply binary_search_hi_empty |]. split; [reflexivity |].
    intro H. now contradiction H.
  - pose proof (curve_has_keys _ HW) as HK.
    pose proof (has_keys_length _ _ _ HK) as HL.
    pose proof (len_map Tup (r :: curve)) as HM.
    rewrite (len_cons r curve) in HM.
    pose proof (len_nonneg curve) as H0.
    destruct (binary_search_hi_range _ _ _ position HK
                (Z.to_nat (len (map Tup (r :: curve)) - 1)) 0
                (len (map Tup (r :: curve)) - 1)%Z) as (idx & Hidx & Hrange);
      try lia.
    exists idx. split; [exact Hidx |]. rewrite len_cons. split; [lia |]. intros _. lia.
Qed.

(** Once the index found by the search is known, the rest of
    [delta_telemetry] reads two rows of the curve and interpolates. *)
Lemma delta_telemetry_of_index (curve : list row)
    (position live_usage : Q) (condition : bool) (offset : Q) (idx : Z) :
  Forall wide_row curve ->
  binary_search_hi (map Tup curve) position 0 (len (map Tup curve) - 1) (Some 0%Z)
    = Ok idx ->
  (idx < len curve)%Z ->
  delta_telemetry position live_usage (map Tup curve) condition offset
    =r= Ok (delta_telemetry_spec position live_usage curve condition offset idx).
Proof.
  intros HW Hidx Hlt.
  unfold delta_telemetry, delta_telemetry_spec. rewrite Hidx. cbn [bind].
  destruct ((0 <? idx)%Z && condition) eqn:E; [| simpl; reflexivity].
  apply andb_true_iff in E. destruct E as [Hpos _]. apply Z.ltb_lt in Hpos.
  rewrite !py_getitem_curve by lia. cbn [bind].
  destruct (wide_row_fields _ (Forall_nth_wide curve (idx - 1) HW ltac:(lia)))
    as [-> ->].
  destruct (wide_row_fields _ (Forall_nth_wide curve idx HW ltac:(lia)))
    as [-> ->].
  cbn [bind].
  set (lo := nth (Z.to_nat (idx - 1)) curve []).
  set (hi := nth (Z.to_nat idx) curve []).
  pose proof (linear_interp_interpolate position (distance_of lo) (fuel_used_of lo)
                (distance_of hi) (fuel_used_of hi)) as HI.
  destruct (linear_interp position (distance_of lo) (fuel_used_of lo)
              (distance_of hi) (fuel_used_of hi)) as [v | e];
    simpl in HI; [| contradiction].
  simpl. rewrite HI. reflexivity.
Qed.

Lemma result_eq_value (r : result Q) (a b : Q) : r =r= Ok a -> a == b -> r =r= Ok b.
Proof.
  destruct r as [v | e]; simpl; [| contradiction].
  intros H1 H2. now rewrite H1.
Qed.

(** ** C1: [delta_telemetry] against its description *)

(** C1.  [delta_telemetry] never raises on a curve whose rows have their
    distance and fuel fields, and it returns what the spec describes: with
    [idx] the index that [binary_search_hi] returns over the whole curve, the
    result is [live_usage + offset] minus the linear interpolation of fuel
    used against distance between rows [idx - 1] and [idx] at [position] when
    [idx > 0] and [condition] holds, and [0] otherwise. *)
Theorem delta_telemetry_refines_spec (curve : list row)
    (position live_usage : Q) (condition : bool) (offset : Q) :
  Forall wide_row curve ->
  exists idx,
    binary_search_hi (map Tup curve) position 0 (len (map Tup curve) - 1) (Some 0%Z)
      = Ok idx
    /\ delta_telemetry position live_usage (map Tup curve) condition offset
       =r= Ok (delta_telemetry_spec position live_usage curve condition offset idx).
Proof.
  intro HW.
  destruct (binary_search_hi_curve curve position HW) as (idx & Hidx & Hlt & _).
  exists idx. split; [exact Hidx |].
  apply delta_telemetry_of_index; assumption.
Qed.

(** The scenario of the spec: curve [(0,0,0), (100,5.0,60.0)], position 50,
    live usage 2.5, condition true, offset 0; the index found is 1, the
    interpolated value 2.5 and the result 0. *)
Lemma delta_telemetry_refines_spec_witness :
  Forall wide_row [[0; 0; 0]; [100; 5; 60]]
  /\ binary_search_hi (map Tup [[0; 0; 0]; [100; 5; 60]]) 50 0 1 (Some 0%Z) = Ok 1%Z
  /\ delta_telemetry 50 2.5 (map Tup [[0; 0; 0]; [100; 5; 60]]) true 0 =r= Ok 0.
Proof.
  assert (HW : Forall wide_row [[0; 0; 0]; [100; 5; 60]])
    by (repeat constructor; unfold wide_row; simpl; lia).
  split; [exact HW |].
  destruct (delta_telemetry_refines_spec [[0; 0; 0]; [100; 5; 60]] 50 2.5 true 0 HW)
    as (idx & Hidx & Hres).
  assert (Hone : binary_search_hi (map Tup [[0; 0; 0]; [100; 5; 60]]) 50 0 1
                   (Some 0%Z) = Ok 1%Z) by reflexivity.
  split; [exact Hone |].
  change (len (map Tup _) - 1)%Z with 1%Z in Hidx.
  rewrite Hone in Hidx. injection Hidx as <-.
  destruct (delta_telemetry 50 2.5 (map Tup [[0; 0; 0]; [100; 5; 60]]) true 0)
    as [v | e]; simpl in Hres |- *; [| exact Hres].
  rewrite Hres. vm_compute. reflexivity.
Defined.

(** ** C3: what the search returns on ordered data *)

Lemma has_keys_nums (ks : list Q) : has_keys None (map Num ks) ks.
Proof. induction ks; constructor; [reflexivity | assumption]. Qed.

(** C3, as stated, fails on a target that occurs more than once: on the
    ordered list [1, 2, 2, 2, 3] with target 2 the first key [>= 2] is at
    index 1, but the first probe (index 2) meets an equal key and index 2 is
    returned.  It also fails on a target above every key, where no such first
    element exists and the last index is returned. *)
Lemma binary_search_hi_duplicate_target :
  has_keys None (map Num [1; 2; 2; 2; 3]) [1; 2; 2; 2; 3]
  /\ Sorted Qle [1; 2; 2; 2; 3]
  /\ first_ge [1; 2; 2; 2; 3] 2 = Some 1%Z
  /\ binary_search_hi (map Num [1; 2; 2; 2; 3]) 2 0
       (len (map Num [1; 2; 2; 2; 3]) - 1) None = Ok 2%Z.
Proof.
  split; [apply has_keys_nums |].
  split; [repeat constructor; discriminate |].
  split; reflexivity.
Qed.

Lemma binary_search_hi_target_above_all :
  Sorted Qle [1; 2; 3]
  /\ first_ge [1; 2; 3] 5 = None
  /\ binary_search_hi (map Num [1; 2; 3]) 5 0 (len (map Num [1; 2; 3]) - 1) None
     = Ok 2%Z.
Proof.
  split; [repeat constructor; discriminate |]. split; reflexivity.
Qed.

(** C3, amended.  On data whose keys are in non-decreasing order, the search
    over the whole list returns [-1] when the list is empty and otherwise an
    index [r] of the list such that: when no key is [>= target], [r] is the
    last index; when [i] is the first index whose key is [>= target], either
    [r = i], or [r > i] and the key at [r] equals the target (the target
    occurs more than once).  When the keys are strictly ascending, [r = i].
    Whenever some key equals the target, the key at [r] equals it. *)
Theorem binary_search_hi_ordered (column : option Z) (data : list pyval)
    (ks : list Q) (target : Q) :
  has_keys column data ks -> Sorted Qle ks ->
  (ks = [] -> binary_search_hi data target 0 (len data - 1) column = Ok (-1)%Z)
  /\ (ks <> [] ->
      exists r, binary_search_hi data target 0 (len data - 1) column = Ok r
        /\ (0 <= r < len ks)%Z
        /\ match first_ge ks target with
           | None => r = (len ks - 1)%Z
           | Some i => (r = i \/ ((i < r)%Z /\ key_at ks r == target))
                       /\ (Sorted Qlt ks -> r = i)
           end
        /\ (forall j, (0 <= j < len ks)%Z -> key_at ks j == target ->
              key_at ks r == target)).
Proof.
  intros HK HS. split.
  - intros ->. inversion HK; subst. apply binary_search_hi_empty.
  - intro Hne.
    pose proof (has_keys_length _ _ _ HK) as HL.
    assert (Hpos : (0 < len ks)%Z)
      by (destruct ks; [contradiction | rewrite len_cons; pose proof (len_nonneg ks); lia]).
    pose proof (Sorted_Qle_ascending ks HS) as HA.
    destruct (binary_search_hi_post column data ks target HK HA
                (Z.to_nat (len data - 1)) 0 (len data - 1)%Z)
      as (r & Hr & [Hrange Hpost]); try lia.
    exists r. split; [exact Hr |]. split; [lia |]. split.
    + destruct (first_ge ks target) as [i |] eqn:Ef; unfold first_ge in Ef.
      * apply first_ge_from_Some in Ef. destruct Ef as (Hi & Hge & Hbelow).
        rewrite Z.sub_0_r in Hge.
        assert (Hbelow' : forall j, (0 <= j < i)%Z -> key_at ks j < target)
          by (intros j Hj; apply Hbelow; lia).
        destruct Hpost as [Hfound | [Hlow Hup]].
        -- assert (Hir : (i <= r)%Z).
           { destruct (Z_le_gt_dec i r) as [H | H]; [exact H |].
             specialize (Hbelow' r ltac:(lia)). lra. }
           split.
           ++ destruct (Z.eq_dec r i) as [-> | Hri]; [now left | right].
              split; [lia | exact Hfound].
           ++ intro HSlt. apply Sorted_Qlt_strictly_ascending in HSlt.
              destruct (Z.eq_dec r i) as [-> | Hri]; [reflexivity |].
              specialize (HSlt i r ltac:(lia) ltac:(lia) ltac:(lia)). lra.
        -- assert (Hri : r = i).
           { destruct (Z_lt_le_dec r i) as [H | H].
             - specialize (Hup ltac:(lia)). specialize (Hbelow' r ltac:(lia)). lra.
             - destruct (Z.eq_dec r i) as [-> | Hne']; [reflexivity |].
               specialize (Hlow i ltac:(lia)). lra. }
           split; [now left | intros _; exact Hri].
      * pose proof (first_ge_from_None _ _ _ Ef) as Hall.
        destruct Hpost as [Hfound | [Hlow Hup]].
        -- specialize (Hall r ltac:(lia)). lra.
        -- destruct (Z.eq_dec r (len ks - 1)) as [-> | Hne']; [reflexivity |].
           specialize (Hup ltac:(lia)). specialize (Hall r ltac:(lia)). lra.
    + intros j Hj Hjt.
      destruct Hpost as [Hfound | [Hlow Hup]]; [exact Hfound |].
      destruct (Z.lt_trichotomy j r) as [Hlt | [-> | Hgt]]; [| exact Hjt |].
      * specialize (Hlow j ltac:(lia)). lra.
      * specialize (Hup ltac:(lia)).
        specialize (HA r j ltac:(lia) ltac:(lia) ltac:(lia)). lra.
Qed.

Lemma binary_search_hi_ordered_witness :
  has_keys None (map Num [1; 2; 2; 2; 3]) [1; 2; 2; 2; 3]
  /\ Sorted Qle [1; 2; 2; 2; 3]
  /\ exists r,
       binary_search_hi (map Num [1; 2; 2; 2; 3]) 2 0
         (len (map Num [1; 2; 2; 2; 3]) - 1) None = Ok r
       /\ (0 <= r < 5)%Z
       /\ (r = 1%Z \/ ((1 < r)%Z /\ key_at [1; 2; 2; 2; 3] r == 2)).
Proof.
  assert (HK : has_keys None (map Num [1; 2; 2; 2; 3]) [1; 2; 2; 2; 3])
    by apply has_keys_nums.
  assert (HS : Sorted Qle [1; 2; 2; 2; 3]) by (repeat constructor; discriminate).
  split; [exact HK |]. split; [exact HS |].
  destruct (binary_search_hi_ordered None _ _ 2 HK HS) as [_ H].
  destruct (H ltac:(discriminate)) as (r & Hr & Hrange & Hpost).
  exists r. split; [exact Hr |]. split; [exact Hrange |].
  destruct Hpost as [Hpost _].
  change (first_ge [1; 2; 2; 2; 3] 2) with (Some 1%Z) in Hpost.
  exact (proj1 Hpost).
Defined.

(** ** C7: the knots of the curve *)

Lemma key_at_distances (curve : list row) (i : Z) :
  key_at (distances curve) i = distance_of (nth (Z.to_nat i) curve []).
Proof.
  unfold key_at, distances.
  change 0 with (distance_of []). apply map_nth.
Qed.

(** On a curve with strictly ascending distances the search for the distance
    of row [i] returns [i]. *)
Lemma binary_search_hi_knot (curve : list row) (i : Z) (position : Q) :
  Forall wide_row curve -> Sorted Qlt (distances curve) ->
  (0 <= i < len curve)%Z ->
  position == distance_of (nth (Z.to_nat i) curve []) ->
  binary_search_hi (map Tup curve) position 0 (len (map Tup curve) - 1) (Some 0%Z)
    = Ok i.
Proof.
  intros HW HS Hi Hpos.
  pose proof (curve_has_keys _ HW) as HK.
  pose proof (Sorted_Qlt_strictly_ascending _ HS) as HSA.
  pose proof (strictly_ascending_ascending _ HSA) as HA.
  assert (HL : len (distances curve) = len curve) by apply len_map.
  rewrite len_map.
  destruct (binary_search_hi_post _ _ _ position HK HA
              (Z.to_nat (len curve - 1)) 0 (len curve - 1)%Z)
    as (r & Hr & [Hrange Hpost]); try lia.
  rewrite Hr. f_equal.
  rewrite <- key_at_distances in Hpos.
  destruct (Z.lt_trichotomy r i) as [Hlt | [Heq | Hgt]]; [| exact Heq |].
  - specialize (HSA r i ltac:(lia) ltac:(lia) ltac:(lia)).
    destruct Hpost as [Hfound | [_ Hup]]; [lra |].
    specialize (Hup ltac:(lia)). lra.
  - specialize (HSA i r ltac:(lia) ltac:(lia) ltac:(lia)).
    destruct Hpost as [Hfound | [Hlow _]]; [lra |].
    specialize (Hlow i ltac:(lia)). lra.
Qed.

Section Binary64Facts.

Import PrimFloat.
#[local] Set Warnings "-inexact-float".

(** C7, as stated, fails in binary64: on the curve [(0,0), (3,0.1)] at
    position 3.0 the search returns 1, but the interpolated value is
    [0.0 + (3.0 - 0.0) * (0.1 - 0.0) / 3.0 = 0.10000000000000002], so with
    live usage 0.1 the result is [-1.3877787807814457e-17] and not
    [0.1 - 0.1 = 0.0]. *)
Lemma delta_telemetry_knot_binary64 :
  let curve := [[0; 0]; [3; 0.1]]%float in
  Binary64.binary_search_hi curve 3%float 0 (len curve - 1) 0 = Ok 1%Z
  /\ Binary64.same (Binary64.delta_telemetry 3 0.1 curve true 0)%float
                   (Ok (0.1 - 0.1)%float) = false
  /\ Binary64.same (Binary64.delta_telemetry 3 0.1 curve true 0)%float
                   (Ok (-0x1p-56)%float) = true.
Proof. repeat split; vm_compute; reflexivity. Qed.

End Binary64Facts.

(** C7, amended.  On a curve with strictly ascending distances, at a position
    equal to the distance of row [i > 0], the search over the whole curve
    returns [i], and [delta_telemetry] with condition true and offset 0
    returns the live usage minus the interpolated value, which in exact
    arithmetic is the fuel used of row [i]. *)
Theorem delta_telemetry_at_knot (curve : list row) (i : Z)
    (position live_usage : Q) :
  Forall wide_row curve -> Sorted Qlt (distances curve) ->
  (0 < i < len curve)%Z ->
  position == distance_of (nth (Z.to_nat i) curve []) ->
  binary_search_hi (map Tup curve) position 0 (len (map Tup curve) - 1) (Some 0%Z)
    = Ok i
  /\ delta_telemetry position live_usage (map Tup curve) true 0
     =r= Ok (live_usage - fuel_used_of (nth (Z.to_nat i) curve [])).
Proof.
  intros HW HS Hi Hpos.
  pose proof (binary_search_hi_knot curve i position HW HS ltac:(lia) Hpos) as Hidx.
  split; [exact Hidx |].
  apply result_eq_value
    with (a := delta_telemetry_spec position live_usage curve true 0 i).
  - apply delta_telemetry_of_index; [exact HW | exact Hidx | lia].
  - unfold delta_telemetry_spec.
    rewrite (proj2 (Z.ltb_lt 0 i)) by lia. cbn [andb].
    set (lo := nth (Z.to_nat (i - 1)) curve []).
    set (hi := nth (Z.to_nat i) curve []) in *.
    assert (Hlt : distance_of lo < distance_of hi).
    { subst lo hi. rewrite <- !key_at_distances.
      apply (Sorted_Qlt_strictly_ascending _ HS);
        unfold distances; rewrite ?len_map; lia. }
    unfold interpolate.
    destruct (Qeq_bool (distance_of lo) (distance_of hi)) eqn:E.
    + apply Qeq_bool_iff in E. lra.
    + rewrite Hpos. field. lra.
Qed.

Lemma delta_telemetry_at_knot_witness :
  Forall wide_row [[0; 0]; [3; 1 # 10]]
  /\ Sorted Qlt (distances [[0; 0]; [3; 1 # 10]])
  /\ binary_search_hi (map Tup [[0; 0]; [3; 1 # 10]]) 3 0
       (len (map Tup [[0; 0]; [3; 1 # 10]]) - 1) (Some 0%Z) = Ok 1%Z
  /\ delta_telemetry 3 (1 # 10) (map Tup [[0; 0]; [3; 1 # 10]]) true 0
     =r= Ok ((1 # 10) - (1 # 10)).
Proof.
  assert (HW : Forall wide_row [[0; 0]; [3; 1 # 10]])
    by (repeat constructor; unfold wide_row; simpl; lia).
  assert (HS : Sorted Qlt (distances [[0; 0]; [3; 1 # 10]]))
    by (repeat constructor; reflexivity).
  split; [exact HW |]. split; [exact HS |].
  apply (delta_telemetry_at_knot [[0; 0]; [3; 1 # 10]] 1 3 (1 # 10) HW HS).
  - unfold len. simpl. lia.
  - reflexivity.
Defined.

(** ** C9: the degenerate interpolation *)

(** C9.  When the two abscissae coincide, [linear_interp] returns [y1]; the
    division is only reached with a non-zero denominator, so [linear_interp]
    returns a value on every input. *)
Theorem linear_interp_degenerate (x a y1 y2 : Q) :
  linear_interp x a y1 a y2 = Ok y1
  /\ forall x1 x2, exists v, linear_interp x x1 y1 x2 y2 = Ok v.
Proof.
  split.
  - unfold linear_interp, truthy.
    assert (H : a - a == 0) by ring.
    apply Qeq_bool_iff in H. rewrite H. reflexivity.
  - intros x1 x2. apply linear_interp_total.
Qed.

(** ** C8: monotonicity of [total_fuel_needed] *)

(** C8, as stated, fails for a negative consumption: with consumption -1 the
    needed fuel falls from -1 to -2 when the remaining laps rise from 1 to 2;
    likewise, with -1 laps remaining it falls when the consumption rises. *)
Lemma total_fuel_needed_not_monotone :
  1 < 2
  /\ total_fuel_needed 2 (-1) 0 < total_fuel_needed 1 (-1) 0
  /\ total_fuel_needed (-1) 2 0 < total_fuel_needed (-1) 1 0.
Proof. repeat split. Qed.

Section Binary64Ties.

Import PrimFloat.

(** In binary64 a larger argument can give the same result: the needed fuel
    is the same with 1 l in the tank and with the next float above 1 l, and
    the same for 14 laps and for the next float above 14 laps.  So the
    amended claim speaks of results that do not decrease (or increase), not
    of results that differ. *)
Lemma total_fuel_needed_binary64_tie :
  (PrimFloat.ltb 1 (PrimFloat.next_up 1) = true
   /\ PrimFloat.eqb (Binary64.total_fuel_needed 100 10 (PrimFloat.next_up 1))
                    (Binary64.total_fuel_needed 100 10 1) = true
   /\ PrimFloat.ltb 14 (PrimFloat.next_up 14) = true
   /\ PrimFloat.eqb (Binary64.total_fuel_needed (PrimFloat.next_up 14) 0.5 30)
                    (Binary64.total_fuel_needed 14 0.5 30) = true)%float.
Proof. repeat split; vm_compute; reflexivity. Qed.

End Binary64Ties.

(** C8, amended.  [total_fuel_needed] is non-decreasing in the remaining laps
    when the consumption is not negative, non-decreasing in the consumption
    when the remaining laps are not negative, and non-increasing in the fuel
    in tank. *)
Theorem total_fuel_needed_monotone (l1 l2 c1 c2 f1 f2 : Q) :
  (0 <= c1 -> l1 <= l2 -> total_fuel_needed l1 c1 f1 <= total_fuel_needed l2 c1 f1)
  /\ (0 <= l1 -> c1 <= c2 -> total_fuel_needed l1 c1 f1 <= total_fuel_needed l1 c2 f1)
  /\ (f1 <= f2 -> total_fuel_needed l1 c1 f2 <= total_fuel_needed l1 c1 f1).
Proof.
  unfold total_fuel_needed. repeat split; intros.
  - assert (l1 * c1 <= l2 * c1) by (apply Qmult_le_compat_r; assumption). lra.
  - assert (l1 * c1 <= l1 * c2)
      by (rewrite !(Qmult_comm l1); apply Qmult_le_compat_r; assumption).
    lra.
  - lra.
Qed.

Lemma total_fuel_needed_monotone_witness :
  total_fuel_needed 14 3 30 <= total_fuel_needed 15 3 30
  /\ total_fuel_needed 14 3 30 <= total_fuel_needed 14 4 30
  /\ total_fuel_needed 14 3 31 <= total_fuel_needed 14 3 30.
Proof.
  destruct (total_fuel_needed_monotone 14 15 3 4 30 31) as (H1 & H2 & H3).
  split; [apply H1; discriminate |].
  split; [apply H2; discriminate | apply H3; discriminate].
Defined.

(** ** C10: the pit stop counts *)

Lemma py_div_zero (a b : Q) : b == 0 -> py_div a b = Raise ZeroDivisionError.
Proof.
  intro H. unfold py_div. apply Qeq_bool_iff in H. now rewrite H.
Qed.

Lemma py_div_nonzero (a b : Q) : ~ b == 0 -> py_div a b = Ok (a / b).
Proof.
  intro H. unfold py_div. apply Qeq_bool_false in H. now rewrite H.
Qed.

(** What [project] hands to [end_lap_pit_counts]: the needed fuel, the empty
    capacity at the end of the lap, and the capacity minus the fuel left
    before pitting. *)
Lemma project_call_site s e tel e' :
  project s e tel = Ok e' ->
  end_lap_pit_counts (amount_need e') (est_empty e')
    (capacity_of tel - amount_left e') = Ok (est_pits_early e').
Proof.
  unfold project. intro H.
  repeat match type of H with
         | bind ?r _ = Ok _ => destruct r eqn:?; cbn [bind] in H; [| discriminate]
         end.
  injection H as <-. cbn. assumption.
Qed.

(** C10.  [end_lap_pit_counts] divides by [capacity_total] on every path: with
    [capacity_total] zero it raises [ZeroDivisionError], and it returns a value
    exactly when [capacity_total] is not zero; an empty capacity of zero is
    handled and counts as one pit stop; [end_stint_pit_counts] returns 0 on a
    zero capacity; and the tick calls it with the capacity minus the fuel left
    before pitting. *)
Theorem end_lap_pit_counts_zero_capacity (fuel_needed capacity_empty capacity_total : Q) :
  (capacity_total == 0 ->
     end_lap_pit_counts fuel_needed capacity_empty capacity_total
       = Raise ZeroDivisionError
     /\ end_stint_pit_counts fuel_needed capacity_total = Ok 0)
  /\ (~ capacity_total == 0 ->
      (exists v, end_lap_pit_counts fuel_needed capacity_empty capacity_total = Ok v)
      /\ (capacity_empty == 0 ->
          end_lap_pit_counts fuel_needed capacity_empty capacity_total
            = Ok (1 + (fuel_needed - py_min fuel_needed capacity_empty) / capacity_total)))
  /\ (forall s e tel e', project s e tel = Ok e' ->
        end_lap_pit_counts (amount_need e') (est_empty e')
          (capacity_of tel - amount_left e') = Ok (est_pits_early e')).
Proof.
  split; [| split].
  - intro H0. split.
    + unfold end_lap_pit_counts.
      rewrite (py_div_zero _ capacity_total H0).
      destruct (truthy capacity_empty) eqn:T; cbn [bind].
      * apply truthy_iff in T. now rewrite (py_div_nonzero _ _ T).
      * reflexivity.
    + unfold end_stint_pit_counts, truthy.
      apply Qeq_bool_iff in H0. now rewrite H0.
  - intro Hn. unfold end_lap_pit_counts.
    rewrite (py_div_nonzero _ capacity_total Hn). split.
    + destruct (truthy capacity_empty) eqn:T; cbn [bind].
      * apply truthy_iff in T. rewrite (py_div_nonzero _ _ T). cbn [bind].
        eexists; reflexivity.
      * eexists; reflexivity.
    + intro He. unfold truthy. apply Qeq_bool_iff in He. rewrite He. reflexivity.
  - exact project_call_site.
Qed.

Lemma end_lap_pit_counts_zero_capacity_witness :
  end_lap_pit_counts 10 5 0 = Raise ZeroDivisionError
  /\ end_stint_pit_counts 10 0 = Ok 0
  /\ end_lap_pit_counts 10 0 50 = Ok (1 + (10 - py_min 10 0) / 50).
Proof.
  destruct (end_lap_pit_counts_zero_capacity 10 5 0) as (H & _ & _).
  destruct (H ltac:(reflexivity)) as [H1 H2].
  destruct (end_lap_pit_counts_zero_capacity 10 0 50) as (_ & H' & _).
  destruct (H' ltac:(discriminate)) as [_ H3].
  split; [exact H1 |]. split; [exact H2 | apply H3; reflexivity].
Defined.

(** ** C2: the validation window *)




(** ** Rounding to six decimals is monotone *)

Lemma round_half_even_bounds (x : Q) :
  (Qfloor x <= round_half_even x <= Qfloor x + 1)%Z.
Proof.
  unfold round_half_even.
  destruct (Qltb (x - inject_Z (Qfloor x)) (1 # 2)); [lia |].
  destruct (Qltb (1 # 2) (x - inject_Z (Qfloor x))); [lia |].
  destruct (Z.even (Qfloor x)); lia.
Qed.

Lemma round_half_even_mono (x y : Q) :
  x <= y -> (round_half_even x <= round_half_even y)%Z.
Proof.
  intro Hxy. pose proof (Qfloor_resp_le x y Hxy) as Hf.
  destruct (Z.eq_dec (Qfloor x) (Qfloor y)) as [Heq | Hne].
  - unfold round_half_even. rewrite <- Heq.
    set (f := Qfloor x).
    assert (Hr : x - inject_Z f <= y - inject_Z f) by lra.
    destruct (Qltb (x - inject_Z f) (1 # 2)) eqn:X1.
    + destruct (Qltb (y - inject_Z f) (1 # 2)); [lia |].
      destruct (Qltb (1 # 2) (y - inject_Z f)); [lia |].
      destruct (Z.even f); lia.
    + apply Qltb_ge in X1.
      assert (Y1 : Qltb (y - inject_Z f) (1 # 2) = false) by (apply Qltb_ge; lra).
      rewrite Y1.
      destruct (Qltb (1 # 2) (x - inject_Z f)) eqn:X2.
      * apply Qltb_lt in X2.
        assert (Y2 : Qltb (1 # 2) (y - inject_Z f) = true) by (apply Qltb_lt; lra).
        rewrite Y2. lia.
      * destruct (Qltb (1 # 2) (y - inject_Z f)); destruct (Z.even f); lia.
  - pose proof (round_half_even_bounds x). pose proof (round_half_even_bounds y). lia.
Qed.

Lemma round6_mono (x y : Q) : x <= y -> round6 x <= round6 y.
Proof.
  intro H. unfold round6, Qdiv.
  apply Qmult_le_compat_r; [| discriminate].
  rewrite <- Zle_Qle. apply round_half_even_mono.
  apply Qmult_le_compat_r; [exact H | discriminate].
Qed.

Lemma round6_zero : round6 0 == 0.
Proof. reflexivity. Qed.

Lemma round6_nonneg (x : Q) : 0 <= x -> 0 <= round6 x.
Proof.
  intro H. rewrite <- round6_zero. now apply round6_mono.
Qed.

(** ** Sorted lists of distances *)

Lemma Sorted_Qle_snoc (l : list Q) (d : Q) :
  Sorted Qle l -> Forall (fun x => x <= d) l -> Sorted Qle (l ++ [d]).
Proof.
  induction 1 as [| a l HS IH Hhd]; intro HF; simpl.
  - repeat constructor.
  - inversion HF as [| ? ? Ha HF']; subst.
    constructor; [apply IH; exact HF' |].
    destruct l as [| b l]; simpl; constructor.
    + exact Ha.
    + inversion Hhd; assumption.
Qed.

Lemma Sorted_Qle_ascendingb (l : list Q) : Sorted Qle l -> ascendingb l = true.
Proof.
  induction 1 as [| a l HS IH Hhd]; [reflexivity |].
  destruct l as [| b l]; [reflexivity |].
  cbn [ascendingb] in *. rewrite IH, andb_true_r.
  inversion Hhd; subst. now apply Qle_bool_iff.
Qed.

(** ** C4: order of the curves kept by the tick *)

Lemma forward_cases s tel :
  forward s tel ->
  new_lap s (t_start tel) = true
  \/ len (delta_list_curr s) = 1%Z
  \/ t_distance tel < 0
  \/ (stale_distance (laptime_curr_of tel) (t_distance tel) = false
      /\ pos_last s <= t_distance tel).
Proof.
  unfold forward, forwardb. rewrite !orb_true_iff, andb_true_iff.
  intros [[[H | H] | H] | [H1 H2]].
  - now left.
  - right. left. now apply Z.eqb_eq.
  - right. right. left. now apply Qltb_lt.
  - right. right. right. split; [now apply negb_true_iff | now apply Qle_bool_iff].
Qed.

Lemma sentinel_only (c : list row) :
  sentinel_first c -> len c = 1%Z -> c = [DELTA_ZERO].
Proof.
  intros [rest ->] H. rewrite len_cons in H.
  destruct rest; [reflexivity |]. rewrite len_cons in H.
  pose proof (len_nonneg rest). lia.
Qed.

Lemma distances_snoc (c : list row) (r : row) :
  distances (c ++ [r]) = distances c ++ [distance_of r].
Proof. unfold distances. now rewrite map_app. Qed.

Lemma sentinel_first_snoc (c : list row) (r : row) :
  sentinel_first c -> sentinel_first (c ++ [r]).
Proof. intros [rest ->]. now exists (rest ++ [r]). Qed.

Lemma below_weaken (c : list row) (p q : Q) : below c p -> p <= q -> below c q.
Proof.
  unfold below. intros H Hpq. eapply Forall_impl; [| exact H].
  cbv beta. intros d Hd. lra.
Qed.

Lemma sorted_curve_snoc (c : list row) (r : row) :
  sorted_curve c -> below c (distance_of r) -> sorted_curve (c ++ [r]).
Proof.
  unfold sorted_curve, below. intros HS HB. rewrite distances_snoc.
  now apply Sorted_Qle_snoc.
Qed.

Lemma below_snoc (c : list row) (r : row) (p : Q) :
  below c p -> distance_of r <= p -> below (c ++ [r]) p.
Proof.
  unfold below. intros HB Hr. rewrite distances_snoc.
  apply Forall_app. split; [exact HB | now constructor].
Qed.

Lemma sorted_sentinel : sorted_curve [DELTA_ZERO].
Proof. repeat constructor. Qed.

Lemma sentinel_first_sentinel : sentinel_first [DELTA_ZERO].
Proof. now exists []. Qed.

Lemma below_sentinel (p : Q) : 0 <= p -> below [DELTA_ZERO] p.
Proof. intro H. repeat constructor. exact H. Qed.

(** *** The steps that leave the curves alone *)

Lemma read_pit_lap_ok s b : curves_ok s -> curves_ok (read_pit_lap s b).
Proof. intros [H1 H2 H3 H4 H5 H6]. constructor; assumption. Qed.

Lemma fuel_consumption_ok s a : curves_ok s -> curves_ok (fuel_consumption s a).
Proof.
  intros [H1 H2 H3 H4 H5 H6]. unfold fuel_consumption.
  destruct (Qltb (amount_last s) a); [constructor; assumption |].
  destruct (Qltb a (amount_last s)); constructor; assumption.
Qed.

Lemma fuel_consumption_same s a :
  delta_list_curr (fuel_consumption s a) = delta_list_curr s
  /\ pos_last (fuel_consumption s a) = pos_last s
  /\ last_lap_stime (fuel_consumption s a) = last_lap_stime s.
Proof.
  unfold fuel_consumption.
  destruct (Qltb (amount_last s) a); [repeat split |].
  destruct (Qltb a (amount_last s)); repeat split.
Qed.

Lemma forward_before_detection s tel :
  forward s tel ->
  forward (fuel_consumption (read_pit_lap s (t_in_pits tel)) (t_fuel tel)) tel.
Proof.
  destruct (fuel_consumption_same (read_pit_lap s (t_in_pits tel)) (t_fuel tel))
    as (Hc & Hp & Hl).
  unfold forward, forwardb, new_lap. rewrite Hc, Hp, Hl. exact (fun H => H).
Qed.

(** *** The steps that change the curves *)

Lemma lap_recorded_longer s :
  lap_recorded s = true -> delta_list_curr s <> [DELTA_ZERO].
Proof.
  unfold lap_recorded. intros H E. rewrite E in H. discriminate.
Qed.

Lemma end_sample_above s start :
  0 <= pos_last s -> below (delta_list_curr s) (round6 (pos_last s)) ->
  below (delta_list_curr s) (distance_of (end_sample s start)).
Proof.
  intros H0 HB. apply (below_weaken _ _ _ HB).
  unfold end_sample, distance_of. cbn [nth]. apply round6_mono. lra.
Qed.

Lemma lap_detection_ok s start t d :
  curves_ok s -> curves_ok (lap_detection s start t d).
Proof.
  intros [H1 H2 H3 H4 H5 H6]. unfold lap_detection.
  destruct (new_lap s start); [| constructor; assumption].
  constructor; cbn.
  - apply sorted_sentinel.
  - destruct (lap_recorded s) eqn:R; [| assumption].
    destruct H6 as [E | [H0 HB]]; [now apply lap_recorded_longer in R |].
    apply sorted_curve_snoc; [assumption | now apply end_sample_above].
  - assumption.
  - apply sentinel_first_sentinel.
  - destruct (lap_recorded s); [now apply sentinel_first_snoc | assumption].
  - now left.
Qed.

Lemma lap_detection_new s start t d :
  new_lap s start = true ->
  delta_list_curr (lap_detection s start t d) = [DELTA_ZERO].
Proof. unfold lap_detection. now intros ->. Qed.

Lemma lap_detection_same s start t d :
  new_lap s start = false ->
  delta_list_curr (lap_detection s start t d) = delta_list_curr s
  /\ pos_last (lap_detection s start t d) = pos_last s.
Proof. unfold lap_detection. intros ->. now split. Qed.

Lemma distance_check_ok s t d :
  curves_ok s ->
  (stale_distance t d = true -> delta_list_curr s = [DELTA_ZERO]) ->
  curves_ok (fst (distance_check s t d)).
Proof.
  intros [H1 H2 H3 H4 H5 H6] Hs. unfold distance_check.
  destruct (stale_distance t d); [| constructor; assumption].
  constructor; cbn; try assumption. left. now apply Hs.
Qed.

Lemma distance_check_ready s t d :
  (stale_distance t d = true -> delta_list_curr s = [DELTA_ZERO]) ->
  ready s d ->
  ready (fst (distance_check s t d)) (snd (distance_check s t d)).
Proof.
  intros Hs Hr. unfold distance_check.
  destruct (stale_distance t d); [| exact Hr].
  left. cbn. now apply Hs.
Qed.

Lemma record_position_ok s p :
  curves_ok s -> ready s p -> curves_ok (record_position s p).
Proof.
  intros [H1 H2 H3 H4 H5 H6] Hr. unfold record_position.
  destruct (position_changed s p) eqn:C; [| constructor; assumption].
  unfold position_changed in C. apply andb_true_iff in C.
  destruct C as [C0 _]. apply Qle_bool_iff in C0.
  destruct (position_further s p) eqn:F.
  - (* a sample is appended *)
    unfold position_further in F. apply andb_true_iff in F.
    destruct F as [_ F]. apply Qltb_lt in F.
    assert (HB : below (delta_list_curr s) (round6 p)).
    { destruct H6 as [-> | [H0 HB]].
      - apply below_sentinel. now apply round6_nonneg.
      - apply (below_weaken _ _ _ HB). apply round6_mono. lra. }
    constructor; cbn; try assumption.
    + now apply sorted_curve_snoc.
    + now apply sentinel_first_snoc.
    + right. split; [exact C0 |]. apply below_snoc; [exact HB |].
      unfold distance_of. cbn [nth]. apply Qle_refl.
  - (* the position moves without a sample *)
    constructor; cbn; try assumption.
    destruct H6 as [E | [H0 HB]]; [now left |].
    destruct Hr as [E | [Hneg | Hle]]; [now left | lra |].
    right. split; [exact C0 |].
    apply (below_weaken _ _ _ HB). now apply round6_mono.
Qed.

Lemma validation_ok s t v : curves_ok s -> curves_ok (validation s t v).
Proof.
  intros [H1 H2 H3 H4 H5 H6]. unfold validation.
  destruct (validating s); [| constructor; assumption].
  destruct (Qltb (2 # 10) t && Qle_bool t 3).
  - destruct (Qltb 0 v); [| constructor; assumption].
    constructor; cbn; try assumption.
    + apply sorted_sentinel.
    + apply sentinel_first_sentinel.
  - destruct (Qltb 3 t && Qltb t 5); constructor; assumption.
Qed.

(** One tick of lap tracking keeps the curves in order when the reading does
    not take the recorder backwards. *)
Lemma track_lap_ok s tel : curves_ok s -> forward s tel -> curves_ok (track_lap s tel).
Proof.
  intros Hok Hfw. unfold track_lap.
  set (s2 := fuel_consumption (read_pit_lap s (t_in_pits tel)) (t_fuel tel)).
  assert (Hok2 : curves_ok s2) by (apply fuel_consumption_ok, read_pit_lap_ok, Hok).
  assert (Hfw2 : forward s2 tel) by (apply forward_before_detection, Hfw).
  clearbody s2. clear s Hok Hfw.
  apply forward_cases in Hfw2.
  assert (Hone : len (delta_list_curr s2) = 1%Z -> delta_list_curr s2 = [DELTA_ZERO])
    by (apply sentinel_only, Hok2).
  set (t := laptime_curr_of tel) in *.
  set (s3 := lap_detection s2 (t_start tel) t (t_distance tel)).
  assert (Hok3 : curves_ok s3) by (apply lap_detection_ok, Hok2).
  assert (Hst : stale_distance t (t_distance tel) = true ->
                delta_list_curr s3 = [DELTA_ZERO]).
  { intro St. subst s3. destruct (new_lap s2 (t_start tel)) eqn:N.
    - now apply lap_detection_new.
    - destruct (lap_detection_same s2 (t_start tel) t (t_distance tel) N) as [-> _].
      destruct Hfw2 as [H | [H | [H | [H _]]]];
        [congruence | exact (Hone H) | | congruence].
      unfold stale_distance in St. apply andb_true_iff in St.
      destruct St as [_ St]. apply Qltb_lt in St. lra. }
  assert (Hr3 : ready s3 (t_distance tel)).
  { subst s3. destruct (new_lap s2 (t_start tel)) eqn:N.
    - left. now apply lap_detection_new.
    - destruct (lap_detection_same s2 (t_start tel) t (t_distance tel) N)
        as [Ec Ep].
      unfold ready. rewrite Ec, Ep.
      destruct Hfw2 as [H | [H | [H | [_ H]]]];
        [congruence | left; exact (Hone H) | right; now left | right; now right]. }
  pose proof (distance_check_ok s3 t (t_distance tel) Hok3 Hst) as Hok4.
  pose proof (distance_check_ready s3 t (t_distance tel) Hst Hr3) as Hr4.
  destruct (distance_check s3 t (t_distance tel)) as [s4 p]. cbn [fst snd] in *.
  apply validation_ok, record_position_ok; assumption.
Qed.

Lemma reset_lap_state_ok (loaded : list row * Q * Q) :
  sorted_curve (fst (fst loaded)) -> curves_ok (reset_lap_state loaded).
Proof.
  destruct loaded as [[l u] t]. cbn [fst]. intro HS.
  constructor; cbn.
  - apply sorted_sentinel.
  - apply sorted_sentinel.
  - exact HS.
  - apply sentinel_first_sentinel.
  - apply sentinel_first_sentinel.
  - now left.
Qed.

Lemma track_laps_ok (tels : list telemetry) : forall s,
  curves_ok s -> forward_run s tels -> curves_ok (track_laps s tels).
Proof.
  unfold track_laps. induction tels as [| tel rest IH]; intros s Hok Hrun.
  - exact Hok.
  - unfold forward_run in Hrun. cbn [forward_runb] in Hrun.
    apply andb_true_iff in Hrun. destruct Hrun as [Hfw Hrest]. cbn [fold_left].
    apply IH; [now apply track_lap_ok | exact Hrest].
Qed.

(** The whole tick changes the three curves and [pos_last] as its lap
    tracking part does. *)
Lemma tick_tracks math_dist st tel st' :
  tick math_dist st tel = Ok st' ->
  delta_list_curr (fst st') = delta_list_curr (track_lap (fst st) tel)
  /\ delta_list_temp (fst st') = delta_list_temp (track_lap (fst st) tel)
  /\ delta_list_last (fst st') = delta_list_last (track_lap (fst st) tel)
  /\ pos_last (fst st') = pos_last (track_lap (fst st) tel).
Proof.
  unfold tick. set (s := track_lap (fst st) tel). intro H.
  destruct (calc_delta math_dist s (snd st) tel) as [[s1 e1] | x] eqn:D;
    cbn [bind fst snd] in H; [| discriminate].
  destruct (project s1 e1 tel) as [e2 | x]; cbn [bind] in H; [| discriminate].
  injection H as <-. cbn [fst].
  unfold calc_delta in D.
  destruct (gps_differs (gps_last (snd st)) (t_position tel)).
  - destruct (delta_telemetry _ _ _ _ _); cbn [bind] in D; [| discriminate].
    injection D as <- _. repeat split.
  - injection D as <- _. repeat split.
Qed.

(** C4, as stated, fails.  After the move back, the sample at 60 m is appended
    behind the sample at 100 m, because the test of line 159 compares with the
    last checked position (50 m) and not with the last recorded distance; the
    lap is then staged and committed, so the curve in progress and the
    reference curve are both out of order.  Besides, [DELTA_ZERO] has two
    fields, not three, and the reference curve of a session without a stored
    curve starts with (99999, 0, 0). *)
Lemma curve_out_of_order :
  let s5 := track_laps (reset_lap_state default_curve) (firstn 5 backward_move) in
  let s7 := track_laps (reset_lap_state default_curve) backward_move in
  curve_eq (delta_list_curr s5) [[0; 0]; [100; 1]; [60; 1]]
  /\ ~ sorted_curve (delta_list_curr s5)
  /\ curve_eq (delta_list_last s7) [[0; 0]; [100; 1]; [60; 1]; [70; 2; 90]]
  /\ ~ sorted_curve (delta_list_last s7)
  /\ DELTA_ZERO <> [0; 0; 0]
  /\ delta_list_last (reset_lap_state default_curve) = [[99999; 0; 0]].
Proof.
  intros s5 s7.
  split; [vm_compute; repeat constructor |].
  split; [intro H; apply Sorted_Qle_ascendingb in H; vm_compute in H; discriminate |].
  split; [vm_compute; repeat constructor |].
  split; [intro H; apply Sorted_Qle_ascendingb in H; vm_compute in H; discriminate |].
  split; [discriminate | reflexivity].
Qed.

(** The run [backward_move] is not one that the amended claim covers. *)
Lemma backward_move_not_forward :
  forward_runb (reset_lap_state default_curve) backward_move = false.
Proof. vm_compute. reflexivity. Qed.

(** The first rows, whatever the readings. *)
Lemma track_lap_sentinels (loaded : list row) s tel :
  sentinels loaded s -> sentinels loaded (track_lap s tel).
Proof.
  intro H. unfold track_lap.
  assert (H2 : sentinels loaded
                 (fuel_consumption (read_pit_lap s (t_in_pits tel)) (t_fuel tel))).
  { unfold fuel_consumption.
    destruct (Qltb _ (t_fuel tel)); [exact H |].
    destruct (Qltb (t_fuel tel) _); exact H. }
  clear H. revert H2.
  generalize (fuel_consumption (read_pit_lap s (t_in_pits tel)) (t_fuel tel)).
  clear s. intros s (Hc & Ht & Hl).
  assert (H3 : sentinels loaded
                 (lap_detection s (t_start tel) (laptime_curr_of tel) (t_distance tel))).
  { unfold lap_detection.
    destruct (new_lap s (t_start tel)); [| now repeat split].
    split; [apply sentinel_first_sentinel |]. split; [| exact Hl]. cbn.
    destruct (lap_recorded s); [now apply sentinel_first_snoc | exact Ht]. }
  clear Hc Ht Hl. revert H3.
  generalize (lap_detection s (t_start tel) (laptime_curr_of tel) (t_distance tel)).
  clear s. intros s H.
  assert (H4 : sentinels loaded
                 (fst (distance_check s (laptime_curr_of tel) (t_distance tel)))).
  { unfold distance_check. destruct (stale_distance _ _); exact H. }
  clear H. destruct (distance_check s (laptime_curr_of tel) (t_distance tel))
    as [s4 p]. cbn [fst] in H4. destruct H4 as (Hc & Ht & Hl).
  assert (H5 : sentinels loaded (record_position s4 p)).
  { unfold record_position.
    destruct (position_changed s4 p); [| now repeat split].
    split; [| now split]. cbn.
    destruct (position_further s4 p); [now apply sentinel_first_snoc | exact Hc]. }
  clear Hc Ht Hl. revert H5. generalize (record_position s4 p).
  clear s s4 p. intros s (Hc & Ht & Hl).
  unfold validation.
  destruct (validating s); [| now repeat split].
  destruct (Qltb (2 # 10) (laptime_curr_of tel) && Qle_bool (laptime_curr_of tel) 3).
  - destruct (Qltb 0 (t_last_laptime tel)); [| now repeat split].
    split; [exact Hc |]. split; [apply sentinel_first_sentinel |].
    right. exact Ht.
  - destruct (Qltb 3 (laptime_curr_of tel) && Qltb (laptime_curr_of tel) 5);
      now repeat split.
Qed.

Lemma track_laps_sentinels (loaded : list row) (tels : list telemetry) : forall s,
  sentinels loaded s -> sentinels loaded (track_laps s tels).
Proof.
  unfold track_laps. induction tels as [| tel rest IH]; intros s H; [exact H |].
  cbn [fold_left]. apply IH. now apply track_lap_sentinels.
Qed.

(** C4, amended.  After any run from the reset state the curve in progress
    and the staged curve start with [DELTA_ZERO], the row (0.0, 0.0), and the
    reference curve is the curve loaded or starts with [DELTA_ZERO] as well.
    When lap detection stages a lap, the staged curve is the curve of the lap
    followed by the terminal sample, whose distance is the last checked
    position plus 10, rounded to six decimals.  With an ordered curve
    loaded, as long as no reading takes the recorder backwards (each reading
    starts a new lap, or comes before the first sample of the lap, or has a
    negative distance, or is kept as read and is not behind the last checked
    position), the curve in progress, the staged curve and the reference
    curve are ordered by non-decreasing distance. *)
Theorem curves_stay_sorted (loaded : list row * Q * Q) (tels : list telemetry) :
  let s := track_laps (reset_lap_state loaded) tels in
  (sentinel_first (delta_list_curr s)
   /\ sentinel_first (delta_list_temp s)
   /\ (delta_list_last s = fst (fst loaded) \/ sentinel_first (delta_list_last s)))
  /\ DELTA_ZERO = [0; 0]
  /\ (forall s0 start laptime_curr pos_curr,
        let s' := lap_detection s0 start laptime_curr pos_curr in
        delta_list_temp s' = delta_list_temp s0
        \/ (new_lap s0 start = true
            /\ lap_recorded s0 = true
            /\ delta_list_temp s' = delta_list_curr s0 ++ [end_sample s0 start]
            /\ distance_of (end_sample s0 start) = round6 (pos_last s0 + 10)))
  /\ (sorted_curve (fst (fst loaded)) ->
      forward_run (reset_lap_state loaded) tels ->
      sorted_curve (delta_list_curr s)
      /\ sorted_curve (delta_list_temp s)
      /\ sorted_curve (delta_list_last s)).
Proof.
  intro s. split; [| split; [reflexivity | split]].
  - apply track_laps_sentinels.
    destruct loaded as [[l u] t]. cbn.
    split; [apply sentinel_first_sentinel |].
    split; [apply sentinel_first_sentinel | now left].
  - intros s0 start laptime_curr pos_curr. cbv zeta. unfold lap_detection.
    destruct (new_lap s0 start); [| now left].
    destruct (lap_recorded s0); [| now left].
    right. now repeat split.
  - intros HS Hrun.
    assert (Hok : curves_ok s)
      by (apply track_laps_ok; [now apply reset_lap_state_ok | exact Hrun]).
    destruct Hok as [H1 H2 H3 _ _ _]. repeat split; assumption.
Qed.

Lemma curves_stay_sorted_witness :
  let s := track_laps (reset_lap_state default_curve) unconfirmed_lap in
  forward_run (reset_lap_state default_curve) unconfirmed_lap
  /\ curve_eq (delta_list_curr s) [[0; 0]; [150; 0]; [250; 0]]
  /\ sorted_curve (delta_list_curr s)
  /\ sorted_curve (delta_list_temp s)
  /\ sorted_curve (delta_list_last s).
Proof.
  intro s.
  assert (HS : sorted_curve (fst (fst default_curve))) by (repeat constructor).
  assert (Hrun : forward_run (reset_lap_state default_curve) unconfirmed_lap)
    by (vm_compute; reflexivity).
  split; [exact Hrun |].
  split; [vm_compute; repeat constructor |].
  destruct (curves_stay_sorted default_curve unconfirmed_lap) as (_ & _ & _ & H).
  exact (H HS Hrun).
Defined.

(** ** C5: the round trip through the store *)

Lemma open_read_written fs name f :
  fs name <> Some WriteOnly -> open_read (write_file fs name f) name = Ok f.
Proof.
  intro H. unfold open_read, write_file. rewrite String.eqb_refl.
  destruct (fs name) as [[g |] |]; [reflexivity | contradiction | reflexivity].
Qed.

Lemma traverse_map_ok {A B : Type} (f : A -> result B) (g : A -> B) (l : list A) :
  (forall a, f a = Ok (g a)) -> traverse f l = Ok (map g l).
Proof.
  intro H. induction l as [| a l IH]; [reflexivity |].
  cbn [traverse map]. rewrite H, IH. reflexivity.
Qed.

Lemma csv_reader_written (listname : list row) :
  csv_reader (csv_writerows listname) = Ok (map (map Fin) listname).
Proof.
  unfold csv_reader, csv_writerows.
  induction listname as [| r l IH]; [reflexivity |].
  cbn [traverse map].
  assert (Hr : traverse read_cell (map Numeral r) = Ok (map Fin r)).
  { induction r as [| q r IHr]; [reflexivity |].
    cbn [traverse map read_cell bind]. now rewrite IHr. }
  rewrite Hr. cbn [bind]. now rewrite IH.
Qed.

Lemma finite_row_Fin (r : row) : finite_row (map Fin r) = Some r.
Proof.
  induction r as [| q r IH]; [reflexivity |].
  cbn [finite_row map]. now rewrite IH.
Qed.

Lemma py_getitem_head (r : row) : r <> [] -> py_getitem r 0 = Ok (distance_of r).
Proof. destruct r; [contradiction | reflexivity]. Qed.

(** Validation keeps an ordered curve of finite rows as it is. *)
Lemma delta_list_from_keeps (curve : list row) : forall prev,
  Forall (fun r => r <> []) curve ->
  sorted_curve curve ->
  match prev with
  | None => True
  | Some p => Forall (fun d => p <= d) (firstn 1 (distances curve))
  end ->
  delta_list_from prev (map (map Fin) curve) = Ok curve.
Proof.
  induction curve as [| r curve IH]; intros prev HN HS HP; [reflexivity |].
  inversion HN as [| ? ? Hr HN']; subst.
  cbn [delta_list_from map]. rewrite finite_row_Fin, (py_getitem_head r Hr).
  cbn [bind].
  assert (Hkeep : match prev with
                  | None => true
                  | Some p => Qle_bool p (distance_of r)
                  end = true).
  { destruct prev as [p |]; [| reflexivity].
    cbn in HP. inversion HP; subst. now apply Qle_bool_iff. }
  rewrite Hkeep.
  unfold sorted_curve in HS. cbn [distances map] in HS.
  inversion HS as [| ? ? HS' Hhd]; subst.
  rewrite (IH (Some (distance_of r)) HN' HS'); [reflexivity |].
  destruct curve as [| r' curve]; cbn; [constructor |].
  inversion Hhd; subst. constructor; [assumption | constructor].
Qed.

Lemma nth_error_last {A : Type} (l : list A) (d : A) :
  l <> [] -> nth_error l (length l - 1) = Some (last l d).
Proof.
  induction l as [| a l IH]; intro H; [contradiction |].
  destruct l as [| b l]; [reflexivity |].
  replace (length (a :: b :: l) - 1)%nat with (S (length (b :: l) - 1))
    by (cbn [length]; lia).
  cbn [nth_error]. rewrite IH by discriminate. reflexivity.
Qed.

Lemma py_getitem_last {A : Type} (l : list A) (d : A) :
  l <> [] -> py_getitem l (-1) = Ok (last l d).
Proof.
  intro H. unfold py_getitem. cbn [Z.ltb Z.compare].
  assert (Hl : (0 < len l)%Z)
    by (destruct l; [contradiction | rewrite len_cons; pose proof (len_nonneg l); lia]).
  destruct (len l + -1 <? 0)%Z eqn:E; [apply Z.ltb_lt in E; lia |].
  replace (Z.to_nat (len l + -1)) with (length l - 1)%nat by (unfold len; lia).
  now rewrite (nth_error_last l d H).
Qed.

Lemma py_getitem_fields (r : row) :
  (3 <= length r)%nat ->
  py_getitem r 1 = Ok (fuel_used_of r) /\ py_getitem r 2 = Ok (laptime_of r).
Proof.
  destruct r as [| a [| b [| c r]]]; cbn [length]; try lia. now split.
Qed.

(** C5, as stated, fails on curves that validation does not keep whole, and
    the tick produces such curves: the lap of the run [long_backward], with
    its move back, is committed and saved with eleven rows, and loading it
    returns ten rows and writes the file again.  It also fails on a file
    that cannot be read. *)
Lemma save_load_drops_rows :
  let s := track_laps (reset_lap_state default_curve) long_backward in
  let fs := leave_session empty_store "Spa - GT3" s in
  len (delta_list_last s) = 11%Z
  /\ fs (fuel_path "Spa - GT3") = Some (Readable (csv_writerows (delta_list_last s)))
  /\ (exists fs' l u t,
        load_deltafuel delta_list fs "Spa - GT3" = Ok (fs', (l, u, t))
        /\ len l = 10%Z
        /\ fs' (fuel_path "Spa - GT3") = Some (Readable (csv_writerows l)))
  /\ load_deltafuel delta_list
       (save_deltafuel malformed_store "locked" stored_lap) "locked"
     = Raise PermissionError.
Proof.
  intros s fs.
  split; [vm_compute; reflexivity |].
  split; [vm_compute; reflexivity |].
  split; [| vm_compute; reflexivity].
  do 4 eexists. split; [vm_compute; reflexivity |].
  split; vm_compute; reflexivity.
Qed.

(** C5, amended.  Saving a curve of at least ten samples and loading it again
    returns the same samples (and so the same samples up to rounding), with
    the fuel used and the laptime of its last row, and leaves the file as
    saved, whenever the curve is one that validation keeps whole (rows with a
    distance, in non-decreasing order of distance, the last row with its
    three fields) and the file of the combo, if there is one, can be read.
    Saving a curve of fewer than ten samples leaves the store as it was. *)
Theorem save_load_round_trip (fs : store) (combo : string) (curve : list row) :
  ((10 <= len curve)%Z -> storable curve ->
   fs (fuel_path combo) <> Some WriteOnly ->
     load_deltafuel delta_list (save_deltafuel fs combo curve) combo
       = Ok (save_deltafuel fs combo curve,
             (curve, fuel_used_of (last curve []), laptime_of (last curve []))))
  /\ ((len curve < 10)%Z -> save_deltafuel fs combo curve = fs).
Proof.
  split.
  - intros Hlen (HN & HS & HL) HR.
    assert (Hne : curve <> []) by (intros ->; unfold len in Hlen; cbn in Hlen; lia).
    unfold load_deltafuel, load_body, save_deltafuel.
    rewrite (proj2 (Z.leb_le 10 (len curve)) Hlen).
    rewrite (open_read_written _ _ _ HR). cbn [bind].
    rewrite csv_reader_written. cbn [bind].
    unfold delta_list. rewrite (delta_list_from_keeps curve None HN HS I).
    cbn [bind].
    rewrite (py_getitem_last curve [] Hne). cbn [bind].
    destruct (py_getitem_fields _ HL) as [-> ->]. cbn [bind].
    rewrite len_map, Z.eqb_refl. reflexivity.
  - intro Hlen. unfold save_deltafuel.
    now rewrite (proj2 (Z.leb_gt 10 (len curve)) Hlen).
Qed.

Lemma save_load_round_trip_witness :
  let fs := save_deltafuel empty_store "Spa - GT3" stored_lap in
  (10 <= len stored_lap)%Z
  /\ storable stored_lap
  /\ load_deltafuel delta_list fs "Spa - GT3" = Ok (fs, (stored_lap, 9, 90))
  /\ save_deltafuel empty_store "Spa - GT3" (firstn 9 stored_lap) = empty_store.
Proof.
  intro fs.
  assert (Hlen : (10 <= len stored_lap)%Z) by (vm_compute; discriminate).
  assert (Hst : storable stored_lap).
  { split; [repeat constructor; discriminate |].
    split; [repeat constructor; discriminate | cbn; lia]. }
  assert (HR : empty_store (fuel_path "Spa - GT3") <> Some WriteOnly)
    by discriminate.
  split; [exact Hlen |]. split; [exact Hst |].
  destruct (save_load_round_trip empty_store "Spa - GT3" stored_lap) as [H1 _].
  destruct (save_load_round_trip empty_store "Spa - GT3" (firstn 9 stored_lap))
    as [_ H2].
  split; [exact (H1 Hlen Hst HR) | apply H2; vm_compute; reflexivity].
Defined.

(** ** C6: loading fails softly *)

Lemma py_getitem_raises {A : Type} (l : list A) (i : Z) (e : exn) :
  py_getitem l i = Raise e -> e = IndexError.
Proof.
  unfold py_getitem.
  destruct ((if (i <? 0)%Z then (len l + i)%Z else i) <? 0)%Z;
    [now intros [= <-] |].
  destruct (nth_error l _); [discriminate | now intros [= <-]].
Qed.

Lemma traverse_raises {A B : Type} (f : A -> result B) (P : exn -> Prop)
    (l : list A) (e : exn) :
  Forall (fun a => forall e', f a = Raise e' -> P e') l ->
  traverse f l = Raise e -> P e.
Proof.
  induction 1 as [| a l Ha _ IH]; [discriminate |].
  cbn [traverse]. destruct (f a) eqn:Fa; cbn [bind].
  - destruct (traverse f l); cbn [bind]; [discriminate |].
    intros [= <-]. now apply IH.
  - intros [= <-]. now apply Ha.
Qed.

(** The reader raises [ValueError] at text that is not a number and
    [csv.Error] at a field beyond the limit, and nothing else. *)
Lemma csv_reader_raises (f : csv_file) (e : exn) :
  csv_reader f = Raise e -> e = ValueError \/ e = csv_Error.
Proof.
  unfold csv_reader.
  apply (traverse_raises _ (fun x => x = ValueError \/ x = csv_Error)).
  apply Forall_forall. intros r _ e'.
  apply (traverse_raises _ (fun x => x = ValueError \/ x = csv_Error)).
  apply Forall_forall. intros c _ e''.
  destruct c; cbn; intros [= <-]; [now left | now right].
Qed.

Lemma csv_reader_parsable (f : csv_file) (e : exn) :
  parsable f -> csv_reader f = Raise e -> e = ValueError.
Proof.
  unfold csv_reader, parsable. intro HP.
  apply (traverse_raises _ (fun x => x = ValueError)).
  apply (Forall_impl _ (P := Forall (fun c => c <> Oversized))); [| exact HP].
  intros r Hr e'. apply (traverse_raises _ (fun x => x = ValueError)).
  apply (Forall_impl _ (P := fun c => c <> Oversized)); [| exact Hr].
  intros c Hc e''. destruct c; cbn; intros [= <-]; [reflexivity | contradiction].
Qed.

Lemma delta_list_from_raises (rows : list (list fval)) : forall prev e,
  delta_list_from prev rows = Raise e -> e = IndexError.
Proof.
  induction rows as [| r rows IH]; intros prev e; [discriminate |].
  cbn [delta_list_from].
  destruct (finite_row r) as [fr |]; [| apply IH].
  destruct (py_getitem fr 0) as [d | x] eqn:G; cbn [bind].
  - destruct (match prev with None => true | Some p => Qle_bool p d end);
      [| apply IH].
    destruct (delta_list_from (Some d) rows) eqn:D; cbn [bind]; [discriminate |].
    intros [= <-]. now apply (IH (Some d)).
  - intros [= <-]. now apply py_getitem_raises in G.
Qed.

(** Whatever the [try] block of [load_deltafuel] raises on a file that can
    be read and parsed is named by its [except] clause. *)
Lemma load_body_raises (fs : store) (combo : string) (f : csv_file) (e : exn) :
  fs (fuel_path combo) = Some (Readable f) -> parsable f ->
  load_body delta_list fs combo = Raise e -> caught e = true.
Proof.
  intros Hf HP. unfold load_body, open_read. rewrite Hf. cbn [bind].
  destruct (csv_reader f) as [rows | x] eqn:R; cbn [bind];
    [| intros [= <-]; now rewrite (csv_reader_parsable _ _ HP R)].
  destruct (delta_list rows) as [l | x] eqn:V; cbn [bind];
    [| intros [= <-]; now rewrite (delta_list_from_raises _ _ _ V)].
  destruct (py_getitem l (-1)) as [r |x] eqn:G1; cbn [bind];
    [| intros [= <-]; now rewrite (py_getitem_raises _ _ _ G1)].
  destruct (py_getitem r 1) as [u | x] eqn:G2; cbn [bind];
    [| intros [= <-]; now rewrite (py_getitem_raises _ _ _ G2)].
  destruct (py_getitem r 2) as [t | x] eqn:G3; cbn [bind];
    [discriminate | intros [= <-]; now rewrite (py_getitem_raises _ _ _ G3)].
Qed.

(** The [except] clause at work, for any validator. *)
Lemma load_deltafuel_handles val_delta_list (fs : store) (combo : string) (e : exn) :
  load_body val_delta_list fs combo = Raise e ->
  load_deltafuel val_delta_list fs combo =
    if caught e then Ok (fs, default_curve) else Raise e.
Proof.
  intro H. unfold load_deltafuel, try_except. now rewrite H.
Qed.

Lemma traverse_ok_each {A B : Type} (f : A -> result B) (l : list A) (bs : list B) :
  traverse f l = Ok bs -> Forall2 (fun a b => f a = Ok b) l bs.
Proof.
  revert bs. induction l as [| a l IH]; intros bs H.
  - injection H as <-. constructor.
  - cbn [traverse] in H. destruct (f a) as [b |] eqn:Fa; cbn [bind] in H;
      [| discriminate].
    destruct (traverse f l) as [bs' |]; cbn [bind] in H; [| discriminate].
    injection H as <-. constructor; [exact Fa | now apply IH].
Qed.

Lemma has_garbage_unreadable (f : csv_file) :
  has_garbage f -> parsable f -> csv_reader f = Raise ValueError.
Proof.
  intros HG HP. destruct (csv_reader f) as [rows | e] eqn:R.
  - exfalso. apply traverse_ok_each in R.
    induction R as [| r fr f' rows' Hr _ IH]; inversion HG; subst.
    + apply traverse_ok_each in Hr. clear - Hr H0.
      induction Hr as [| c v r' fr' Hc _ IH']; inversion H0; subst.
      * discriminate.
      * now apply IH'.
    + inversion HP; subst. now apply IH.
  - now rewrite (csv_reader_parsable _ _ HP R).
Qed.

Lemma csv_reader_empty_row (f : csv_file) (rows : list (list fval)) :
  csv_reader f = Ok rows -> has_empty_row f -> In [] rows.
Proof.
  intros R HE. apply traverse_ok_each in R. unfold has_empty_row in HE.
  induction R as [| r fr f' rows' Hr _ IH]; [contradiction |].
  destruct HE as [-> | HE].
  - left. cbn in Hr. now injection Hr.
  - right. now apply IH.
Qed.

Lemma delta_list_from_empty_row (rows : list (list fval)) :
  In [] rows -> forall prev, delta_list_from prev rows = Raise IndexError.
Proof.
  induction rows as [| r rows IH]; intros HI prev; [contradiction |].
  destruct HI as [-> | HI]; [reflexivity |].
  cbn [delta_list_from].
  destruct (finite_row r) as [fr |]; [| now apply IH].
  destruct (py_getitem fr 0) as [d | x] eqn:G; cbn [bind].
  - destruct (match prev with None => true | Some p => Qle_bool p d end);
      [| now apply IH].
    now rewrite (IH HI (Some d)).
  - now rewrite (py_getitem_raises _ _ _ G).
Qed.

Lemma py_getitem_short (r : row) :
  (length r < 3)%nat ->
  py_getitem r 1 = Raise IndexError \/ py_getitem r 2 = Raise IndexError.
Proof.
  destruct r as [| a [| b [| c r]]]; cbn [length]; intro H;
    [now left | now left | now right | lia].
Qed.

(** C6, as stated, fails.  A file with a row that lacks its fuel field, in
    the middle, is not replaced by the default curve: it is loaded as the
    reference curve, and the first tick that interpolates there raises
    [IndexError].  And [load_deltafuel] does raise: the [csv.Error] of the
    reader and the [PermissionError] of [open] are not named by the [except]
    clause. *)
Lemma load_keeps_malformed_file :
  let gap := [[0; 0]; [5]; [10; 1; 90]] in
  load_deltafuel delta_list malformed_store "gap"
    = Ok (malformed_store, (gap, 1, 90))
  /\ (gap, 1, 90) <> default_curve
  /\ tick (fun _ _ => 0) (reset_lap_state (gap, 1, 90), reset_estimates)
       (reading 10 10 0 2 40) = Raise IndexError
  /\ load_deltafuel delta_list malformed_store "long" = Raise csv_Error
  /\ load_deltafuel delta_list malformed_store "locked" = Raise PermissionError.
Proof.
  intro gap.
  split; [vm_compute; reflexivity |].
  split; [discriminate |].
  split; [vm_compute; reflexivity |].
  split; vm_compute; reflexivity.
Qed.

(** C6, amended.  [load_deltafuel] returns the default curve [(99999, 0, 0)]
    with zero usage and zero laptime, and leaves the store as it is, when the
    file is missing and, for a file that can be read and parsed, when a
    field is not a number, when a row has no field, and when validation keeps
    no row or keeps a last row without its three fields.
    Besides, the three last parts say what happens otherwise: a file whose
    validated rows end with a three-field row is loaded, the rows kept being
    returned with the usage and the laptime of the last one; the exception
    of a file that cannot be read, and an exception of the reader that the
    [except] clause does not name, are raised to the caller. *)
Theorem load_fails_softly (fs : store) (combo : string) :
  (fs (fuel_path combo) = None ->
     load_deltafuel delta_list fs combo = Ok (fs, default_curve))
  /\ (forall f, fs (fuel_path combo) = Some (Readable f) ->
        (parsable f /\ (has_garbage f \/ has_empty_row f))
        \/ (exists l, validated f l /\ (l = [] \/ (length (last l []) < 3)%nat)) ->
        load_deltafuel delta_list fs combo = Ok (fs, default_curve))
  /\ (forall f l, fs (fuel_path combo) = Some (Readable f) ->
        validated f l -> (3 <= length (last l []))%nat ->
        exists fs',
          load_deltafuel delta_list fs combo
            = Ok (fs', (l, fuel_used_of (last l []), laptime_of (last l []))))
  /\ (fs (fuel_path combo) = Some WriteOnly ->
        load_deltafuel delta_list fs combo = Raise PermissionError)
  /\ (forall f e, fs (fuel_path combo) = Some (Readable f) ->
        csv_reader f = Raise e -> caught e = false ->
        load_deltafuel delta_list fs combo = Raise e).
Proof.
  split; [| split; [| split; [| split]]].
  - intro H.
    rewrite (load_deltafuel_handles delta_list fs combo FileNotFoundError);
      [reflexivity |].
    unfold load_body, open_read. now rewrite H.
  - intros f Hf Hbad.
    assert (Hraise : exists e, load_body delta_list fs combo = Raise e
                               /\ caught e = true).
    { unfold load_body, open_read. rewrite Hf. cbn [bind].
      destruct Hbad as [[HP [HG | HE]] | (l & (rows & HR & HV) & Hl)].
      - rewrite (has_garbage_unreadable f HG HP). now eexists.
      - destruct (csv_reader f) as [rows | e] eqn:R; cbn [bind].
        + pose proof (csv_reader_empty_row f rows R HE) as HI.
          unfold delta_list. rewrite (delta_list_from_empty_row rows HI None).
          now eexists.
        + rewrite (csv_reader_parsable _ _ HP R). now eexists.
      - rewrite HR. cbn [bind]. rewrite HV. cbn [bind].
        destruct Hl as [-> | Hshort]; [now eexists |].
        destruct (py_getitem l (-1)) as [r | e] eqn:G; cbn [bind];
          [| rewrite (py_getitem_raises _ _ _ G); now eexists].
        assert (Hr : r = last l []).
        { destruct l as [| r0 l0]; [discriminate |].
          rewrite (py_getitem_last (r0 :: l0) []) in G by discriminate.
          now injection G. }
        subst r. destruct (py_getitem_short _ Hshort) as [-> | H2];
          cbn [bind]; [now eexists |].
        destruct (py_getitem (last l []) 1) as [u | e] eqn:G1; cbn [bind];
          [| rewrite (py_getitem_raises _ _ _ G1); now eexists].
        rewrite H2. cbn [bind]. now eexists. }
    destruct Hraise as (e & He & Hc).
    rewrite (load_deltafuel_handles delta_list fs combo e He). now rewrite Hc.
  - intros f l Hf (rows & HR & HV) HL.
    assert (Hne : l <> []) by (intros ->; cbn in HL; lia).
    unfold load_deltafuel, try_except, load_body, open_read.
    rewrite Hf. cbn [bind]. rewrite HR. cbn [bind]. rewrite HV. cbn [bind].
    rewrite (py_getitem_last l [] Hne). cbn [bind].
    destruct (py_getitem_fields _ HL) as [-> ->]. cbn [bind].
    now eexists.
  - intro H.
    rewrite (load_deltafuel_handles delta_list fs combo PermissionError);
      [reflexivity |].
    unfold load_body, open_read. now rewrite H.
  - intros f e Hf HR Hc.
    rewrite (load_deltafuel_handles delta_list fs combo e); [now rewrite Hc |].
    unfold load_body, open_read. rewrite Hf. cbn [bind]. now rewrite HR.
Qed.

Lemma load_fails_softly_witness :
  load_deltafuel delta_list unusable_store "none" = Ok (unusable_store, default_curve)
  /\ load_deltafuel delta_list unusable_store "text" = Ok (unusable_store, default_curve)
  /\ load_deltafuel delta_list unusable_store "blank" = Ok (unusable_store, default_curve)
  /\ load_deltafuel delta_list unusable_store "short" = Ok (unusable_store, default_curve)
  /\ load_deltafuel delta_list unusable_store "nan" = Ok (unusable_store, default_curve)
  /\ load_deltafuel delta_list malformed_store "long" = Raise csv_Error.
Proof.
  assert (P2 : forall a b : cell, a <> Oversized -> b <> Oversized ->
                 Forall (fun c => c <> Oversized) [a; b])
    by (intros; repeat constructor; assumption).
  split; [| split; [| split; [| split; [| split]]]].
  - apply (proj1 (load_fails_softly unusable_store "none")). reflexivity.
  - apply (proj1 (proj2 (load_fails_softly unusable_store "text"))
             [[Numeral 0; Numeral 0]; [Numeral 1; Garbage]]); [reflexivity |].
    left. split.
    + repeat constructor; discriminate.
    + left. right. left. right. now left.
  - apply (proj1 (proj2 (load_fails_softly unusable_store "blank"))
             [[Numeral 0; Numeral 0]; []]); [reflexivity |].
    left. split.
    + repeat constructor; discriminate.
    + right. right. now left.
  - apply (proj1 (proj2 (load_fails_softly unusable_store "short"))
             [[Numeral 0; Numeral 0]; [Numeral 5; Numeral 1]]); [reflexivity |].
    right. exists [[0; 0]; [5; 1]]. split; [| right; cbn; lia].
    eexists. split; reflexivity.
  - apply (proj1 (proj2 (load_fails_softly unusable_store "nan"))
             [[NonFinite; Numeral 0; Numeral 0]]); [reflexivity |].
    right. exists []. split; [| now left].
    eexists. split; reflexivity.
  - apply (proj2 (proj2 (proj2 (proj2 (load_fails_softly malformed_store "long"))))
             [[Numeral 0; Numeral 0]; [Numeral 5; Oversized]]);
      reflexivity.
Defined.

(** ** The exceptions of a tick *)

Lemma wide_sentinel : Forall wide_row [DELTA_ZERO].
Proof. repeat constructor. Qed.

Lemma wide_snoc (c : list row) (r : row) :
  Forall wide_row c -> wide_row r -> Forall wide_row (c ++ [r]).
Proof.
  intros Hc Hr. apply Forall_app. split; [exact Hc | now constructor].
Qed.

(** The rows that the tick appends have two or three fields. *)
Lemma track_lap_wide s tel : rows_wide s -> rows_wide (track_lap s tel).
Proof.
  intro H. unfold track_lap.
  assert (H2 : rows_wide
                 (fuel_consumption (read_pit_lap s (t_in_pits tel)) (t_fuel tel))).
  { unfold fuel_consumption.
    destruct (Qltb _ (t_fuel tel)); [exact H |].
    destruct (Qltb (t_fuel tel) _); exact H. }
  clear H. revert H2.
  generalize (fuel_consumption (read_pit_lap s (t_in_pits tel)) (t_fuel tel)).
  clear s. intros s (Hc & Ht & Hl).
  assert (H3 : rows_wide
                 (lap_detection s (t_start tel) (laptime_curr_of tel) (t_distance tel))).
  { unfold lap_detection.
    destruct (new_lap s (t_start tel)); [| now repeat split].
    split; [apply wide_sentinel |]. split; [| exact Hl]. cbn.
    destruct (lap_recorded s); [| exact Ht].
    apply wide_snoc; [exact Hc |]. unfold wide_row, end_sample. cbn. lia. }
  clear Hc Ht Hl. revert H3.
  generalize (lap_detection s (t_start tel) (laptime_curr_of tel) (t_distance tel)).
  clear s. intros s H.
  assert (H4 : rows_wide
                 (fst (distance_check s (laptime_curr_of tel) (t_distance tel)))).
  { unfold distance_check. destruct (stale_distance _ _); exact H. }
  clear H. destruct (distance_check s (laptime_curr_of tel) (t_distance tel))
    as [s4 p]. cbn [fst] in H4. destruct H4 as (Hc & Ht & Hl).
  assert (H5 : rows_wide (record_position s4 p)).
  { unfold record_position.
    destruct (position_changed s4 p); [| now repeat split].
    split; [| now split]. cbn.
    destruct (position_further s4 p); [| exact Hc].
    apply wide_snoc; [exact Hc |]. unfold wide_row. cbn. lia. }
  clear Hc Ht Hl. revert H5. generalize (record_position s4 p).
  clear s4 s. intros s (Hc & Ht & Hl).
  unfold validation. destruct (validating s); [| now repeat split].
  destruct (Qltb (2 # 10) (laptime_curr_of tel) && Qle_bool (laptime_curr_of tel) 3).
  - destruct (Qltb 0 (t_last_laptime tel)); [| now repeat split].
    split; [exact Hc |]. split; [apply wide_sentinel | exact Ht].
  - destruct (Qltb 3 (laptime_curr_of tel) && Qltb (laptime_curr_of tel) 5);
      now repeat split.
Qed.

(** [delta_telemetry] returns a value on every curve with wide rows. *)
Lemma delta_telemetry_total (curve : list row) (position live_usage : Q)
    (condition : bool) (offset : Q) :
  Forall wide_row curve ->
  exists v, delta_telemetry position live_usage (map Tup curve) condition offset = Ok v.
Proof.
  intro HW.
  destruct (binary_search_hi_curve curve position HW) as (idx & Hidx & Hlt & _).
  pose proof (delta_telemetry_of_index curve position live_usage condition offset
                idx HW Hidx Hlt) as H.
  destruct (delta_telemetry position live_usage (map Tup curve) condition offset)
    as [v | e]; [now exists v | contradiction].
Qed.

Lemma calc_delta_total math_dist s e tel :
  rows_wide s -> exists se, calc_delta math_dist s e tel = Ok se.
Proof.
  intros (_ & _ & Hl). unfold calc_delta.
  destruct (gps_differs (gps_last e) (t_position tel)); [| now eexists].
  destruct (delta_telemetry_total (delta_list_last s)
              (pos_estimate s + math_dist (snd (gps_last e)) (t_position tel))
              (used_curr s)
              (Qltb (3 # 10) (laptime_curr_of tel) && negb (t_in_garage tel)) 0 Hl)
    as [v ->].
  cbn [bind]. now eexists.
Qed.

(** The guarded divisions of the projection formulas never raise. *)
Lemma guarded_div_total (a b d : Q) :
  exists v, (if truthy b then py_div a b else Ok d) = Ok v.
Proof.
  destruct (truthy b) eqn:T; [| now eexists].
  apply truthy_iff in T. rewrite (py_div_nonzero _ _ T). now eexists.
Qed.

Lemma time_type_full_laps_remain_total a b c :
  exists v, time_type_full_laps_remain a b c = Ok v.
Proof.
  unfold time_type_full_laps_remain.
  destruct (truthy b) eqn:T; [| now eexists].
  apply truthy_iff in T. rewrite (py_div_nonzero _ _ T). cbn [bind].
  rewrite (py_div_nonzero _ _ T). cbn [bind]. now eexists.
Qed.

Lemma end_stint_fuel_total a b c : exists v, end_stint_fuel a b c = Ok v.
Proof.
  unfold end_stint_fuel.
  destruct (truthy c) eqn:T; [| now eexists].
  apply truthy_iff in T. rewrite (py_div_nonzero _ _ T). cbn [bind]. now eexists.
Qed.

Lemma remaining_total s e tel u : exists v, remaining s e tel u = Ok v.
Proof.
  unfold remaining.
  destruct (t_lap_type tel); [now eexists |].
  destruct (Qltb 0 (laptime_last s)); [| now eexists].
  destruct (time_type_full_laps_remain_total (laptime_curr_of tel) (laptime_last s)
              (t_remaining tel)) as [v ->].
  cbn [bind]. now eexists.
Qed.

(** The projections raise only in [end_lap_pit_counts], and only when the
    capacity equals the fuel left before pitting. *)
Lemma project_raises s e tel x :
  project s e tel = Raise x ->
  x = ZeroDivisionError
  /\ exists left_,
       end_stint_fuel (t_fuel tel) (used_curr s)
         (end_lap_consumption (used_last s) (delta_fuel e)
            (negb (pit_lap s) && Qltb 0 (t_total_laps tel))) = Ok left_
       /\ capacity_of tel - left_ == 0.
Proof.
  unfold project.
  set (u := end_lap_consumption (used_last s) (delta_fuel e)
              (negb (pit_lap s) && Qltb 0 (t_total_laps tel))).
  destruct (remaining_total s e tel u) as [rem ->]. cbn [bind].
  destruct (end_stint_fuel_total (t_fuel tel) (used_curr s) u) as [left_ ->].
  cbn [bind].
  unfold end_stint_laps.
  destruct (guarded_div_total (t_fuel tel) u 0) as [laps ->]. cbn [bind].
  unfold end_stint_minutes. rewrite py_div_nonzero by discriminate. cbn [bind].
  unfold end_stint_pit_counts.
  destruct (guarded_div_total (snd rem) (capacity_of tel - left_) 0) as [late ->].
  cbn [bind].
  unfold end_lap_pit_counts.
  match goal with
  | |- context [if truthy ?b then py_div ?a ?b else Ok 1] =>
      destruct (guarded_div_total a b 1) as [before ->]
  end.
  cbn [bind].
  destruct (Qeq_dec (capacity_of tel - left_) 0) as [Hz | Hnz].
  - rewrite (py_div_zero _ _ Hz). cbn [bind]. intros [= <-].
    split; [reflexivity | exists left_; now split].
  - rewrite (py_div_nonzero _ _ Hnz). cbn [bind].
    unfold one_less_pit_stop_consumption.
    match goal with
    | |- context [if truthy ?b then py_div ?a ?b else Ok 0] =>
        destruct (guarded_div_total a b 0) as [w ->]
    end.
    cbn [bind]. discriminate.
Qed.

(** A tick on curves with wide rows raises nothing but the
    [ZeroDivisionError] of [end_lap_pit_counts]. *)
Lemma tick_raises math_dist st tel x :
  rows_wide (fst st) -> tick math_dist st tel = Raise x -> x = ZeroDivisionError.
Proof.
  intros HW. unfold tick.
  destruct (calc_delta_total math_dist (track_lap (fst st) tel) (snd st) tel
              (track_lap_wide _ _ HW)) as [se ->].
  cbn [bind]. destruct (project (fst se) (snd se) tel) as [e' | y] eqn:P;
    cbn [bind]; [discriminate |].
  intros [= <-]. now destruct (project_raises _ _ _ _ P).
Qed.

(** The first tick of a session can meet that case: the stored lap used 2 l,
    the tank holds 1 l and its capacity is taken as 1, so the fuel left before
    pitting is [(1 / 2 % 1) * 2 = 1] and the capacity handed over is 0. *)
Lemma tick_small_tank :
  tick (fun _ _ => 0) (reset_lap_state thirsty_lap, reset_estimates) small_tank
    = Raise ZeroDivisionError.
Proof. vm_compute. reflexivity. Qed.

Section Binary64Scenario.

Import PrimFloat.

(** The scenario of C1 evaluated in binary64: the interpolated value is 2.5
    and the result 0. *)
Lemma delta_telemetry_scenario_binary64 :
  let curve := [[0; 0; 0]; [100; 5; 60]]%float in
  Binary64.linear_interp 50 0 0 100 5 = Ok 2.5%float
  /\ Binary64.delta_telemetry 50 2.5 curve true 0 = Ok 0%float.
Proof. split; reflexivity. Qed.

End Binary64Scenario.

(** * Further properties of the code *)

(** ** [linear_search_hi] *)

Lemma qualifies_test target nearest k :
  Qle_bool target k && below_nearest k nearest = true <-> qualifies target nearest k.
Proof.
  unfold qualifies, below_nearest. rewrite andb_true_iff, Qle_bool_iff.
  destruct nearest as [n |]; [rewrite Qltb_lt |]; intuition.
Qed.

Lemma key_at_head k ks : key_at (k :: ks) 0 = k.
Proof. reflexivity. Qed.

(** The loop over a suffix of the data: either no key of the suffix passes
    the test and [end_] is returned, or the index returned holds the smallest
    passing key of the suffix, at its first occurrence. *)
Lemma linear_search_hi_loop_post column target (data : list pyval) :
  forall (ks : list Q) (index : Z) (nearest : option Q) (end_ : Z),
    has_keys column data ks ->
    exists r,
      linear_search_hi_loop data index target column nearest end_ = Ok r
      /\ ((r = end_
           /\ forall j, (0 <= j < len ks)%Z -> ~ qualifies target nearest (key_at ks j))
          \/ (nearest_hi ks target (r - index)
              /\ qualifies target nearest (key_at ks (r - index)))).
Proof.
  induction data as [| e data IH]; intros ks index nearest end_ HK;
    inversion HK as [| ? k ? ks' Hek HK']; subst.
  - exists end_. split; [reflexivity |]. left. split; [reflexivity |].
    intros j Hj. unfold len in Hj. cbn in Hj. lia.
  - cbn [linear_search_hi_loop]. rewrite Hek. cbn [bind].
    pose proof (len_nonneg ks') as Hlen.
    destruct (Qle_bool target k && below_nearest k nearest) eqn:T.
    + apply qualifies_test in T. destruct T as [Tk Tn].
      destruct (IH ks' (index + 1)%Z (Some k) index HK')
        as (r & Hr & [[-> Hnone] | [Hnear Hq]]).
      * exists index. split; [exact Hr |]. right.
        unfold nearest_hi. rewrite Z.sub_diag, !key_at_head. split; [| now split].
        split; [rewrite len_cons; lia |]. split; [exact Tk |]. split.
        -- intros j Hj Hjt. destruct (Z.eq_dec j 0) as [-> | Hj0];
             [rewrite key_at_head; apply Qle_refl |].
           rewrite len_cons in Hj. rewrite (key_at_cons _ _ j) by lia.
           rewrite (key_at_cons _ _ j) in Hjt by lia.
           apply Qnot_lt_le. intro Hlt.
           apply (Hnone (j - 1)%Z ltac:(lia)). now split.
        -- intros j Hj. lia.
      * exists r. split; [exact Hr |]. right.
        destruct Hnear as (Hrange & Hrt & Hmin & Hfirst).
        destruct Hq as [_ Hlt]. cbn in Hlt.
        replace (r - (index + 1))%Z with (r - index - 1)%Z in * by lia.
        unfold nearest_hi. rewrite !(key_at_cons _ _ (r - index)) by lia.
        split; [| split; [exact Hrt |
                          destruct nearest as [n |]; [cbn in Tn; lra | exact I]]].
        split; [rewrite len_cons; lia |]. split; [exact Hrt |]. split.
        -- intros j Hj Hjt. rewrite len_cons in Hj.
           destruct (Z.eq_dec j 0) as [-> | Hj0];
             [rewrite !key_at_head; lra |].
           rewrite (key_at_cons _ _ j) by lia. rewrite (key_at_cons _ _ j) in Hjt by lia.
           apply Hmin; [lia | exact Hjt].
        -- intros j Hj Hjt.
           destruct (Z.eq_dec j 0) as [-> | Hj0];
             [rewrite !key_at_head; lra |].
           rewrite (key_at_cons _ _ j) by lia. rewrite (key_at_cons _ _ j) in Hjt by lia.
           apply Hfirst; [lia | exact Hjt].
    + assert (Tn : ~ qualifies target nearest k)
        by (rewrite <- qualifies_test; congruence).
      destruct (IH ks' (index + 1)%Z nearest end_ HK')
        as (r & Hr & [[-> Hnone] | [Hnear Hq]]).
      * exists end_. split; [exact Hr |]. left. split; [reflexivity |].
        intros j Hj. rewrite len_cons in Hj.
        destruct (Z.eq_dec j 0) as [-> | Hj0]; [now rewrite key_at_head |].
        rewrite (key_at_cons _ _ j) by lia. apply Hnone. lia.
      * exists r. split; [exact Hr |]. right.
        destruct Hnear as (Hrange & Hrt & Hmin & Hfirst).
        replace (r - (index + 1))%Z with (r - index - 1)%Z in * by lia.
        unfold nearest_hi. rewrite !(key_at_cons _ _ (r - index)) by lia.
        split; [| exact Hq].
        assert (Hhead : target <= k -> key_at ks' (r - index - 1) < k).
        { intro Hk. destruct Hq as [_ Hlt].
          destruct nearest as [n |].
          - apply Qlt_le_trans with n; [exact Hlt |].
            apply Qnot_lt_le. intro Hkn. apply Tn. now split.
          - exfalso. apply Tn. now split. }
        split; [rewrite len_cons; lia |]. split; [exact Hrt |]. split.
        -- intros j Hj Hjt. rewrite len_cons in Hj.
           destruct (Z.eq_dec j 0) as [-> | Hj0].
           ++ rewrite key_at_head in *. apply Qlt_le_weak. now apply Hhead.
           ++ rewrite (key_at_cons _ _ j) by lia. rewrite (key_at_cons _ _ j) in Hjt by lia.
              apply Hmin; [lia | exact Hjt].
        -- intros j Hj Hjt.
           destruct (Z.eq_dec j 0) as [-> | Hj0].
           ++ rewrite key_at_head in *. now apply Hhead.
           ++ rewrite (key_at_cons _ _ j) by lia. rewrite (key_at_cons _ _ j) in Hjt by lia.
              apply Hfirst; [lia | exact Hjt].
Qed.

(** X1.  [linear_search_hi] on any list with keys, ordered or not: when no
    key is [>= target] it returns the last index ([-1] on an empty list);
    otherwise it returns the index of the smallest key that is [>= target],
    and of several equal ones the first. *)
Theorem linear_search_hi_nearest (column : option Z) (data : list pyval)
    (ks : list Q) (target : Q) :
  has_keys column data ks ->
  exists r,
    linear_search_hi data target column = Ok r
    /\ (((forall j, (0 <= j < len ks)%Z -> key_at ks j < target)
         /\ r = (len ks - 1)%Z)
        \/ nearest_hi ks target r).
Proof.
  intro HK. unfold linear_search_hi.
  destruct (linear_search_hi_loop_post column target data ks 0 None
              (len data - 1)%Z HK) as (r & Hr & [[-> Hnone] | [Hnear _]]).
  - exists (len data - 1)%Z. split; [exact Hr |]. left.
    rewrite (has_keys_length _ _ _ HK). split; [| reflexivity].
    intros j Hj. apply Qnot_le_lt. intro Hle.
    apply (Hnone j Hj). now split.
  - exists r. split; [exact Hr |]. right. now rewrite Z.sub_0_r in Hnear.
Qed.

Lemma linear_search_hi_nearest_witness :
  has_keys None (map Num [5; 3; 9; 3]) [5; 3; 9; 3]
  /\ linear_search_hi (map Num [5; 3; 9; 3]) 2 None = Ok 1%Z
  /\ linear_search_hi (map Num [5; 3; 9; 3]) 10 None = Ok 3%Z.
Proof.
  split; [apply has_keys_nums |].
  destruct (linear_search_hi_nearest None _ _ 2 (has_keys_nums [5; 3; 9; 3]))
    as (r & Hr & _).
  split; [rewrite Hr; vm_compute in Hr; symmetry; exact Hr | reflexivity].
Defined.

(** ** The two searches together *)

(** X2.  On data whose keys are strictly ascending, [binary_search_hi] over
    the whole list and [linear_search_hi] return the same index, for every
    target. *)
Theorem searches_agree (column : option Z) (data : list pyval) (ks : list Q)
    (target : Q) :
  has_keys column data ks -> Sorted Qlt ks ->
  binary_search_hi data target 0 (len data - 1) column
    = linear_search_hi data target column.
Proof.
  intros HK HS.
  pose proof (has_keys_length _ _ _ HK) as HL.
  pose proof (Sorted_Qlt_strictly_ascending _ HS) as HSA.
  pose proof (strictly_ascending_ascending _ HSA) as HA.
  unfold linear_search_hi.
  destruct (linear_search_hi_loop_post column target data ks 0 None
              (len data - 1)%Z HK) as (rl & Hrl & Hl).
  rewrite Hrl.
  destruct ks as [| k0 ks'].
  - inversion HK; subst. rewrite binary_search_hi_loop. cbn.
    destruct Hl as [[-> _] | [(Hrange & _) _]]; [reflexivity |].
    unfold len in Hrange. cbn in Hrange. lia.
  - assert (Hpos : (0 < len (k0 :: ks'))%Z)
      by (rewrite len_cons; pose proof (len_nonneg ks'); lia).
    set (ks := k0 :: ks') in *.
    destruct (binary_search_hi_post column data ks target HK HA
                (Z.to_nat (len data - 1)) 0 (len data - 1)%Z)
      as (rb & Hrb & [Hrange Hpost]); try lia.
    rewrite Hrb. f_equal.
    destruct Hl as [[-> Hnone] | [(Hrl_range & Hrl_t & Hmin & Hfirst) _]].
    + assert (Hall : forall j, (0 <= j < len ks)%Z -> key_at ks j < target).
      { intros j Hj. apply Qnot_le_lt. intro Hle. apply (Hnone j Hj). now split. }
      destruct Hpost as [Hfound | [_ Hup]].
      * specialize (Hall rb ltac:(lia)). lra.
      * destruct (Z.eq_dec rb (len data - 1)) as [E | E]; [exact E |].
        specialize (Hup ltac:(lia)). specialize (Hall rb ltac:(lia)). lra.
    + rewrite Z.sub_0_r in *.
      destruct (Z.lt_trichotomy rb rl) as [Hlt | [Heq | Hgt]]; [| exact Heq |].
      * pose proof (HSA rb rl ltac:(lia) Hlt ltac:(lia)) as Hkeys.
        destruct Hpost as [Hfound | [_ Hup]].
        -- specialize (Hmin rb ltac:(lia) ltac:(lra)). lra.
        -- specialize (Hup ltac:(lia)).
           specialize (Hmin rb ltac:(lia) ltac:(lra)). lra.
      * pose proof (HSA rl rb ltac:(lia) Hgt ltac:(lia)) as Hkeys.
        destruct Hpost as [Hfound | [Hlow _]].
        -- lra.
        -- specialize (Hlow rl ltac:(lia)). lra.
Qed.

Lemma searches_agree_witness :
  binary_search_hi (map Num [1; 4; 6; 9]) 5 0 (len (map Num [1; 4; 6; 9]) - 1) None
    = linear_search_hi (map Num [1; 4; 6; 9]) 5 None
  /\ linear_search_hi (map Num [1; 4; 6; 9]) 5 None = Ok 2%Z.
Proof.
  split; [| reflexivity].
  apply (searches_agree None _ [1; 4; 6; 9] 5 (has_keys_nums _)).
  repeat constructor.
Defined.

(** X3.  [binary_search_hi] between any two indices of the list, on data in
    any order: it returns an index between [start] and [end_] and raises
    nothing; when [start] is not below [end_] it returns [end_] without
    reading the list. *)
Theorem binary_search_hi_between (column : option Z) (data : list pyval)
    (ks : list Q) (target : Q) (start end_ : Z) :
  ((end_ <= start)%Z -> binary_search_hi data target start end_ column = Ok end_)
  /\ (has_keys column data ks -> (0 <= start <= end_)%Z -> (end_ < len ks)%Z ->
      exists r, binary_search_hi data target start end_ column = Ok r
                /\ (start <= r <= end_)%Z).
Proof.
  split.
  - intro H. rewrite binary_search_hi_loop.
    destruct (start <? end_)%Z eqn:E; [apply Z.ltb_lt in E; lia | reflexivity].
  - intros HK Hse He.
    apply (binary_search_hi_range column data ks target HK
             (Z.to_nat (end_ - start))); [lia | exact Hse | exact He].
Qed.

Lemma binary_search_hi_between_witness :
  binary_search_hi [] 7 3 (-2) None = Ok (-2)%Z
  /\ exists r, binary_search_hi (map Num [9; 2; 7; 1; 8]) 5 1 3 None = Ok r
               /\ (1 <= r <= 3)%Z.
Proof.
  split.
  - apply (proj1 (binary_search_hi_between None [] [] 7 3 (-2))). lia.
  - apply (proj2 (binary_search_hi_between None _ [9; 2; 7; 1; 8] 5 1 3)).
    + apply has_keys_nums.
    + lia.
    + reflexivity.
Defined.

(** ** [delta_telemetry] at the ends of the curve *)

(** X4.  [delta_telemetry] returns 0 without reading any row when the curve
    has at most one row (the default curve of a first lap), whatever the
    position and the condition; and on any curve with complete rows it
    returns 0 when the condition is false. *)
Theorem delta_telemetry_zero (curve : list row) (position live_usage : Q)
    (condition : bool) (offset : Q) :
  ((len curve <= 1)%Z ->
     delta_telemetry position live_usage (map Tup curve) condition offset = Ok 0)
  /\ (Forall wide_row curve ->
      delta_telemetry position live_usage (map Tup curve) false offset = Ok 0).
Proof.
  split.
  - intro H. unfold delta_telemetry. rewrite binary_search_hi_loop, len_map.
    destruct (0 <? len curve - 1)%Z eqn:E; [apply Z.ltb_lt in E; lia |].
    cbn [bind].
    destruct (0 <? len curve - 1)%Z eqn:E'; [apply Z.ltb_lt in E'; lia |].
    reflexivity.
  - intro HW.
    destruct (binary_search_hi_curve curve position HW) as (idx & Hidx & _).
    unfold delta_telemetry. rewrite Hidx. cbn [bind].
    now rewrite andb_false_r.
Qed.

Lemma delta_telemetry_zero_witness :
  delta_telemetry 1234 (5 # 2) (map Tup [[99999; 0; 0]]) true 0 = Ok 0
  /\ delta_telemetry 50 (5 # 2) (map Tup [[0; 0]; [100; 5; 60]]) false 0 = Ok 0.
Proof.
  split.
  - apply (proj1 (delta_telemetry_zero [[99999; 0; 0]] 1234 (5 # 2) true 0)).
    reflexivity.
  - apply (proj2 (delta_telemetry_zero [[0; 0]; [100; 5; 60]] 50 (5 # 2) true 0)).
    repeat constructor; unfold wide_row; cbn; lia.
Defined.

(** X5.  On a curve ordered by distance with complete rows: before the first
    distance [delta_telemetry] returns 0; past the last distance, with the
    condition true, it extrapolates from the last two rows. *)
Theorem delta_telemetry_outside (curve : list row) (position live_usage : Q)
    (offset : Q) :
  Forall wide_row curve -> sorted_curve curve -> (2 <= len curve)%Z ->
  (position < distance_of (nth 0 curve []) ->
     delta_telemetry position live_usage (map Tup curve) true offset = Ok 0)
  /\ ((forall j, (0 <= j < len curve)%Z -> key_at (distances curve) j < position) ->
      delta_telemetry position live_usage (map Tup curve) true offset
        =r= Ok (delta_telemetry_spec position live_usage curve true offset
                  (len curve - 1))).
Proof.
  intros HW HS Hlen.
  pose proof (curve_has_keys _ HW) as HK.
  pose proof (Sorted_Qle_ascending _ HS) as HA.
  assert (HL : len (distances curve) = len curve) by apply len_map.
  destruct (binary_search_hi_post _ _ _ position HK HA
              (Z.to_nat (len curve - 1)) 0 (len curve - 1)%Z)
    as (r & Hr & [Hrange Hpost]); try lia.
  rewrite <- (len_map Tup curve) in Hr at 1.
  split.
  - intro Hbefore.
    change (nth 0 curve []) with (nth (Z.to_nat 0) curve []) in Hbefore.
    rewrite <- (key_at_distances curve 0) in Hbefore.
    assert (r = 0%Z) as ->.
    { destruct (Z.eq_dec r 0) as [E | E]; [exact E |].
      pose proof (HA 0%Z r ltac:(lia) ltac:(lia) ltac:(lia)) as H0r.
      destruct Hpost as [Hfound | [Hlow _]]; [lra |].
      specialize (Hlow 0%Z ltac:(lia)). lra. }
    unfold delta_telemetry. rewrite Hr. reflexivity.
  - intro Hpast.
    assert (r = (len curve - 1)%Z) as ->.
    { destruct (Z.eq_dec r (len curve - 1)) as [E | E]; [exact E |].
      pose proof (Hpast r ltac:(lia)) as Hr_lt.
      destruct Hpost as [Hfound | [_ Hup]]; [lra |].
      specialize (Hup ltac:(lia)). lra. }
    apply delta_telemetry_of_index; [exact HW | exact Hr | lia].
Qed.

Lemma delta_telemetry_outside_witness :
  delta_telemetry (-5) 3 (map Tup [[0; 0]; [100; 5]; [200; 9; 60]]) true 0 = Ok 0
  /\ delta_telemetry 250 3 (map Tup [[0; 0]; [100; 5]; [200; 9; 60]]) true 0
     =r= Ok (3 - 11).
Proof.
  assert (HW : Forall wide_row [[0; 0]; [100; 5]; [200; 9; 60]])
    by (repeat constructor; unfold wide_row; cbn; lia).
  assert (HS : sorted_curve [[0; 0]; [100; 5]; [200; 9; 60]])
    by (repeat constructor; discriminate).
  split.
  - apply (proj1 (delta_telemetry_outside _ (-5) 3 0 HW HS ltac:(vm_compute; discriminate))).
    reflexivity.
  - apply result_eq_value
      with (a := delta_telemetry_spec 250 3 [[0; 0]; [100; 5]; [200; 9; 60]]
                   true 0 2); [| reflexivity].
    apply (proj2 (delta_telemetry_outside _ 250 3 0 HW HS ltac:(vm_compute; discriminate))).
    intros j Hj. change (len [[0; 0]; [100; 5]; [200; 9; 60]]) with 3%Z in Hj.
    assert (j = 0 \/ j = 1 \/ j = 2)%Z as [-> | [-> | ->]] by lia; reflexivity.
Defined.

(** ** Clamps and relative positions *)

Ltac qltb_cases :=
  repeat match goal with
         | |- context [Qltb ?a ?b] =>
             let E := fresh "E" in
             destruct (Qltb a b) eqn:E;
             [apply Qltb_lt in E | apply Qltb_ge in E]
         end.

(** X6.  [sym_range] with a range that is not negative returns a value
    between [-rng] and [rng], and the value itself when it lies there; with a
    negative range it returns the range.  [zero_one_range] returns a value
    between 0 and 1, and the value itself when it lies there. *)
Theorem clamps_bound (value rng : Q) :
  (0 <= rng -> - rng <= sym_range value rng <= rng)
  /\ (- rng <= value <= rng -> sym_range value rng = value)
  /\ (rng < 0 -> sym_range value rng = rng)
  /\ 0 <= zero_one_range value <= 1
  /\ (0 <= value <= 1 -> zero_one_range value = value).
Proof.
  unfold sym_range, zero_one_range, py_max.
  split; [| split; [| split; [| split]]].
  - intro H. qltb_cases; unfold py_min; qltb_cases; lra.
  - intros [H1 H2]. qltb_cases; unfold py_min; qltb_cases; try reflexivity; lra.
  - intro H. qltb_cases; unfold py_min; qltb_cases; try reflexivity; lra.
  - qltb_cases; unfold py_min; qltb_cases; lra.
  - intros [H1 H2]. qltb_cases; unfold py_min; qltb_cases; try reflexivity; lra.
Qed.

Lemma clamps_bound_witness :
  - (9999) <= sym_range 12345 9999 <= 9999
  /\ sym_range (-3) 9999 = -3
  /\ sym_range 5 (-2) = -2
  /\ zero_one_range (1 # 2) = 1 # 2.
Proof.
  destruct (clamps_bound 12345 9999) as (H1 & _).
  destruct (clamps_bound (-3) 9999) as (_ & H2 & _).
  destruct (clamps_bound 5 (-2)) as (_ & _ & H3 & _).
  destruct (clamps_bound (1 # 2) 0) as (_ & _ & _ & _ & H4).
  split; [apply H1; discriminate |].
  split; [apply H2; split; discriminate |].
  split; [apply H3; reflexivity | apply H4; split; discriminate].
Defined.

(** X7.  [percentage_distance] never raises: a length of zero gives 0, and
    otherwise the quotient is clamped between [min_range] and [max_range]
    when these are in order. *)
Theorem percentage_distance_clamped (dist length max_range min_range : Q) :
  (length == 0 -> percentage_distance dist length max_range min_range = Ok 0)
  /\ (~ length == 0 -> min_range <= max_range ->
      exists v, percentage_distance dist length max_range min_range = Ok v
                /\ min_range <= v <= max_range
                /\ (min_range <= dist / length <= max_range -> v = dist / length)).
Proof.
  unfold percentage_distance. split.
  - intro H. unfold truthy. apply Qeq_bool_iff in H. now rewrite H.
  - intros Hn Hmm. rewrite (proj2 (truthy_iff length) Hn).
    rewrite (py_div_nonzero _ _ Hn). cbn [bind].
    eexists. split; [reflexivity |].
    unfold py_max. split.
    + qltb_cases; unfold py_min; qltb_cases; lra.
    + intros [H1 H2]. qltb_cases; unfold py_min; qltb_cases; try reflexivity; lra.
Qed.

Lemma percentage_distance_clamped_witness :
  percentage_distance 300 0 1 0 = Ok 0
  /\ exists v, percentage_distance 7000 5000 1 0 = Ok v /\ 0 <= v <= 1.
Proof.
  split.
  - apply (proj1 (percentage_distance_clamped 300 0 1 0)). reflexivity.
  - destruct (proj2 (percentage_distance_clamped 7000 5000 1 0)
                ltac:(discriminate) ltac:(discriminate)) as (v & Hv & Hb & _).
    now exists v.
Defined.

(** X8.  [circular_relative_distance] for two positions on a circuit of
    length [circle_length]: the result differs from [opt_dist - plr_dist] by
    zero or one circuit length, it is at most half a circuit in absolute
    value, and exchanging the two cars changes its sign. *)
Theorem circular_relative_distance_short (circle_length plr_dist opt_dist : Q) :
  (circular_relative_distance circle_length plr_dist opt_dist
     == - circular_relative_distance circle_length opt_dist plr_dist)
  /\ (0 <= plr_dist <= circle_length -> 0 <= opt_dist <= circle_length ->
      Qabs (circular_relative_distance circle_length plr_dist opt_dist)
        <= circle_length * (1 # 2)
      /\ (circular_relative_distance circle_length plr_dist opt_dist
            == opt_dist - plr_dist
          \/ circular_relative_distance circle_length plr_dist opt_dist
               == opt_dist - plr_dist - circle_length
          \/ circular_relative_distance circle_length plr_dist opt_dist
               == opt_dist - plr_dist + circle_length)).
Proof.
  unfold circular_relative_distance. split.
  - assert (Habs : Qabs (plr_dist - opt_dist) == Qabs (opt_dist - plr_dist)).
    { rewrite <- (Qabs_opp (opt_dist - plr_dist)).
      apply Qabs_wd. ring. }
    destruct (Qltb (circle_length * (1 # 2)) (Qabs (opt_dist - plr_dist))) eqn:E1;
      destruct (Qltb (circle_length * (1 # 2)) (Qabs (plr_dist - opt_dist))) eqn:E2.
    + qltb_cases; lra.
    + apply Qltb_lt in E1. apply Qltb_ge in E2. lra.
    + apply Qltb_ge in E1. apply Qltb_lt in E2. lra.
    + ring.
  - intros Hp Ho.
    destruct (Qltb (circle_length * (1 # 2)) (Qabs (opt_dist - plr_dist))) eqn:E1.
    + apply Qltb_lt in E1.
      destruct (Qltb plr_dist opt_dist) eqn:E2.
      * apply Qltb_lt in E2.
        rewrite Qabs_pos in E1 by lra.
        split; [apply Qabs_Qle_condition; lra | right; left; reflexivity].
      * apply Qltb_ge in E2.
        destruct (Qltb opt_dist plr_dist) eqn:E3.
        -- apply Qltb_lt in E3. rewrite Qabs_neg in E1 by lra.
           split; [apply Qabs_Qle_condition; lra | right; right; reflexivity].
        -- apply Qltb_ge in E3. rewrite Qabs_pos in E1 by lra. lra.
    + apply Qltb_ge in E1. split; [exact E1 | left; reflexivity].
Qed.

Lemma circular_relative_distance_short_witness :
  circular_relative_distance 5000 4900 100 == 200
  /\ Qabs (circular_relative_distance 5000 4900 100) <= 5000 * (1 # 2).
Proof.
  split; [reflexivity |].
  apply (proj2 (circular_relative_distance_short 5000 4900 100));
    split; discriminate.
Defined.

(** X9.  [lap_difference] is 0 exactly within the band from [-lap_behind] to
    [lap_ahead] and the difference of the lap counts outside it; exchanging
    the cars, with the two bounds exchanged too, changes its sign. *)
Theorem lap_difference_band (opt_laps plr_laps lap_ahead lap_behind : Q) :
  (- lap_behind <= opt_laps - plr_laps <= lap_ahead ->
     lap_difference opt_laps plr_laps lap_ahead lap_behind = 0)
  /\ (lap_ahead < opt_laps - plr_laps \/ opt_laps - plr_laps < - lap_behind ->
      lap_difference opt_laps plr_laps lap_ahead lap_behind = opt_laps - plr_laps)
  /\ lap_difference opt_laps plr_laps lap_ahead lap_behind
     == - lap_difference plr_laps opt_laps lap_behind lap_ahead.
Proof.
  unfold lap_difference. split; [| split].
  - intros [H1 H2]. qltb_cases; cbn; try reflexivity; lra.
  - intros [H | H]; qltb_cases; cbn; try reflexivity; lra.
  - qltb_cases; cbn; lra.
Qed.

Lemma lap_difference_band_witness :
  lap_difference 12 11 1 1 = 0 /\ lap_difference 14 11 1 1 = 14 - 11.
Proof.
  destruct (lap_difference_band 12 11 1 1) as (H1 & _).
  destruct (lap_difference_band 14 11 1 1) as (_ & H2 & _).
  split; [apply H1; split; discriminate | apply H2; left; reflexivity].
Defined.

(** X10.  [relative_time_gap] never raises and never returns a negative gap;
    when neither car is faster than 1 m/s it returns 0, and otherwise the
    distance over the higher of the two speeds, in absolute value. *)
Theorem relative_time_gap_nonneg (rel_dist plr_speed opt_speed : Q) :
  (exists v, relative_time_gap rel_dist plr_speed opt_speed = Ok v /\ 0 <= v)
  /\ (plr_speed <= 1 -> opt_speed <= 1 ->
      relative_time_gap rel_dist plr_speed opt_speed = Ok 0)
  /\ (1 < plr_speed \/ 1 < opt_speed ->
      relative_time_gap rel_dist plr_speed opt_speed
        = Ok (Qabs (rel_dist / py_max plr_speed opt_speed))).
Proof.
  unfold relative_time_gap.
  assert (Hmax : plr_speed <= py_max plr_speed opt_speed
                 /\ opt_speed <= py_max plr_speed opt_speed
                 /\ (py_max plr_speed opt_speed = plr_speed
                     \/ py_max plr_speed opt_speed = opt_speed)).
  { unfold py_max. qltb_cases; repeat split; auto; lra. }
  destruct Hmax as (Hp & Ho & Hcase).
  split; [| split].
  - destruct (Qltb 1 (py_max plr_speed opt_speed)) eqn:E.
    + apply Qltb_lt in E. rewrite py_div_nonzero by lra. cbn [bind].
      eexists. split; [reflexivity | apply Qabs_nonneg].
    + exists 0. split; [reflexivity | apply Qle_refl].
  - intros H1 H2.
    assert (E : Qltb 1 (py_max plr_speed opt_speed) = false).
    { apply Qltb_ge. destruct Hcase as [-> | ->]; assumption. }
    now rewrite E.
  - intro H.
    assert (E : 1 < py_max plr_speed opt_speed) by (destruct H; lra).
    rewrite (proj2 (Qltb_lt _ _) E). rewrite py_div_nonzero by lra. reflexivity.
Qed.

Lemma relative_time_gap_nonneg_witness :
  relative_time_gap (-120) (1 # 2) 1 = Ok 0
  /\ relative_time_gap (-120) 40 60 = Ok (Qabs (-120 / py_max 40 60)).
Proof.
  destruct (relative_time_gap_nonneg (-120) (1 # 2) 1) as (_ & H1 & _).
  destruct (relative_time_gap_nonneg (-120) 40 60) as (_ & _ & H2).
  split; [apply H1; discriminate | apply H2; left; reflexivity].
Defined.

(** ** Best laps *)

Lemma inject_Z_succ (n : Z) : inject_Z (n + 1) == inject_Z n + 1.
Proof. rewrite inject_Z_plus. reflexivity. Qed.

Lemma session_best_laptime_values (data_list : list row) (column : Z)
    (vs : list Q) :
  column_values column data_list vs ->
  forall laptime, exists best,
    session_best_laptime data_list column laptime = Ok best
    /\ best <= laptime
    /\ (forall v, In v vs -> 0 < v -> best <= v)
    /\ (best = laptime \/ (In best vs /\ 0 < best)).
Proof.
  intro HC.
  induction HC as [| data v data_list vs Hv _ IH]; intro laptime.
  - exists laptime. split; [reflexivity |]. split; [apply Qle_refl |].
    split; [intros v [] | now left].
  - cbn [session_best_laptime]. rewrite Hv. cbn [bind].
    destruct (Qltb 0 v && Qltb v laptime) eqn:T.
    + apply andb_true_iff in T. destruct T as [T0 T1].
      apply Qltb_lt in T0, T1.
      destruct (IH v) as (best & Hb & Hle & Hall & Hin).
      exists best. split; [exact Hb |]. split; [lra |]. split.
      * intros w [<- | Hw] Hpos; [exact Hle | now apply Hall].
      * right. destruct Hin as [-> | [Hin Hpos]];
          [split; [now left | exact T0] | split; [now right | exact Hpos]].
    + destruct (IH laptime) as (best & Hb & Hle & Hall & Hin).
      exists best. split; [exact Hb |]. split; [exact Hle |]. split.
      * intros w [<- | Hw] Hpos; [| now apply Hall].
        apply andb_false_iff in T. destruct T as [T | T].
        -- apply Qltb_ge in T. lra.
        -- apply Qltb_ge in T. lra.
      * destruct Hin as [-> | [Hin Hpos]]; [now left | right].
        split; [now right | exact Hpos].
Qed.

(** X12.  [session_best_laptime] on rows that all have the column returns a
    time that is at most the starting time and at most every positive entry
    of the column, and that is the starting time or a positive entry of the
    column; when some row lacks the column it raises [IndexError]. *)
Theorem session_best_laptime_least (data_list : list row) (column : Z)
    (vs : list Q) (laptime : Q) :
  (column_values column data_list vs ->
   exists best,
     session_best_laptime data_list column laptime = Ok best
     /\ best <= laptime
     /\ (forall v, In v vs -> 0 < v -> best <= v)
     /\ (best = laptime \/ (In best vs /\ 0 < best)))
  /\ (Exists (fun data => py_getitem data column = Raise IndexError) data_list ->
      session_best_laptime data_list column laptime = Raise IndexError).
Proof.
  split.
  - intro HC. now apply session_best_laptime_values.
  - intro HE. revert laptime.
    induction HE as [data rest Hd | data rest _ IH]; intro laptime;
      cbn [session_best_laptime].
    + now rewrite Hd.
    + destruct (py_getitem data column) as [v | e] eqn:G; cbn [bind].
      * destruct (Qltb 0 v && Qltb v laptime); apply IH.
      * now rewrite (py_getitem_raises _ _ _ G).
Qed.

Lemma session_best_laptime_least_witness :
  column_values 1 [[1; 95]; [2; 0]; [3; 91]; [4; -1]] [95; 0; 91; -1]
  /\ session_best_laptime [[1; 95]; [2; 0]; [3; 91]; [4; -1]] 1 99999 = Ok 91
  /\ session_best_laptime [[1; 95]; [2]] 1 99999 = Raise IndexError.
Proof.
  assert (HC : column_values 1 [[1; 95]; [2; 0]; [3; 91]; [4; -1]] [95; 0; 91; -1])
    by (repeat constructor).
  split; [exact HC |].
  destruct (proj1 (session_best_laptime_least _ 1 _ 99999) HC) as (best & Hb & _).
  split; [rewrite Hb; vm_compute in Hb; symmetry; exact Hb |].
  apply (proj2 (session_best_laptime_least [[1; 95]; [2]] 1 [] 99999)).
  right. now left.
Defined.

(** ** Laps, stints and pit stops *)

Lemma py_mod1_range (x : Q) : 0 <= py_mod1 x < 1.
Proof.
  unfold py_mod1. pose proof (Qfloor_le x) as H1. pose proof (Qlt_floor x) as H2.
  rewrite inject_Z_succ in H2. lra.
Qed.

Lemma scaled_fraction (m c : Q) : 0 <= m < 1 -> 0 < c -> 0 <= m * c < c.
Proof.
  intros [H0 H1] Hc. split; [apply Qmult_le_0_compat; lra |].
  assert (H : m * c < 1 * c) by (apply Qmult_lt_compat_r; assumption). lra.
Qed.



(** X14.  [end_stint_fuel] and [end_stint_laps] never raise and return 0
    for a consumption of 0.  [end_stint_fuel] returns a value between 0 and
    the consumption, whatever the sign of the consumption; [end_stint_laps]
    returns no negative number of laps for fuel that is not negative and a
    positive consumption. *)
Theorem end_stint_fuel_range (fuel_in_tank consumption_into_lap consumption : Q) :
  (consumption == 0 ->
     end_stint_fuel fuel_in_tank consumption_into_lap consumption = Ok 0
     /\ end_stint_laps fuel_in_tank consumption = Ok 0)
  /\ (exists v,
        end_stint_fuel fuel_in_tank consumption_into_lap consumption = Ok v
        /\ (0 < consumption -> 0 <= v <= consumption)
        /\ (consumption < 0 -> consumption <= v <= 0))
  /\ (exists laps,
        end_stint_laps fuel_in_tank consumption = Ok laps
        /\ (0 < consumption -> 0 <= fuel_in_tank -> 0 <= laps)).
Proof.
  unfold end_stint_fuel, end_stint_laps. split; [| split].
  - intro H. unfold truthy. apply Qeq_bool_iff in H. now rewrite H.
  - destruct (truthy consumption) eqn:T.
    + apply truthy_iff in T. rewrite (py_div_nonzero _ _ T). cbn [bind].
      set (q := (fuel_in_tank + consumption_into_lap) / consumption).
      exists (py_mod1 q * consumption). split; [reflexivity |].
      pose proof (py_mod1_range q) as [H0 H1].
      split; intro Hc.
      * destruct (scaled_fraction _ _ (conj H0 H1) Hc) as [A B]. lra.
      * assert (Hc' : 0 < - consumption) by lra.
        destruct (scaled_fraction _ _ (conj H0 H1) Hc') as [A B].
        setoid_replace (py_mod1 q * consumption)
          with (- (py_mod1 q * - consumption)) by ring.
        lra.
    + exists 0. split; [reflexivity |].
      unfold truthy in T. apply negb_false_iff, Qeq_bool_iff in T.
      split; intro; lra.
  - destruct (truthy consumption) eqn:T.
    + apply truthy_iff in T. rewrite (py_div_nonzero _ _ T).
      eexists. split; [reflexivity |]. intros Hc Hf.
      apply Qle_shift_div_l; [exact Hc | lra].
    + exists 0. split; [reflexivity |]. intros; lra.
Qed.

Lemma end_stint_fuel_range_witness :
  end_stint_fuel 30 2 0 = Ok 0
  /\ end_stint_laps 30 0 = Ok 0.
Proof.
  apply (proj1 (end_stint_fuel_range 30 2 0)). reflexivity.
Defined.

(** X15.  [end_lap_pit_counts] with a positive empty capacity and a total
    capacity that is not 0: when the needed fuel fits into the empty capacity
    the count is their quotient, at most one stop when no fuel is owed;
    otherwise it is one stop plus the rest over the total capacity, at least
    one stop when the total capacity is positive. *)
Theorem end_lap_pit_counts_split (fuel_needed capacity_empty capacity_total : Q) :
  0 < capacity_empty -> ~ capacity_total == 0 ->
  (fuel_needed <= capacity_empty ->
     end_lap_pit_counts fuel_needed capacity_empty capacity_total
       =r= Ok (fuel_needed / capacity_empty))
  /\ (capacity_empty < fuel_needed ->
      end_lap_pit_counts fuel_needed capacity_empty capacity_total
        =r= Ok (1 + (fuel_needed - capacity_empty) / capacity_total))
  /\ (exists counts,
        end_lap_pit_counts fuel_needed capacity_empty capacity_total = Ok counts
        /\ (0 <= fuel_needed <= capacity_empty -> 0 <= counts <= 1)
        /\ (capacity_empty < fuel_needed -> 0 < capacity_total -> 1 <= counts)).
Proof.
  intros He Ht.
  assert (Hen : ~ capacity_empty == 0) by lra.
  unfold end_lap_pit_counts.
  rewrite (proj2 (truthy_iff _) Hen).
  rewrite !(py_div_nonzero _ _ Hen). cbn [bind].
  rewrite !(py_div_nonzero _ _ Ht). cbn [bind result_eq].
  unfold py_min.
  split; [| split].
  - intro H. qltb_cases; [lra | field; split; assumption].
  - intro H. qltb_cases; [field; split; assumption | lra].
  - eexists. split; [reflexivity |]. split.
    + intros [H0 H1].
      destruct (Qltb capacity_empty fuel_needed) eqn:E;
        [apply Qltb_lt in E; lra |].
      setoid_replace (fuel_needed / capacity_empty
                      + (fuel_needed - fuel_needed) / capacity_total)
        with (fuel_needed / capacity_empty) by (field; split; assumption).
      split.
      * apply Qle_shift_div_l; [exact He | lra].
      * apply Qle_shift_div_r; [exact He | lra].
    + intros H Hpos.
      rewrite (proj2 (Qltb_lt _ _) H).
      assert (H1 : 0 <= (fuel_needed - capacity_empty) / capacity_total)
        by (apply Qle_shift_div_l; [exact Hpos | lra]).
      setoid_replace (capacity_empty / capacity_empty) with 1
        by (field; exact Hen).
      lra.
Qed.

Lemma end_lap_pit_counts_split_witness :
  end_lap_pit_counts 30 40 100 =r= Ok (30 / 40)
  /\ end_lap_pit_counts 150 40 100 =r= Ok (1 + (150 - 40) / 100).
Proof.
  destruct (end_lap_pit_counts_split 30 40 100 ltac:(reflexivity) ltac:(discriminate))
    as (H1 & _).
  destruct (end_lap_pit_counts_split 150 40 100 ltac:(reflexivity) ltac:(discriminate))
    as (_ & H2 & _).
  split; [apply H1; discriminate | apply H2; reflexivity].
Defined.

(** ** The tick: exceptions *)

Lemma tick_wide math_dist st tel st' :
  rows_wide (fst st) -> tick math_dist st tel = Ok st' -> rows_wide (fst st').
Proof.
  intros HW H.
  destruct (tick_tracks math_dist st tel st' H) as (Hc & Ht & Hl & _).
  unfold rows_wide. rewrite Hc, Ht, Hl. now apply track_lap_wide.
Qed.

(** X16.  A run of ticks that starts on curves with complete rows raises
    nothing but [ZeroDivisionError], and when it returns, the curves still
    have complete rows. *)
Theorem run_raises_only_division math_dist (tels : list telemetry) :
  forall st, rows_wide (fst st) ->
    match run math_dist st tels with
    | Ok st' => rows_wide (fst st')
    | Raise x => x = ZeroDivisionError
    end.
Proof.
  induction tels as [| tel rest IH]; intros st HW; cbn [run].
  - exact HW.
  - destruct (tick math_dist st tel) as [st1 | x] eqn:T; cbn [bind].
    + apply IH. exact (tick_wide _ _ _ _ HW T).
    + exact (tick_raises _ _ _ _ HW T).
Qed.

Lemma run_raises_only_division_witness :
  rows_wide (reset_lap_state thirsty_lap)
  /\ match run (fun _ _ => 0) (reset_lap_state thirsty_lap, reset_estimates)
             [reading 10 50 0 100 40; small_tank] with
     | Ok st' => rows_wide (fst st')
     | Raise x => x = ZeroDivisionError
     end.
Proof.
  assert (HW : rows_wide (reset_lap_state thirsty_lap))
    by (repeat split; repeat constructor; unfold wide_row; cbn; lia).
  split; [exact HW |].
  exact (run_raises_only_division (fun _ _ => 0)
           [reading 10 50 0 100 40; small_tank]
           (reset_lap_state thirsty_lap, reset_estimates) HW).
Defined.

(** ** The tick: fuel accounting *)

Ltac split_ifs :=
  repeat match goal with
         | |- context [if ?c then _ else _] => destruct c
         end.

(** The steps after lap detection leave the fuel bookkeeping alone. *)
Lemma after_detection_same_fuel s t d v :
  same_fuel s
    (validation (record_position (fst (distance_check s t d))
                                 (snd (distance_check s t d))) t v).
Proof.
  unfold same_fuel, validation, record_position, distance_check, commit_lap,
    switch_off.
  split_ifs; cbn; repeat split.
Qed.

Lemma track_lap_stages s tel :
  track_lap s tel =
    let s3 := lap_detection
                (fuel_consumption (read_pit_lap s (t_in_pits tel)) (t_fuel tel))
                (t_start tel) (laptime_curr_of tel) (t_distance tel) in
    validation
      (record_position
         (fst (distance_check s3 (laptime_curr_of tel) (t_distance tel)))
         (snd (distance_check s3 (laptime_curr_of tel) (t_distance tel))))
      (laptime_curr_of tel) (t_last_laptime tel).
Proof.
  unfold track_lap. cbv zeta.
  now destruct (distance_check _ (laptime_curr_of tel) (t_distance tel)).
Qed.

(** X17.  Fuel accounting of one tick.  After the tick the last fuel reading
    kept is the reading of the tick.  A reading above the last one (a refuel)
    becomes the start amount and adds nothing to the usage; a reading not
    above it adds the drop to the usage of the lap.  On a new lap the usage
    with that drop becomes the raw usage of the finished lap and the running
    usage restarts at 0. *)
Theorem fuel_accounting (s : lap_state) (tel : telemetry) :
  let s' := track_lap s tel in
  let drop := if Qltb (t_fuel tel) (amount_last s)
              then amount_last s - t_fuel tel else 0 in
  amount_last s' == t_fuel tel
  /\ (amount_last s < t_fuel tel -> amount_start s' = t_fuel tel)
  /\ (t_fuel tel <= amount_last s -> amount_start s' = amount_start s)
  /\ (new_lap s (t_start tel) = false ->
      used_curr s' == used_curr s + drop
      /\ used_last_raw s' = used_last_raw s)
  /\ (new_lap s (t_start tel) = true ->
      used_curr s' = 0 /\ used_last_raw s' == used_curr s + drop).
Proof.
  cbv zeta. rewrite track_lap_stages. cbv zeta.
  set (s2 := fuel_consumption (read_pit_lap s (t_in_pits tel)) (t_fuel tel)).
  set (s3 := lap_detection s2 (t_start tel) (laptime_curr_of tel) (t_distance tel)).
  destruct (after_detection_same_fuel s3 (laptime_curr_of tel) (t_distance tel)
              (t_last_laptime tel)) as (-> & -> & -> & ->).
  assert (Hnew : new_lap s2 (t_start tel) = new_lap s (t_start tel)).
  { destruct (fuel_consumption_same (read_pit_lap s (t_in_pits tel)) (t_fuel tel))
      as (_ & _ & Hl).
    unfold new_lap. subst s2. now rewrite Hl. }
  assert (H2 : amount_last s2 == t_fuel tel
               /\ (amount_last s < t_fuel tel -> amount_start s2 = t_fuel tel)
               /\ (t_fuel tel <= amount_last s -> amount_start s2 = amount_start s)
               /\ used_curr s2 ==
                    used_curr s + (if Qltb (t_fuel tel) (amount_last s)
                                   then amount_last s - t_fuel tel else 0)
               /\ used_last_raw s2 = used_last_raw s).
  { subst s2. unfold fuel_consumption. cbn [read_pit_lap amount_last].
    destruct (Qltb (amount_last s) (t_fuel tel)) eqn:E1.
    - apply Qltb_lt in E1.
      assert (E2 : Qltb (t_fuel tel) (amount_last s) = false)
        by (apply Qltb_ge; lra).
      rewrite E2. cbn. repeat split; intros; try reflexivity; lra.
    - apply Qltb_ge in E1.
      destruct (Qltb (t_fuel tel) (amount_last s)) eqn:E2.
      + apply Qltb_lt in E2. cbn. repeat split; intros; try reflexivity; lra.
      + apply Qltb_ge in E2. cbn. repeat split; intros; try reflexivity; lra. }
  destruct H2 as (Ha & Hs1 & Hs2 & Hu & Hr).
  assert (H3 : amount_last s3 = amount_last s2 /\ amount_start s3 = amount_start s2)
    by (subst s3; unfold lap_detection; destruct (new_lap s2 (t_start tel));
        now split).
  destruct H3 as [-> ->].
  split; [exact Ha |]. split; [exact Hs1 |]. split; [exact Hs2 |].
  subst s3. unfold lap_detection. rewrite Hnew.
  split; intros ->; cbn; split; try reflexivity; assumption.
Qed.

Lemma fuel_accounting_witness :
  let s := track_laps (reset_lap_state default_curve) (firstn 3 unconfirmed_lap) in
  new_lap s 190 = true
  /\ used_curr s == 1
  /\ used_last_raw (track_lap s (reading 190 (1 # 10) 0 3 38)) == 2
  /\ used_curr (track_lap s (reading 190 (1 # 10) 0 3 38)) = 0.
Proof.
  intro s.
  assert (Hn : new_lap s 190 = true) by reflexivity.
  split; [exact Hn |]. split; [reflexivity |].
  destruct (fuel_accounting s (reading 190 (1 # 10) 0 3 38))
    as (_ & _ & _ & _ & H).
  destruct (H Hn) as [H0 Hraw].
  split; [rewrite Hraw; reflexivity | exact H0].
Defined.

(** ** The tick: staging and the reference lap *)

Lemma same_reference_refl s : same_reference s s.
Proof. now repeat split. Qed.

Lemma same_reference_trans s1 s2 s3 :
  same_reference s1 s2 -> same_reference s2 s3 -> same_reference s1 s3.
Proof.
  intros (A1 & A2 & A3 & A4) (B1 & B2 & B3 & B4).
  repeat split; congruence.
Qed.

(** The state after lap detection, in terms of the state at the start of the
    tick. *)
Lemma detection_staging s tel :
  let s3 := lap_detection
              (fuel_consumption (read_pit_lap s (t_in_pits tel)) (t_fuel tel))
              (t_start tel) (laptime_curr_of tel) (t_distance tel) in
  validating s3 = stages s tel || validating s
  /\ (stages s tel = false -> delta_list_temp s3 = delta_list_temp s)
  /\ same_reference s s3.
Proof.
  cbv zeta.
  set (s2 := fuel_consumption (read_pit_lap s (t_in_pits tel)) (t_fuel tel)).
  assert (H2 : validating s2 = validating s
               /\ delta_list_temp s2 = delta_list_temp s
               /\ delta_list_curr s2 = delta_list_curr s
               /\ pit_lap s2 = pit_lap s || t_in_pits tel
               /\ last_lap_stime s2 = last_lap_stime s
               /\ same_reference s s2).
  { subst s2. unfold fuel_consumption, same_reference.
    destruct (Qltb _ (t_fuel tel)); [cbn; now repeat split |].
    destruct (Qltb (t_fuel tel) _); cbn; now repeat split. }
  destruct H2 as (Hv & Ht & Hc & Hp & Hl & Hr).
  assert (Hst : stages s tel = new_lap s2 (t_start tel) && lap_recorded s2).
  { unfold stages, new_lap, lap_recorded. rewrite Hl, Hc, Hp.
    now rewrite andb_assoc. }
  rewrite Hst. unfold lap_detection.
  destruct (new_lap s2 (t_start tel)); cbn [andb orb].
  - destruct (lap_recorded s2); cbn.
    + split; [reflexivity |]. split; [discriminate |].
      destruct Hr as (A & B & C & D). now repeat split.
    + split; [exact Hv |]. split; [intros _; exact Ht |].
      destruct Hr as (A & B & C & D). now repeat split.
  - cbn. split; [exact Hv |]. split; [intros _; exact Ht |].
    destruct Hr as (A & B & C & D). now repeat split.
Qed.

(** The position steps keep the validation flag, the staged curve and the
    reference. *)
Lemma position_steps_keep s t d :
  let s5 := record_position (fst (distance_check s t d))
                            (snd (distance_check s t d)) in
  validating s5 = validating s
  /\ delta_list_temp s5 = delta_list_temp s
  /\ used_last_raw s5 = used_last_raw s
  /\ same_reference s s5.
Proof.
  cbv zeta.
  unfold record_position, distance_check, same_reference.
  split_ifs; cbn; now repeat split.
Qed.

(** What the validation step does: it commits the staged lap, or it keeps
    the staged curve and the reference. *)
Lemma validation_cases s t v :
  (validating s = true /\ 0 < v /\ validation s t v = commit_lap s v)
  \/ ((validating s = false -> validating (validation s t v) = false)
      /\ delta_list_temp (validation s t v) = delta_list_temp s
      /\ same_reference s (validation s t v)).
Proof.
  unfold validation.
  destruct (validating s) eqn:V.
  - destruct (Qltb (2 # 10) t && Qle_bool t 3).
    + destruct (Qltb 0 v) eqn:P.
      * left. apply Qltb_lt in P. now repeat split.
      * right. rewrite V. split; [discriminate |]. split; [reflexivity |].
        apply same_reference_refl.
    + destruct (Qltb 3 t && Qltb t 5).
      * right. cbn. split; [reflexivity |]. now repeat split.
      * right. rewrite V. split; [discriminate |]. split; [reflexivity |].
        apply same_reference_refl.
  - right. rewrite V. split; [reflexivity |]. split; [reflexivity |].
    apply same_reference_refl.
Qed.

(** X18.  Only a new lap whose curve has samples and during which the car
    was not seen in the pits is staged.  In any other tick that starts with
    no lap awaiting validation, none awaits validation afterwards, and the
    staged curve, the reference curve, its usage and laptime and the save
    flag are unchanged. *)
Theorem unrecorded_lap_not_staged (s : lap_state) (tel : telemetry) :
  validating s = false ->
  new_lap s (t_start tel) = false
  \/ (len (delta_list_curr s) <= 1)%Z
  \/ pit_lap s = true
  \/ t_in_pits tel = true ->
  let s' := track_lap s tel in
  validating s' = false
  /\ delta_list_temp s' = delta_list_temp s
  /\ same_reference s s'.
Proof.
  intros V H. cbv zeta. rewrite track_lap_stages. cbv zeta.
  assert (Hst : stages s tel = false).
  { unfold stages.
    destruct H as [-> | [H | [-> | ->]]]; cbn.
    - reflexivity.
    - rewrite (proj2 (Z.ltb_ge _ _) H). now rewrite andb_false_r.
    - now rewrite andb_false_r.
    - rewrite orb_true_r. now rewrite andb_false_r. }
  destruct (detection_staging s tel) as (Hv & Ht & Hr). cbv zeta in Hv, Ht, Hr.
  rewrite Hst, V in Hv. cbn in Hv. specialize (Ht Hst).
  set (s3 := lap_detection _ _ _ _) in *.
  destruct (position_steps_keep s3 (laptime_curr_of tel) (t_distance tel))
    as (Hv5 & Ht5 & _ & Hr5). cbv zeta in Hv5, Ht5, Hr5.
  set (s5 := record_position _ _) in *.
  rewrite Hv in Hv5.
  destruct (validation_cases s5 (laptime_curr_of tel) (t_last_laptime tel))
    as [(V5 & _) | (Hv6 & Ht6 & Hr6)]; [congruence |].
  split; [exact (Hv6 Hv5) |]. split; [congruence |].
  exact (same_reference_trans _ _ _ Hr (same_reference_trans _ _ _ Hr5 Hr6)).
Qed.

Lemma unrecorded_lap_not_staged_witness :
  let s := track_laps (reset_lap_state default_curve) (firstn 3 unconfirmed_lap) in
  let tel := reading 190 (1 # 10) 0 3 38 in
  let pitted := {| t_start := t_start tel;
                   t_current_laptime := t_current_laptime tel;
                   t_last_laptime := 95;
                   t_remaining := t_remaining tel;
                   t_fuel := t_fuel tel;
                   t_tank_capacity := t_tank_capacity tel;
                   t_in_garage := t_in_garage tel;
                   t_distance := t_distance tel;
                   t_position := t_position tel;
                   t_total_laps := t_total_laps tel;
                   t_percent := t_percent tel;
                   t_maximum := t_maximum tel;
                   t_in_pits := true;
                   t_lap_type := t_lap_type tel |} in
  validating (track_lap s tel) = true
  /\ validating (track_lap s pitted) = false
  /\ delta_list_temp (track_lap s pitted) = [DELTA_ZERO].
Proof.
  intros s tel pitted.
  split; [reflexivity |].
  destruct (unrecorded_lap_not_staged s pitted) as (V & T & _).
  - reflexivity.
  - right; right; right; reflexivity.
  - split; [exact V | exact T].
Defined.

(** One tick keeps the reference, or commits a lap with a positive laptime
    and sets the save flag. *)
Lemma track_lap_reference s tel :
  same_reference s (track_lap s tel)
  \/ (0 < t_last_laptime tel
      /\ delayed_save (track_lap s tel) = true
      /\ laptime_last (track_lap s tel) = t_last_laptime tel).
Proof.
  rewrite track_lap_stages. cbv zeta.
  destruct (detection_staging s tel) as (_ & _ & Hr). cbv zeta in Hr.
  set (s3 := lap_detection _ _ _ _) in *.
  destruct (position_steps_keep s3 (laptime_curr_of tel) (t_distance tel))
    as (_ & _ & _ & Hr5). cbv zeta in Hr5.
  set (s5 := record_position _ _) in *.
  destruct (validation_cases s5 (laptime_curr_of tel) (t_last_laptime tel))
    as [(_ & P & ->) | (_ & _ & Hr6)].
  - right. now repeat split.
  - left.
    exact (same_reference_trans _ _ _ Hr (same_reference_trans _ _ _ Hr5 Hr6)).
Qed.

Lemma track_laps_snoc s tels tel :
  track_laps s (tels ++ [tel]) = track_lap (track_laps s tels) tel.
Proof. unfold track_laps. now rewrite fold_left_app. Qed.

(** X19.  The save flag is never cleared by a tick, and as long as it is not
    set, the reference curve, usage and laptime are those that
    [load_deltafuel] returned when the session began. *)
Theorem reference_kept_until_commit (loaded : list row * Q * Q)
    (tels : list telemetry) :
  (forall s, delayed_save s = true -> delayed_save (track_laps s tels) = true)
  /\ (delayed_save (track_laps (reset_lap_state loaded) tels) = false ->
      as_loaded loaded (track_laps (reset_lap_state loaded) tels)).
Proof.
  split.
  - induction tels as [| tel rest IH]; intros s H; [exact H |].
    cbn. apply IH.
    destruct (track_lap_reference s tel) as [(A & _) | (_ & A & _)];
      congruence.
  - induction tels as [| tel rest IH] using rev_ind.
    + intros _. destruct loaded as [[l u] t]. now repeat split.
    + rewrite track_laps_snoc. intro H.
      destruct (track_lap_reference (track_laps (reset_lap_state loaded) rest) tel)
        as [(A & B & C & D) | (_ & A & _)]; [| congruence].
      rewrite H in A. symmetry in A. destruct (IH A) as (I1 & I2 & I3).
      unfold as_loaded. rewrite B, C, D. now repeat split.
Qed.

Lemma reference_kept_until_commit_witness :
  as_loaded (stored_lap, 9, 90)
    (track_laps (reset_lap_state (stored_lap, 9, 90)) (firstn 4 unconfirmed_lap)).
Proof.
  apply (proj2 (reference_kept_until_commit (stored_lap, 9, 90)
                  (firstn 4 unconfirmed_lap))).
  reflexivity.
Defined.

(** X21.  Without a positive last laptime in any reading no lap is ever
    committed: the reference lap stays the one the run began with, and
    leaving the session writes nothing. *)
Theorem no_laptime_no_save (fs : store) (combo_id : string) (s : lap_state)
    (tels : list telemetry) :
  delayed_save s = false ->
  Forall (fun tel => t_last_laptime tel <= 0) tels ->
  same_reference s (track_laps s tels)
  /\ leave_session fs combo_id (track_laps s tels) = fs.
Proof.
  intros D H.
  assert (R : same_reference s (track_laps s tels)).
  { clear D. revert s. induction H as [| tel rest Hle _ IH]; intro s.
    - apply same_reference_refl.
    - cbn. apply (same_reference_trans _ (track_lap s tel)); [| apply IH].
      destruct (track_lap_reference s tel) as [A | (P & _)]; [exact A | lra]. }
  split; [exact R |].
  unfold leave_session. destruct R as (-> & _). now rewrite D.
Qed.

Lemma no_laptime_no_save_witness :
  leave_session empty_store "track - class"
    (track_laps (reset_lap_state default_curve)
       [reading 10 50 0 100 40; reading 100 1 0 10 40; reading 190 2 0 20 39]) =
  empty_store.
Proof.
  refine (proj2 (no_laptime_no_save _ _ _ _ _ _)).
  - reflexivity.
  - repeat (apply Forall_cons; [cbn; lra |]). apply Forall_nil.
Defined.

(** ** The tick: what the curves always satisfy *)

Lemma nonneg_sentinel : nonneg_distances [DELTA_ZERO].
Proof. repeat constructor. cbn. lra. Qed.

Lemma nonneg_snoc c r :
  nonneg_distances c -> 0 <= distance_of r -> nonneg_distances (c ++ [r]).
Proof.
  intros H Hr. unfold nonneg_distances. rewrite distances_snoc.
  apply Forall_app. split; [exact H | now repeat constructor].
Qed.

Lemma recorded_ok_fuel s p a :
  recorded_ok s -> recorded_ok (fuel_consumption (read_pit_lap s p) a).
Proof.
  intros [H1 H2 H3 H4 H5 H6 H7 H8]. unfold fuel_consumption.
  split_ifs; constructor; assumption.
Qed.

Lemma recorded_ok_detection s st t d :
  recorded_ok s -> recorded_ok (lap_detection s st t d).
Proof.
  intros [H1 H2 H3 H4 H5 H6 H7 H8]. unfold lap_detection.
  destruct (new_lap s st); [| constructor; assumption].
  destruct (lap_recorded s) eqn:R.
  - apply andb_true_iff in R. destruct R as [R _]. apply Z.ltb_lt in R.
    constructor; cbn.
    + apply sentinel_first_sentinel.
    + now apply sentinel_first_snoc.
    + apply nonneg_sentinel.
    + apply nonneg_snoc; [exact H3 |].
      unfold end_sample, distance_of. cbn [nth].
      apply round6_nonneg. specialize (H6 R). lra.
    + exact H5.
    + intro L. cbn in L. lia.
    + intros _. unfold complete. rewrite last_last. cbn. lia.
    + exact H8.
  - constructor; cbn; try assumption.
    + apply sentinel_first_sentinel.
    + apply nonneg_sentinel.
    + intro L. cbn in L. lia.
Qed.

Lemma recorded_ok_distance_check s t d :
  recorded_ok s -> recorded_ok (fst (distance_check s t d)).
Proof.
  intros H. unfold distance_check.
  destruct (stale_distance t d); [| exact H].
  destruct H as [H1 H2 H3 H4 H5 H6 H7 H8].
  constructor; cbn; try assumption. intros _. lra.
Qed.

Lemma recorded_ok_position s p :
  recorded_ok s -> recorded_ok (record_position s p).
Proof.
  intros H. unfold record_position.
  destruct (position_changed s p) eqn:C; [| exact H].
  apply andb_true_iff in C. destruct C as [C _]. apply Qle_bool_iff in C.
  destruct H as [H1 H2 H3 H4 H5 H6 H7 H8].
  constructor; cbn; try assumption.
  - destruct (position_further s p); [now apply sentinel_first_snoc | exact H1].
  - destruct (position_further s p); [| exact H3].
    apply nonneg_snoc; [exact H3 |].
    unfold distance_of. cbn [nth]. now apply round6_nonneg.
  - intros _. exact C.
Qed.

Lemma recorded_ok_validation s t v :
  recorded_ok s -> recorded_ok (validation s t v).
Proof.
  intros H. unfold validation.
  destruct (validating s) eqn:V; [| exact H].
  destruct (Qltb (2 # 10) t && Qle_bool t 3).
  - destruct (Qltb 0 v); [| exact H].
    destruct H as [H1 H2 H3 H4 H5 H6 H7 H8].
    constructor; cbn; try assumption.
    + apply sentinel_first_sentinel.
    + apply nonneg_sentinel.
    + discriminate.
    + now apply H7.
  - destruct (Qltb 3 t && Qltb t 5); [| exact H].
    destruct H as [H1 H2 H3 H4 H5 H6 H7 H8].
    constructor; cbn; try assumption. discriminate.
Qed.

Lemma recorded_ok_track_lap s tel : recorded_ok s -> recorded_ok (track_lap s tel).
Proof.
  intro H. rewrite track_lap_stages. cbv zeta.
  apply recorded_ok_validation, recorded_ok_position, recorded_ok_distance_check,
    recorded_ok_detection, recorded_ok_fuel, H.
Qed.

(** X20.  Whatever the readings are, after any number of ticks from the
    reset state: the curve in progress and the staged curve begin with
    [DELTA_ZERO]; no curve holds a negative distance; and the reference curve
    ends with a row of three fields, as the curve loaded did. *)
Theorem curves_recorded_ok (loaded : list row * Q * Q) (tels : list telemetry) :
  complete (fst (fst loaded)) ->
  nonneg_distances (fst (fst loaded)) ->
  recorded_ok (track_laps (reset_lap_state loaded) tels).
Proof.
  intros HC HN.
  assert (H0 : recorded_ok (reset_lap_state loaded)).
  { destruct loaded as [[l u] t]. cbn in HC, HN.
    constructor; cbn; try assumption.
    - apply sentinel_first_sentinel.
    - apply sentinel_first_sentinel.
    - apply nonneg_sentinel.
    - apply nonneg_sentinel.
    - intro L. cbn in L. lia.
    - discriminate. }
  revert H0. generalize (reset_lap_state loaded).
  induction tels as [| tel rest IH]; intros s H; [exact H |].
  cbn. apply IH. now apply recorded_ok_track_lap.
Qed.

Lemma curves_recorded_ok_witness :
  recorded_ok (track_laps (reset_lap_state default_curve) backward_move).
Proof.
  apply curves_recorded_ok.
  - unfold complete. cbn. lia.
  - repeat constructor. cbn. lra.
Defined.

(** ** The curve store: one file for each combo *)

Lemma list_ascii_of_string_append (a b : string) :
  list_ascii_of_string (String.append a b) =
  list_ascii_of_string a ++ list_ascii_of_string b.
Proof.
  induction a as [| c a IH]; [reflexivity |]. cbn. now rewrite IH.
Qed.

Lemma list_ascii_of_string_inj (a b : string) :
  list_ascii_of_string a = list_ascii_of_string b -> a = b.
Proof.
  intro H. rewrite <- (string_of_list_ascii_of_string a),
    <- (string_of_list_ascii_of_string b). now rewrite H.
Qed.

Lemma fuel_path_inj (a b : string) : fuel_path a = fuel_path b -> a = b.
Proof.
  unfold fuel_path. intro H.
  apply (f_equal list_ascii_of_string) in H.
  rewrite !list_ascii_of_string_append in H.
  apply app_inv_tail in H. now apply list_ascii_of_string_inj.
Qed.

Lemma save_deltafuel_other (fs : store) (combo : string) (l : list row)
    (name : string) :
  name <> fuel_path combo -> save_deltafuel fs combo l name = fs name.
Proof.
  intro H. unfold save_deltafuel, write_file.
  destruct (10 <=? len l)%Z; [| reflexivity].
  now rewrite (proj2 (String.eqb_neq _ _) H).
Qed.

(** X22.  Each combo has a file of its own: saving the curve of one combo
    changes neither the file of another combo nor what [load_deltafuel]
    returns for it, whatever the validator. *)
Theorem save_deltafuel_other_combo (fs : store) (a b : string) (l : list row) :
  a <> b ->
  save_deltafuel fs a l (fuel_path b) = fs (fuel_path b)
  /\ forall val_delta_list,
       returned (load_deltafuel val_delta_list (save_deltafuel fs a l) b) =
       returned (load_deltafuel val_delta_list fs b).
Proof.
  intro Hab.
  assert (Hf : save_deltafuel fs a l (fuel_path b) = fs (fuel_path b)).
  { apply save_deltafuel_other. intro E. apply Hab. symmetry.
    now apply fuel_path_inj. }
  split; [exact Hf |]. intro v.
  unfold returned, load_deltafuel, try_except, load_body, open_read.
  rewrite Hf.
  destruct (fs (fuel_path b)) as [[f |] |]; cbn [bind caught snd];
    [| reflexivity | reflexivity].
  destruct (csv_reader f) as [rows | x]; cbn [bind snd];
    [| destruct (caught x); reflexivity].
  destruct (v rows) as [k | x]; cbn [bind snd];
    [| destruct (caught x); reflexivity].
  destruct (py_getitem k (-1)) as [r | x]; cbn [bind snd];
    [| destruct (caught x); reflexivity].
  destruct (py_getitem r 1) as [u | x]; cbn [bind snd];
    [| destruct (caught x); reflexivity].
  destruct (py_getitem r 2) as [t | x]; cbn [bind snd];
    [reflexivity | destruct (caught x); reflexivity].
Qed.

Lemma save_deltafuel_other_combo_witness :
  returned (load_deltafuel delta_list
              (save_deltafuel unusable_store "short" stored_lap) "text") =
  Ok default_curve.
Proof.
  assert (H : "short"%string <> "text"%string) by discriminate.
  rewrite (proj2 (save_deltafuel_other_combo unusable_store "short" "text"
                    stored_lap H) delta_list).
  reflexivity.
Defined.

(** X23.  [load_deltafuel] with any validator.  When it returns, every file
    but the combo's own is as before, and the combo's file is as before or
    holds the rows returned; the triple is the default one, with the store
    untouched, or its usage and laptime are fields 1 and 2 of the last row of
    the curve.  When it raises, the exception is none of the four that the
    [except] clause names.  An exception of the validator is handled as the
    clause says: the default curve for one of the four, and the exception
    raised to the caller for any other. *)
Theorem load_deltafuel_any_validator
    (val_delta_list : list (list fval) -> result (list row))
    (fs : store) (combo : string) :
  match load_deltafuel val_delta_list fs combo with
  | Ok (fs', (l, u, t)) =>
      (forall name, name <> fuel_path combo -> fs' name = fs name)
      /\ (fs' = fs \/ fs' (fuel_path combo) = Some (Readable (csv_writerows l)))
      /\ ((l, u, t) = default_curve /\ fs' = fs
          \/ exists r, py_getitem l (-1) = Ok r
                       /\ py_getitem r 1 = Ok u /\ py_getitem r 2 = Ok t)
  | Raise e => caught e = false
  end
  /\ (forall f rows e,
        fs (fuel_path combo) = Some (Readable f) ->
        csv_reader f = Ok rows ->
        val_delta_list rows = Raise e ->
        load_deltafuel val_delta_list fs combo
          = if caught e then Ok (fs, default_curve) else Raise e).
Proof.
  split.
  - assert (Any : forall x,
               match (if caught x
                      then @Ok (store * (list row * Q * Q)) (fs, default_curve)
                      else Raise x) with
               | Ok (fs', (l, u, t)) =>
                   (forall name, name <> fuel_path combo -> fs' name = fs name)
                   /\ (fs' = fs
                       \/ fs' (fuel_path combo) = Some (Readable (csv_writerows l)))
                   /\ ((l, u, t) = default_curve /\ fs' = fs
                       \/ exists r, py_getitem l (-1) = Ok r
                                    /\ py_getitem r 1 = Ok u
                                    /\ py_getitem r 2 = Ok t)
               | Raise e => caught e = false
               end).
    { intro x. destruct (caught x) eqn:C; [| exact C].
      split; [reflexivity |]. split; left; [| split]; reflexivity. }
    unfold load_deltafuel, try_except, load_body, open_read.
    destruct (fs (fuel_path combo)) as [[f |] |] eqn:F; cbn [bind];
      [| exact (Any PermissionError) | exact (Any FileNotFoundError)].
    destruct (csv_reader f) as [rows | x] eqn:R; cbn [bind]; [| exact (Any x)].
    destruct (val_delta_list rows) as [k | x] eqn:V; cbn [bind]; [| exact (Any x)].
    destruct (py_getitem k (-1)) as [r | x] eqn:G1; cbn [bind]; [| exact (Any x)].
    destruct (py_getitem r 1) as [u | x] eqn:G2; cbn [bind]; [| exact (Any x)].
    destruct (py_getitem r 2) as [t | x] eqn:G3; cbn [bind]; [| exact (Any x)].
    split; [| split].
    + intros name Hn. destruct (negb _); [| reflexivity].
      now apply save_deltafuel_other.
    + destruct (negb _); [| now left].
      unfold save_deltafuel. destruct (10 <=? len k)%Z; [| now left].
      right. unfold write_file. rewrite String.eqb_refl. now rewrite F.
    + right. now exists r.
  - intros f rows e Hf HR HV.
    apply load_deltafuel_handles.
    unfold load_body, open_read. rewrite Hf. cbn [bind].
    rewrite HR. cbn [bind]. now rewrite HV.
Qed.

Lemma load_deltafuel_any_validator_witness :
  load_deltafuel (fun _ => Raise (OtherError "KeyError")) unusable_store "short"
    = Raise (OtherError "KeyError")
  /\ load_deltafuel (fun _ => Raise TypeError) unusable_store "short"
     = Ok (unusable_store, default_curve).
Proof.
  split.
  - apply (proj2 (load_deltafuel_any_validator _ unusable_store "short")
             [[Numeral 0; Numeral 0]; [Numeral 5; Numeral 1]]
             [[Fin 0; Fin 0]; [Fin 5; Fin 1]] (OtherError "KeyError"));
      reflexivity.
  - apply (proj2 (load_deltafuel_any_validator _ unusable_store "short")
             [[Numeral 0; Numeral 0]; [Numeral 5; Numeral 1]]
             [[Fin 0; Fin 0]; [Fin 5; Fin 1]] TypeError);
      reflexivity.
Defined.

(** ** formatter.py: names of files *)

Lemma strip_invalid_char_filter (name : string) :
  list_ascii_of_string (strip_invalid_char name) =
  filter (fun c => negb (invalid_char c)) (list_ascii_of_string name).
Proof.
  induction name as [| c rest IH]; [reflexivity |].
  cbn. destruct (invalid_char c); cbn; now rewrite IH.
Qed.

(** X24.  [strip_invalid_char] leaves none of the characters that it looks
    for; it changes nothing in a name without them, hence applying it twice
    is applying it once; and the result of a concatenation is the
    concatenation of the results. *)
Theorem strip_invalid_char_clean (name : string) :
  (forall c, In c (list_ascii_of_string (strip_invalid_char name)) ->
             invalid_char c = false)
  /\ (forall clean, (forall c, In c (list_ascii_of_string clean) ->
                               invalid_char c = false) ->
                    strip_invalid_char clean = clean)
  /\ strip_invalid_char (strip_invalid_char name) = strip_invalid_char name
  /\ (forall other, strip_invalid_char (String.append name other) =
                    String.append (strip_invalid_char name)
                                  (strip_invalid_char other)).
Proof.
  assert (Hclean : forall c, In c (list_ascii_of_string (strip_invalid_char name)) ->
                             invalid_char c = false).
  { intros c. rewrite strip_invalid_char_filter, filter_In.
    intros [_ H]. now apply negb_true_iff in H. }
  assert (Hid : forall clean,
             (forall c, In c (list_ascii_of_string clean) -> invalid_char c = false) ->
             strip_invalid_char clean = clean).
  { induction clean as [| c rest IH]; intro H; [reflexivity |].
    cbn. rewrite (H c (or_introl eq_refl)). rewrite IH; [reflexivity |].
    intros c' Hc'. apply H. now right. }
  split; [exact Hclean | split; [exact Hid | split]].
  - now apply Hid.
  - intro other. apply list_ascii_of_string_inj.
    rewrite list_ascii_of_string_append, !strip_invalid_char_filter,
      list_ascii_of_string_append.
    apply filter_app.
Qed.

Lemma strip_invalid_char_clean_witness :
  strip_invalid_char "Spa - GT3" = "Spa - GT3"%string
  /\ strip_invalid_char "Spa: GT3/GTE" = "Spa GT3GTE"%string.
Proof.
  split; [| reflexivity].
  apply (proj1 (proj2 (strip_invalid_char_clean "Spa - GT3"))).
  intros c H. cbn in H. decompose [or] H; subst; try reflexivity. contradiction.
Defined.

(** ** calculation.py: guarded divisions *)

Lemma py_int_nonzero (x : Q) : py_int x <> 0%Z -> ~ x == 0.
Proof.
  intros H E. apply H. unfold py_int.
  assert (L : Qle_bool 0 x = true) by (apply Qle_bool_iff; rewrite E; lra).
  rewrite L. now rewrite E.
Qed.

Lemma py_int_small (x : Q) : -1 < x < 1 -> py_int x = 0%Z.
Proof.
  intros [L U]. unfold py_int. destruct (Qle_bool 0 x) eqn:E.
  - apply Qle_bool_iff in E.
    assert (F1 : (Qfloor x < 1)%Z).
    { rewrite Zlt_Qlt. pose proof (Qfloor_le x) as F.
      change (inject_Z 1) with 1. lra. }
    assert (F0 : (0 <= Qfloor x)%Z).
    { change 0%Z with (Qfloor 0). now apply Qfloor_resp_le. }
    lia.
  - assert (E' : x < 0) by (apply Qltb_lt; unfold Qltb; now rewrite E).
    assert (C1 : (-1 < Qceiling x)%Z).
    { rewrite Zlt_Qlt. pose proof (Qle_ceiling x) as C.
      change (inject_Z (-1)) with (-1). lra. }
    assert (C0 : (Qceiling x <= 0)%Z).
    { change 0%Z with (Qceiling 0). apply Qceiling_resp_le. lra. }
    lia.
Qed.

Lemma py_int_large (x : Q) : x <= -1 \/ 1 <= x -> py_int x <> 0%Z.
Proof.
  intros [L | U]; unfold py_int.
  - assert (E : Qle_bool 0 x = false).
    { destruct (Qle_bool 0 x) eqn:E; [| reflexivity].
      apply Qle_bool_iff in E. lra. }
    rewrite E.
    assert (C : (Qceiling x <= -1)%Z)
      by (change (-1)%Z with (Qceiling (-1)); now apply Qceiling_resp_le).
    lia.
  - assert (E : Qle_bool 0 x = true) by (apply Qle_bool_iff; lra).
    rewrite E.
    assert (F : (1 <= Qfloor x)%Z)
      by (change 1%Z with (Qfloor 1); now apply Qfloor_resp_le).
    lia.
Qed.

(** X25.  The routines that test their divisor before dividing never raise.
    [rot2radius] and [gforce] return 0 for a divisor of 0 and the quotient
    (in absolute value for [rot2radius]) otherwise.  [slip_ratio] and
    [force_ratio] return 0 for a divisor strictly between -1 and 1 and their
    quotient otherwise.  [rot2radius] and [force_ratio] return no negative
    value. *)
Theorem guarded_divisions_return (a b w : Q) :
  (exists r, rot2radius a b = Ok r /\ 0 <= r
             /\ (b == 0 -> r = 0) /\ (~ b == 0 -> r = Qabs (a / b)))
  /\ (exists g, gforce a b = Ok g
                /\ (b == 0 -> g = 0) /\ (~ b == 0 -> g = a / b))
  /\ (exists s, slip_ratio w a b = Ok s
                /\ (-1 < b < 1 -> s = 0)
                /\ (b <= -1 \/ 1 <= b -> s = (Qabs w * a - b) / b))
  /\ (exists f, force_ratio a b = Ok f /\ 0 <= f
                /\ (-1 < b < 1 -> f = 0)
                /\ (b <= -1 \/ 1 <= b -> f = Qabs (100 * a / b))).
Proof.
  split; [| split; [| split]].
  - unfold rot2radius. destruct (truthy b) eqn:T.
    + apply truthy_iff in T. rewrite (py_div_nonzero _ _ T). cbn [bind].
      eexists. split; [reflexivity |]. split; [apply Qabs_nonneg |].
      split; [intro; contradiction | reflexivity].
    + exists 0. split; [reflexivity |]. split; [lra |].
      split; [reflexivity |].
      intro H. apply truthy_iff in H. congruence.
  - unfold gforce. destruct (truthy b) eqn:T.
    + apply truthy_iff in T. rewrite (py_div_nonzero _ _ T).
      eexists. split; [reflexivity |].
      split; [intro; contradiction | reflexivity].
    + exists 0. split; [reflexivity |]. split; [reflexivity |].
      intro H. apply truthy_iff in H. congruence.
  - unfold slip_ratio. destruct (py_int b =? 0)%Z eqn:I; cbn [negb].
    + apply Z.eqb_eq in I.
      exists 0. split; [reflexivity |]. split; [reflexivity |].
      intro H. now apply py_int_large in H.
    + apply Z.eqb_neq in I. pose proof (py_int_nonzero _ I) as T.
      rewrite (py_div_nonzero _ _ T).
      eexists. split; [reflexivity |]. split; [| reflexivity].
      intro H. now apply py_int_small in H.
  - unfold force_ratio. destruct (py_int b =? 0)%Z eqn:I; cbn [negb].
    + apply Z.eqb_eq in I.
      exists 0. split; [reflexivity |]. split; [lra |]. split; [reflexivity |].
      intro H. now apply py_int_large in H.
    + apply Z.eqb_neq in I. pose proof (py_int_nonzero _ I) as T.
      rewrite (py_div_nonzero _ _ T). cbn [bind].
      eexists. split; [reflexivity |]. split; [apply Qabs_nonneg |].
      split; [| reflexivity].
      intro H. now apply py_int_small in H.
Qed.

(** X27.  [image_size_adaption] never divides by zero, and for an image at
    least one unit high and a target of positive height it answers whether
    the image is wider, for its height, than the target is. *)
Theorem image_size_adaption_aspect (org_width org_height target_width target_height : Q) :
  0 < target_height ->
  exists b,
    image_size_adaption org_width org_height target_width target_height = Ok b
    /\ (1 <= org_height ->
        (b = true <-> target_width / target_height < org_width / org_height))
    /\ (org_height < 1 -> (b = true <-> target_width < org_width * target_height)).
Proof.
  intro HT. unfold image_size_adaption, py_max.
  destruct (Qltb org_height 1) eqn:E.
  - apply Qltb_lt in E.
    rewrite py_div_nonzero by lra. cbn [bind].
    eexists. split; [reflexivity |]. split; [intro; lra |].
    intros _. rewrite Qltb_lt.
    setoid_replace (org_width * target_height / 1)
      with (org_width * target_height) by field.
    reflexivity.
  - apply Qltb_ge in E.
    rewrite py_div_nonzero by lra. cbn [bind].
    eexists. split; [reflexivity |]. split; [| intro; lra].
    intros _. rewrite Qltb_lt.
    assert (HH : 0 < org_height) by lra.
    split; intro H.
    + apply Qlt_shift_div_r; [exact HT |].
      setoid_replace (org_width / org_height * target_height)
        with (org_width * target_height / org_height) by (field; lra).
      exact H.
    + setoid_replace (org_width * target_height / org_height)
        with (org_width / org_height * target_height) by (field; lra).
      setoid_replace target_width
        with (target_width / target_height * target_height) at 1
        by (field; lra).
      now apply Qmult_lt_compat_r.
Qed.

Lemma image_size_adaption_aspect_witness :
  exists b,
    image_size_adaption 1920 1080 400 300 = Ok b
    /\ (1 <= 1080 -> (b = true <-> 400 / 300 < 1920 / 1080))
    /\ (1080 < 1 -> (b = true <-> 400 < 1920 * 300)).
Proof.
  apply image_size_adaption_aspect. reflexivity.
Defined.

(** ** calculation.py: minimum, mean and maximum *)

Lemma py_min_le (a b : Q) : py_min a b <= a /\ py_min a b <= b.
Proof. unfold py_min. qltb_cases; lra. Qed.

Lemma py_max_ge (a b : Q) : a <= py_max a b /\ b <= py_max a b.
Proof. unfold py_max. qltb_cases; lra. Qed.

Lemma fold_py_min_least (rest : list Q) : forall x,
  fold_left py_min rest x <= x
  /\ Forall (fun y => fold_left py_min rest x <= y) rest.
Proof.
  induction rest as [| y rest IH]; intro x; cbn [fold_left].
  - split; [lra | constructor].
  - destruct (IH (py_min x y)) as [H1 H2].
    destruct (py_min_le x y) as [L1 L2].
    split; [lra |]. constructor; [lra | exact H2].
Qed.

Lemma fold_py_max_greatest (rest : list Q) : forall x,
  x <= fold_left py_max rest x
  /\ Forall (fun y => y <= fold_left py_max rest x) rest.
Proof.
  induction rest as [| y rest IH]; intro x; cbn [fold_left].
  - split; [lra | constructor].
  - destruct (IH (py_max x y)) as [H1 H2].
    destruct (py_max_ge x y) as [L1 L2].
    split; [lra |]. constructor; [lra | exact H2].
Qed.

Lemma py_min_cases (a b : Q) : py_min a b = a \/ py_min a b = b.
Proof. unfold py_min. destruct (Qltb b a); [now right | now left]. Qed.

Lemma py_max_cases (a b : Q) : py_max a b = a \/ py_max a b = b.
Proof. unfold py_max. destruct (Qltb a b); [now right | now left]. Qed.

Lemma fold_py_min_In (rest : list Q) : forall x,
  In (fold_left py_min rest x) (x :: rest).
Proof.
  induction rest as [| y rest IH]; intro x; cbn [fold_left]; [now left |].
  destruct (IH (py_min x y)) as [H | H]; [| right; now right].
  rewrite <- H. destruct (py_min_cases x y) as [-> | ->];
    [now left | right; now left].
Qed.

Lemma fold_py_max_In (rest : list Q) : forall x,
  In (fold_left py_max rest x) (x :: rest).
Proof.
  induction rest as [| y rest IH]; intro x; cbn [fold_left]; [now left |].
  destruct (IH (py_max x y)) as [H | H]; [| right; now right].
  rewrite <- H. destruct (py_max_cases x y) as [-> | ->];
    [now left | right; now left].
Qed.

Lemma list_range (x : Q) (rest : list Q) :
  Forall (fun y => fold_left py_min rest x <= y /\ y <= fold_left py_max rest x)
         (x :: rest).
Proof.
  destruct (fold_py_min_least rest x) as [L1 L2].
  destruct (fold_py_max_greatest rest x) as [G1 G2].
  constructor; [now split |].
  rewrite Forall_forall in L2, G2. apply Forall_forall. intros y Hy.
  split; [now apply L2 | now apply G2].
Qed.

(** X28.  For a list that is not empty, [min_vs_avg], [max_vs_avg] and
    [max_vs_min] return and none is negative; [max_vs_min] is the difference
    of two elements of the list, one that no element exceeds and one that no
    element is below.  For an empty list the three raise [ValueError]. *)
Theorem spread_bounds (data : list Q) :
  match data with
  | [] =>
      min_vs_avg data = Raise ValueError
      /\ max_vs_avg data = Raise ValueError
      /\ max_vs_min data = Raise ValueError
  | _ =>
      exists below above spread hi lo,
        min_vs_avg data = Ok below
        /\ max_vs_avg data = Ok above
        /\ max_vs_min data = Ok spread
        /\ 0 <= below /\ 0 <= above /\ 0 <= spread
        /\ In hi data /\ In lo data /\ spread = hi - lo
        /\ (forall a, In a data -> lo <= a <= hi)
  end.
Proof.
  destruct data as [| x rest]; [now repeat split |].
  unfold min_vs_avg, max_vs_avg, max_vs_min, py_min_list, py_max_list, mean.
  cbn [bind].
  pose proof (list_range x rest) as R.
  pose proof (fold_py_min_In rest x) as Ilo.
  pose proof (fold_py_max_In rest x) as Ihi.
  revert R Ilo Ihi.
  generalize (fold_left py_min rest x) (fold_left py_max rest x).
  intros lo hi R Ilo Ihi.
  rewrite Forall_forall in R.
  do 3 eexists. exists hi, lo.
  split; [reflexivity |]. split; [reflexivity |]. split; [reflexivity |].
  split; [apply Qabs_nonneg |]. split; [apply Qabs_nonneg |].
  split; [specialize (R x (or_introl eq_refl)); lra |].
  split; [exact Ihi |]. split; [exact Ilo |]. split; [reflexivity |].
  intros a Ha. now apply R.
Qed.

(** ** calculation.py: maps *)

Lemma combine_maps {A : Type} (f g : Q -> Q) (h k : A -> Q) (l : list A) :
  combine (map f (map h l)) (map g (map k l)) =
  map (fun p => (f (h p), g (k p))) l.
Proof. induction l as [| p l IH]; [reflexivity |]. cbn. now rewrite IH. Qed.

Lemma scaled_monotone (s a b : Q) :
  0 <= s -> monotone (fun x => (x - a) * s + b).
Proof.
  intros Hs x y Hxy.
  assert (H : (x - a) * s <= (y - a) * s) by (apply Qmult_le_compat_r; lra).
  lra.
Qed.

Lemma zoomed_monotone (s b : Q) : 0 <= s -> monotone (fun x => x * s - b).
Proof.
  intros Hs x y Hxy.
  assert (H : x * s <= y * s) by (now apply Qmult_le_compat_r).
  lra.
Qed.

(** X29.  [scale_map], given points and a margin of at most half the area
    size, raises [ZeroDivisionError] exactly when all the points coincide.
    Otherwise the scale it returns is not negative, the range it returns
    bounds every point given, and the points it returns are the images of
    the points given, in the same sequence, under one map for each axis that
    keeps the order of the coordinates. *)
Theorem scale_map_keeps_order (coords : list (Q * Q)) (area_size margin : Q) :
  coords <> [] ->
  margin * 2 <= area_size ->
  (coincide coords -> scale_map coords area_size margin = Raise ZeroDivisionError)
  /\ match scale_map coords area_size margin with
     | Ok (points, (x_min, x_max, y_min, y_max), map_scale, _) =>
         0 <= map_scale
         /\ Forall (fun c => x_min <= fst c <= x_max /\ y_min <= snd c <= y_max)
                   coords
         /\ keeps_order coords points
     | Raise e => e = ZeroDivisionError /\ coincide coords
     end.
Proof.
  intros HN HA. destruct coords as [| p0 rest]; [contradiction |].
  unfold scale_map, unzip_coords. cbn [bind fst snd].
  change (map fst (p0 :: rest)) with (fst p0 :: map fst rest).
  change (map snd (p0 :: rest)) with (snd p0 :: map snd rest).
  cbn [py_min_list py_max_list bind fst snd].
  pose proof (list_range (fst p0) (map fst rest)) as RX.
  pose proof (list_range (snd p0) (map snd rest)) as RY.
  pose proof (fold_py_min_In (map fst rest) (fst p0)) as IX0.
  pose proof (fold_py_max_In (map fst rest) (fst p0)) as IX1.
  pose proof (fold_py_min_In (map snd rest) (snd p0)) as IY0.
  pose proof (fold_py_max_In (map snd rest) (snd p0)) as IY1.
  change (fst p0 :: map fst rest) with (map fst (p0 :: rest)) in *.
  change (snd p0 :: map snd rest) with (map snd (p0 :: rest)) in *.
  revert RX RY IX0 IX1 IY0 IY1.
  generalize (fold_left py_min (map fst rest) (fst p0))
             (fold_left py_max (map fst rest) (fst p0))
             (fold_left py_min (map snd rest) (snd p0))
             (fold_left py_max (map snd rest) (snd p0)).
  generalize (p0 :: rest). clear p0 rest HN.
  intros coords x_min x_max y_min y_max RX RY IX0 IX1 IY0 IY1.
  rewrite Forall_forall in RX, RY.
  set (W := x_max - x_min). set (H := y_max - y_min).
  assert (W0 : 0 <= W) by (specialize (RX x_max IX1); subst W; lra).
  assert (H0 : 0 <= H) by (specialize (RY y_max IY1); subst H; lra).
  destruct (py_max_ge W H) as [MW MH].
  assert (Hco : coincide coords -> W == 0 /\ H == 0).
  { intro HC.
    apply in_map_iff in IX0, IX1, IY0, IY1.
    destruct IX0 as (a0 & <- & Ha0). destruct IX1 as (a1 & <- & Ha1).
    destruct IY0 as (b0 & <- & Hb0). destruct IY1 as (b1 & <- & Hb1).
    destruct (HC a1 a0 Ha1 Ha0) as [E1 _]. destruct (HC b1 b0 Hb1 Hb0) as [_ E2].
    subst W H. split; lra. }
  unfold py_div. destruct (Qeq_bool (py_max W H) 0) eqn:Z; cbn [bind].
  - split; [reflexivity |]. split; [reflexivity |].
    apply Qeq_bool_iff in Z. intros p q Hp Hq.
    pose proof (RX (fst p) (in_map fst _ _ Hp)).
    pose proof (RX (fst q) (in_map fst _ _ Hq)).
    pose proof (RY (snd p) (in_map snd _ _ Hp)).
    pose proof (RY (snd q) (in_map snd _ _ Hq)).
    subst W H. split; lra.
  - apply Qeq_bool_false in Z. split.
    + intro HC. exfalso. apply Z. destruct (Hco HC) as [EW EH].
      destruct (py_max_cases W H) as [-> | ->]; assumption.
    + assert (HM : 0 < py_max W H) by lra.
      assert (Hs : 0 <= (area_size - margin * 2) / py_max W H)
        by (apply Qle_shift_div_l; [exact HM | lra]).
      split; [exact Hs |]. split.
      * apply Forall_forall. intros c Hc.
        split; [apply RX; now apply in_map | apply RY; now apply in_map].
      * eexists. eexists. split; [apply combine_maps |].
        split; apply scaled_monotone; exact Hs.
Qed.

Lemma scale_map_keeps_order_witness :
  scale_map [(100, 50); (100, 50)] 120 10 = Raise ZeroDivisionError
  /\ exists points range scale offset,
       scale_map [(0, 0); (200, 50); (100, 100)] 120 10 =
         Ok (points, range, scale, offset)
       /\ keeps_order [(0, 0); (200, 50); (100, 100)] points.
Proof.
  assert (HA : 10 * 2 <= 120) by (cbn; lra).
  split.
  - assert (HN : [(100, 50); (100, 50)] <> @nil (Q * Q)) by discriminate.
    apply (proj1 (scale_map_keeps_order _ 120 10 HN HA)).
    intros p q [<- | [<- | []]] [<- | [<- | []]]; split; reflexivity.
  - assert (HN : [(0, 0); (200, 50); (100, 100)] <> @nil (Q * Q)) by discriminate.
    pose proof (proj2 (scale_map_keeps_order _ 120 10 HN HA)) as H.
    do 4 eexists. split; [vm_compute; reflexivity |].
    exact (proj2 (proj2 H)).
Defined.

(** X30.  [zoom_map], given points and a scale that is not negative, returns
    the images of the points given, in the same sequence, under one map for
    each axis that keeps the order of the coordinates; on each axis every
    coordinate returned plus the margin is at most the map size returned,
    and one of them reaches it. *)
Theorem zoom_map_keeps_order (coords : list (Q * Q)) (map_scale margin : Q) :
  coords <> [] ->
  0 <= map_scale ->
  exists points width height offset,
    zoom_map coords map_scale margin = Ok (points, (width, height), offset)
    /\ keeps_order coords points
    /\ Forall (fun p => fst p + margin <= width /\ snd p + margin <= height) points
    /\ Exists (fun p => fst p + margin = width) points
    /\ Exists (fun p => snd p + margin = height) points.
Proof.
  intros HN HS. destruct coords as [| p0 rest]; [contradiction |].
  unfold zoom_map, unzip_coords. cbn [bind fst snd].
  change (map fst (p0 :: rest)) with (fst p0 :: map fst rest).
  change (map snd (p0 :: rest)) with (snd p0 :: map snd rest).
  cbn [py_min_list bind fst snd].
  generalize (fold_left py_min (map fst rest) (fst p0))
             (fold_left py_min (map snd rest) (snd p0)).
  intros x_min y_min.
  set (fx := fun x_pos : Q => x_pos * map_scale - (x_min * map_scale - margin)).
  set (fy := fun y_pos : Q => y_pos * map_scale - (y_min * map_scale - margin)).
  cbn [map py_max_list bind].
  pose proof (fold_py_max_greatest (map fx (map fst rest)) (fx (fst p0))) as [GX1 GX2].
  pose proof (fold_py_max_greatest (map fy (map snd rest)) (fy (snd p0))) as [GY1 GY2].
  pose proof (Forall_cons (P := fun y => y <= _) _ GX1 GX2) as GX.
  pose proof (Forall_cons (P := fun y => y <= _) _ GY1 GY2) as GY.
  pose proof (fold_py_max_In (map fx (map fst rest)) (fx (fst p0))) as IX.
  pose proof (fold_py_max_In (map fy (map snd rest)) (fy (snd p0))) as IY.
  revert GX GY IX IY.
  generalize (fold_left py_max (map fx (map fst rest)) (fx (fst p0)))
             (fold_left py_max (map fy (map snd rest)) (fy (snd p0))).
  intros x_max y_max GX GY IX IY.
  change (fx (fst p0) :: map fx (map fst rest))
    with (map fx (map fst (p0 :: rest))) in *.
  change (fy (snd p0) :: map fy (map snd rest))
    with (map fy (map snd (p0 :: rest))) in *.
  revert GX GY IX IY. generalize (p0 :: rest). clear p0 rest HN GX1 GX2 GY1 GY2.
  intros coords GX GY IX IY.
  do 4 eexists. split; [reflexivity |].
  rewrite combine_maps.
  split; [| split; [| split]].
  - exists fx, fy. split; [reflexivity |].
    split; apply zoomed_monotone; exact HS.
  - rewrite !Forall_map in *. rewrite Forall_forall in *. intros c Hc.
    specialize (GX c Hc). specialize (GY c Hc). cbn [fst snd]. split; lra.
  - rewrite map_map in IX. apply in_map_iff in IX. destruct IX as (c & Ec & Hc).
    apply Exists_exists. exists (fx (fst c), fy (snd c)).
    split; [apply (in_map (fun c => (fx (fst c), fy (snd c)))), Hc |].
    cbn [fst]. now rewrite Ec.
  - rewrite map_map in IY. apply in_map_iff in IY. destruct IY as (c & Ec & Hc).
    apply Exists_exists. exists (fx (fst c), fy (snd c)).
    split; [apply (in_map (fun c => (fx (fst c), fy (snd c)))), Hc |].
    cbn [snd]. now rewrite Ec.
Qed.

Lemma zoom_map_keeps_order_witness :
  exists points width height offset,
    zoom_map [(-5, 2); (15, 4); (5, 12)] 2 3 = Ok (points, (width, height), offset)
    /\ keeps_order [(-5, 2); (15, 4); (5, 12)] points
    /\ Forall (fun p => fst p + 3 <= width /\ snd p + 3 <= height) points
    /\ Exists (fun p => fst p + 3 = width) points
    /\ Exists (fun p => snd p + 3 = height) points.
Proof.
  apply zoom_map_keeps_order; [discriminate | cbn; lra].
Defined.
